(** * temp-identity-gen: a verification model of the identity generator

    The development follows the three Python sources:
    - [generator.py]  (class [TemporaryIdentityGenerator]),
    - [identity_generator.py]  (the interactive shell [main]),
    - [utils.py]  (colour and banner helpers, not modelled).

    Python values are embedded as follows.  [str] is [string] (the model
    covers ASCII text, on which [str.lower] is the ASCII lower-casing);
    [int] is [Z]; a [dict] is an association list in insertion order
    with unique keys; an exception is a constructor of [exn]; code that
    reads the network, the random source, the clock or the disk runs in
    the state-and-exception monad [M] over an explicit [World].

    The file has three parts: the model of the program, function by
    function; the vocabulary in which its properties are stated; the
    properties and their proofs. *)

From Stdlib Require Import ZArith List String Ascii Bool Lia QArith.
From Stdlib Require Import DecimalString.
Import ListNotations.

#[local] Set Warnings "-register-all".
Local Open Scope string_scope.
Local Open Scope Z_scope.

(** ** Python values *)

Module Py.

(** Exceptions the modelled code can raise. *)
Inductive exn : Type :=
| IndexError
| KeyError (key : string)
| ValueError
| TypeError
| ReError
| FileNotFoundError (filename : string)
| JSONDecodeError (message : string)
| UnicodeDecodeError
| EOFError
| RequestException (why : string).

Inductive result (A : Type) : Type :=
| Ok (a : A)
| Raise (e : exn).
Arguments Ok {A} a.
Arguments Raise {A} e.

(** [str(n)] for an [int]. *)
Definition str_of_Z (n : Z) : string :=
  NilZero.string_of_int (Z.to_int n).

(** Zero fill to a minimum width, the sign (if any) first, as the
    format specs [02d] and [04d] do. *)
Fixpoint zeros (k : nat) : string :=
  match k with O => "" | S k' => String "0" (zeros k') end.

Definition zfill (width : nat) (n : Z) : string :=
  let body := str_of_Z (Z.abs n) in
  let sign := if n <? 0 then "-" else "" in
  sign ++ zeros (width - String.length sign - String.length body) ++ body.

(** [c.lower()] on one ASCII character. *)
Definition lower_ascii (c : ascii) : ascii :=
  let n := nat_of_ascii c in
  if (Nat.leb 65 n && Nat.leb n 90)%bool then ascii_of_nat (n + 32) else c.

(** [s.lower()]. *)
Fixpoint lower (s : string) : string :=
  match s with
  | EmptyString => EmptyString
  | String c rest => String (lower_ascii c) (lower rest)
  end.

(** [needle in hay] for two strings. *)
Fixpoint contains (needle hay : string) : bool :=
  if String.prefix needle hay then true
  else match hay with
       | EmptyString => false
       | String _ rest => contains needle rest
       end.

(** Truthiness of a [str] and of an [Optional[str]]. *)
Definition truthy (s : string) : bool :=
  negb (String.eqb s "").

Definition truthy_opt (o : option string) : bool :=
  match o with Some s => truthy s | None => false end.

(** *** Dictionaries: association lists in insertion order *)

Section Dict.
Context {V : Type}.

Definition dict := list (string * V).

(** [k in d] *)
Fixpoint dict_has (d : dict) (k : string) : bool :=
  match d with
  | [] => false
  | (k', _) :: rest => if String.eqb k k' then true else dict_has rest k
  end.

(** [d.get(k)] *)
Fixpoint dict_get (d : dict) (k : string) : option V :=
  match d with
  | [] => None
  | (k', v) :: rest => if String.eqb k k' then Some v else dict_get rest k
  end.

(** [d[k]], raising [KeyError] when [k] is absent. *)
Definition dict_index (d : dict) (k : string) : result V :=
  match dict_get d k with
  | Some v => Ok v
  | None => Raise (KeyError k)
  end.

(** [d[k] = v]: an existing key keeps its place, a new key goes last. *)
Fixpoint dict_set (d : dict) (k : string) (v : V) : dict :=
  match d with
  | [] => [(k, v)]
  | (k', v') :: rest =>
      if String.eqb k k' then (k', v) :: rest
      else (k', v') :: dict_set rest k v
  end.

(** [d.keys()], [d.values()] *)
Definition keys (d : dict) : list string := map fst d.
Definition values (d : dict) : list V := map snd d.

End Dict.
Arguments dict V : clear implicits.

(** *** State and exceptions

    A computation reads and updates a state [S] and either returns a
    value or raises; what it did to the state before raising stays
    done, as in Python. *)

Definition M (S A : Type) : Type := S -> result A * S.

Definition ret {S A} (a : A) : M S A := fun s => (Ok a, s).

Definition bind {S A B} (c : M S A) (k : A -> M S B) : M S B :=
  fun s =>
    match c s with
    | (Ok a, s') => k a s'
    | (Raise e, s') => (Raise e, s')
    end.

Definition raise {S A} (e : exn) : M S A := fun s => (Raise e, s).

Definition lift {S A} (r : result A) : M S A := fun s => (r, s).

Definition get {S} : M S S := fun s => (Ok s, s).

Definition modify {S} (f : S -> S) : M S unit := fun s => (Ok tt, f s).

(** [try: c  except ...: handler]; [handler e = None] when no clause
    catches [e], which then propagates. *)
Definition try_except {S A} (c : M S A) (handler : exn -> option (M S A))
  : M S A :=
  fun s =>
    match c s with
    | (Ok a, s') => (Ok a, s')
    | (Raise e, s') =>
        match handler e with
        | Some h => h s'
        | None => (Raise e, s')
        end
    end.

End Py.
Import Py.

Declare Scope py_scope.
Delimit Scope py_scope with py.
Notation "x <- c ;; k" := (bind c (fun x => k))
  (at level 61, c at next level, right associativity) : py_scope.
Notation "c ;;; k" := (bind c (fun _ => k))
  (at level 61, right associativity) : py_scope.
Local Open Scope py_scope.

(** ** The generator object

    [TemporaryIdentityGenerator] holds one hard-coded table
    ([state_maps]) and six lookup tables that [__init__] may replace
    from the configuration directory.  The field generators are
    modelled on tables of the shape the built-in fallbacks have. *)

Record Generator : Type := {
  state_maps : dict (list string);
  first_names : dict (list string);
  last_names : dict (list string);
  domains : list string;
  streets : dict (list string);
  addresses : dict (list string);
  phone_formats : dict string
}.

(** The values [__init__] assigns before it reads any file. *)
Definition fallback : Generator := {|
  state_maps := [("US", ["CA"; "NY"; "TX"]); ("in", ["MH"; "DL"; "KA"])];
  first_names := [("male", ["John"; "Michael"]);
                  ("female", ["Mary"; "Sarah"]);
                  ("neutral", ["Alex"; "Taylor"])];
  last_names := [("US", ["Smith"; "Johnson"])];
  domains := ["example.com"; "test.org"];
  streets := [("US", ["Main St"; "Elm St"]); ("in", ["MG Road"; "Park Ave"])];
  addresses := [("CA", ["San Francisco"; "Los Angeles"]);
                ("NY", ["New York"; "Albany"]);
                ("MH", ["Mumbai"; "Pune"])];
  phone_formats := [("US", "+1-###-###-####"); ("in", "+91-#####-#####")]
|}.

(** ** Loading the configuration ([__init__], generator.py 37-75) *)

Module Config.

(** What [json.load] returns.  A number keeps its literal: the loader
    only asks whether a value is a dict, a list or a string. *)
Inductive json : Type :=
| JNull
| JBool (b : bool)
| JNumber (literal : string)
| JStr (s : string)
| JList (items : list json)
| JObj (members : list (string * json)).

Definition is_dict (v : json) : bool :=
  match v with JObj _ => true | _ => false end.

Definition is_list (v : json) : bool :=
  match v with JList _ => true | _ => false end.

Definition is_str (v : json) : bool :=
  match v with JStr _ => true | _ => false end.

(** [v == key] for a string [key]. *)
Definition eq_str (key : string) (v : json) : bool :=
  match v with JStr s => String.eqb s key | _ => false end.

(** [key in v]: membership in a dict's keys or a list's items, substring
    of a string; [TypeError] on [None], a bool or a number. *)
Definition py_in (key : string) (v : json) : result bool :=
  match v with
  | JObj members => Ok (dict_has members key)
  | JList items => Ok (existsb (eq_str key) items)
  | JStr s => Ok (contains key s)
  | JNull | JBool _ | JNumber _ => Raise TypeError
  end.

(** [all(key in v for key in ks)]: stops at the first [False]. *)
Fixpoint all_in (ks : list string) (v : json) : result bool :=
  match ks with
  | [] => Ok true
  | k :: rest =>
      match py_in k v with
      | Ok true => all_in rest v
      | Ok false => Ok false
      | Raise e => Raise e
      end
  end.

(** [isinstance(v, dict) and all(p(x) for x in v.values())] *)
Definition dict_of (p : json -> bool) (v : json) : bool :=
  match v with
  | JObj members => forallb p (values members)
  | _ => false
  end.

(** The six lookup tables, in the order [__init__] reads them. *)
Inductive TableId : Type :=
| FirstNames | LastNames | Domains | Streets | Addresses | PhoneFormats.

Definition rank (t : TableId) : nat :=
  match t with
  | FirstNames => 0 | LastNames => 1 | Domains => 2
  | Streets => 3 | Addresses => 4 | PhoneFormats => 5
  end%nat.

Definition file_name (t : TableId) : string :=
  match t with
  | FirstNames => "first_names.json"
  | LastNames => "last_names.json"
  | Domains => "domains.json"
  | Streets => "streets.json"
  | Addresses => "addresses.json"
  | PhoneFormats => "phone_formats.json"
  end.

(** What opening and decoding one file gives.  Other failures of
    [open] (a directory, no permission) are not modelled. *)
Inductive ConfigFile : Type :=
| Absent                (* open raises FileNotFoundError *)
| NotUtf8               (* the text decoder raises UnicodeDecodeError *)
| NotJson (message : string)   (* json.load raises JSONDecodeError; its text *)
| Holds (v : json).     (* json.load returns v *)

Definition ConfigDir : Type := TableId -> ConfigFile.

(** The six attributes as [__init__] leaves them: whatever [json.load]
    returned is stored, of any shape. *)
Record Loaded : Type := {
  loaded_first_names : json;
  loaded_last_names : json;
  loaded_domains : json;
  loaded_streets : json;
  loaded_addresses : json;
  loaded_phone_formats : json
}.

Definition table (l : Loaded) (t : TableId) : json :=
  match t with
  | FirstNames => loaded_first_names l
  | LastNames => loaded_last_names l
  | Domains => loaded_domains l
  | Streets => loaded_streets l
  | Addresses => loaded_addresses l
  | PhoneFormats => loaded_phone_formats l
  end.

Definition set_table (t : TableId) (v : json) (l : Loaded) : Loaded :=
  match t with
  | FirstNames =>
      {| loaded_first_names := v; loaded_last_names := loaded_last_names l;
         loaded_domains := loaded_domains l; loaded_streets := loaded_streets l;
         loaded_addresses := loaded_addresses l;
         loaded_phone_formats := loaded_phone_formats l |}
  | LastNames =>
      {| loaded_first_names := loaded_first_names l; loaded_last_names := v;
         loaded_domains := loaded_domains l; loaded_streets := loaded_streets l;
         loaded_addresses := loaded_addresses l;
         loaded_phone_formats := loaded_phone_formats l |}
  | Domains =>
      {| loaded_first_names := loaded_first_names l;
         loaded_last_names := loaded_last_names l;
         loaded_domains := v; loaded_streets := loaded_streets l;
         loaded_addresses := loaded_addresses l;
         loaded_phone_formats := loaded_phone_formats l |}
  | Streets =>
      {| loaded_first_names := loaded_first_names l;
         loaded_last_names := loaded_last_names l;
         loaded_domains := loaded_domains l; loaded_streets := v;
         loaded_addresses := loaded_addresses l;
         loaded_phone_formats := loaded_phone_formats l |}
  | Addresses =>
      {| loaded_first_names := loaded_first_names l;
         loaded_last_names := loaded_last_names l;
         loaded_domains := loaded_domains l; loaded_streets := loaded_streets l;
         loaded_addresses := v;
         loaded_phone_formats := loaded_phone_formats l |}
  | PhoneFormats =>
      {| loaded_first_names := loaded_first_names l;
         loaded_last_names := loaded_last_names l;
         loaded_domains := loaded_domains l; loaded_streets := loaded_streets l;
         loaded_addresses := loaded_addresses l;
         loaded_phone_formats := v |}
  end.

(** The typed fallbacks as JSON values. *)
Definition jstrings (l : list string) : json := JList (map JStr l).

Definition jtable (d : dict (list string)) : json :=
  JObj (map (fun kv => (fst kv, jstrings (snd kv))) d).

Definition jformats (d : dict string) : json :=
  JObj (map (fun kv => (fst kv, JStr (snd kv))) d).

Definition raw (g : Generator) : Loaded := {|
  loaded_first_names := jtable (first_names g);
  loaded_last_names := jtable (last_names g);
  loaded_domains := jstrings (domains g);
  loaded_streets := jtable (streets g);
  loaded_addresses := jtable (addresses g);
  loaded_phone_formats := jformats (phone_formats g)
|}.

(** The warning [__init__] prints and logs. *)
Inductive Warning : Type :=
| ValidationFailed (t : TableId)   (* "<file> ..., using fallbacks." *)
| NotFound (filename : string)     (* "Configuration file <e.filename> not found, ..." *)
| InvalidJson (message : string).  (* "Configuration file <e> is invalid JSON, ..." *)

Record Loader : Type := {
  tables : Loaded;
  warnings : list Warning      (* oldest first *)
}.

Definition assign (t : TableId) (v : json) : M Loader unit :=
  modify (fun s => {| tables := set_table t v (tables s);
                      warnings := warnings s |}).

Definition warn (w : Warning) : M Loader unit :=
  modify (fun s => {| tables := tables s; warnings := (warnings s ++ [w])%list |}).

(** The constructor is modelled at the default [config_dir], the one
    [main] builds the generator with; [file_path t] is the text of
    [config_path / name] on a POSIX system, which [open] puts in the
    [filename] of its [FileNotFoundError]. *)
Definition config_dir : string := "config".

Definition file_path (t : TableId) : string :=
  config_dir ++ "/" ++ file_name t.

(** [with open(config_path / name) as f: ... json.load(f)] *)
Definition read_json (dir : ConfigDir) (t : TableId) : M Loader json :=
  match dir t with
  | Absent => raise (FileNotFoundError (file_path t))
  | NotUtf8 => raise UnicodeDecodeError
  | NotJson message => raise (JSONDecodeError message)
  | Holds v => ret v
  end.

(** The shape check made on each table once it is assigned. *)
Definition check (t : TableId) (v : json) : result bool :=
  match t with
  | FirstNames => all_in ["male"; "female"; "neutral"] v
  | LastNames | Streets | Addresses => Ok (dict_of is_list v)
  | Domains => Ok (is_list v)
  | PhoneFormats => Ok (dict_of is_str v)
  end.

(** One [with] block: read, assign, check, warn. *)
Definition load (dir : ConfigDir) (t : TableId) : M Loader unit :=
  v <- read_json dir t ;;
  assign t v ;;;
  ok <- lift (check t v) ;;
  if ok then ret tt else warn (ValidationFailed t).

Definition load_all (dir : ConfigDir) : M Loader unit :=
  load dir FirstNames ;;;
  load dir LastNames ;;;
  load dir Domains ;;;
  load dir Streets ;;;
  load dir Addresses ;;;
  load dir PhoneFormats.

(** The two [except] clauses of [__init__]: the first formats
    [e.filename], the second the exception itself, which is the
    parser's message and does not name the file. *)
Definition on_config_error (e : exn) : option (M Loader unit) :=
  match e with
  | FileNotFoundError name => Some (warn (NotFound name))
  | JSONDecodeError message => Some (warn (InvalidJson message))
  | _ => None
  end.

(** [__init__]: the result is [Raise e] when the constructor lets [e]
    escape (no generator is built), else the tables left in use; the
    warnings emitted come with it either way. *)
Definition init (dir : ConfigDir) : result Loaded * list Warning :=
  match try_except (load_all dir) on_config_error
          {| tables := raw fallback; warnings := [] |} with
  | (Ok _, s) => (Ok (tables s), warnings s)
  | (Raise e, s) => (Raise e, warnings s)
  end.

(** The loaded tables read at the shape the field generators work
    on: [None] when a table in use has another shape. *)
Fixpoint strings_of (items : list json) : option (list string) :=
  match items with
  | [] => Some []
  | JStr s :: rest =>
      match strings_of rest with
      | Some l => Some (s :: l)
      | None => None
      end
  | _ :: _ => None
  end.

Definition as_strings (v : json) : option (list string) :=
  match v with
  | JList items => strings_of items
  | _ => None
  end.

Fixpoint table_of (members : list (string * json))
  : option (dict (list string)) :=
  match members with
  | [] => Some []
  | (k, v) :: rest =>
      match as_strings v, table_of rest with
      | Some l, Some d => Some ((k, l) :: d)
      | _, _ => None
      end
  end.

Definition as_table (v : json) : option (dict (list string)) :=
  match v with
  | JObj members => table_of members
  | _ => None
  end.

Fixpoint formats_of (members : list (string * json)) : option (dict string) :=
  match members with
  | [] => Some []
  | (k, JStr s) :: rest =>
      match formats_of rest with
      | Some d => Some ((k, s) :: d)
      | None => None
      end
  | _ :: _ => None
  end.

Definition as_formats (v : json) : option (dict string) :=
  match v with
  | JObj members => formats_of members
  | _ => None
  end.

Definition shape (l : Loaded) : option Generator :=
  match as_table (loaded_first_names l), as_table (loaded_last_names l),
        as_strings (loaded_domains l), as_table (loaded_streets l),
        as_table (loaded_addresses l), as_formats (loaded_phone_formats l) with
  | Some firsts, Some lasts, Some doms, Some strs, Some addrs, Some fmts =>
      Some {| state_maps := state_maps fallback;
              first_names := firsts; last_names := lasts; domains := doms;
              streets := strs; addresses := addrs; phone_formats := fmts |}
  | _, _, _, _, _, _ => None
  end.

End Config.

(** ** Identity records *)

(** A field of an identity: a string, or the nested address dict. *)
Inductive Value : Type :=
| Str (s : string)
| Sub (d : dict string).

Definition Identity : Type := dict Value.

(** ** The world outside the program *)

(** [datetime.now()] *)
Record DateTime : Type := {
  year : Z; month : Z; day : Z; hour : Z; minute : Z; second : Z
}.

(** The answer to one HTTP request: [Refused] stands for every
    [requests.RequestException] (no connection, timeout, and the
    non-2xx status that [raise_for_status] turns into one); [Served]
    carries the decoded body, at the shape the Mail.tm API gives it. *)
Inductive reply (A : Type) : Type :=
| Refused (why : string)
| Served (a : A).
Arguments Refused {A} why.
Arguments Served {A} a.

(** The mail service: each endpoint answers the request it receives,
    and may answer differently each time (the first argument counts the
    requests sent before this one). *)
Record Service : Type := {
  (* GET /domains: the 'domain' of each entry of 'hydra:member' *)
  list_domains : nat -> reply (list string);
  (* POST /accounts {address, password} *)
  create_account : nat -> string -> string -> reply unit;
  (* POST /token {address, password}: the body's 'token', if any *)
  issue_token : nat -> string -> string -> reply (option string);
  (* GET /messages with a bearer token: the 'id' of each message *)
  list_messages : nat -> string -> reply (list string);
  (* GET /messages/<id>: the body's 'text' ('' when it has none) *)
  fetch_message : nat -> string -> string -> reply string
}.

Inductive Level : Type := INFO | WARNING | ERROR.

(** [json.dumps] or [yaml.dump] *)
Inductive Serializer : Type := JsonDumps | YamlDump.

(** The arguments of [PBKDF2HMAC]. *)
Record Pbkdf2 : Type := {
  algorithm : string;
  key_bytes : Z;
  salt : string;
  iterations : Z
}.

(** What a file written by the program holds.  CSV files are kept as
    rows of cells; the text of a JSON or YAML dump and the bytes of a
    Fernet token are not modelled, only what they were made from: a
    sealed file is the dump encrypted under the key derived from the
    password. *)
Inductive FileBody : Type :=
| Csv (rows : list (list string))
| Dump (serializer : Serializer) (identities : list Identity)
| Sealed (kdf : Pbkdf2) (password : string) (serializer : Serializer)
         (identities : list Identity)
| Details (identity : Identity).

(** Everything the program does that can be seen from outside. *)
Inductive Event : Type :=
| Sent (verb url : string)
| Slept (seconds : Q)
| Logged (level : Level) (message : string)
| Printed (line : string)
| Shown (identity : Identity)      (* display_identity *)
| Opened (filename : string)       (* open(filename, 'w') *)
| Reported (e : exn)               (* the shell's print(f"Error: {e}") *)
| Cleared                          (* os.system('clear') *)
| Banner.                          (* print_banner() *)

Record World : Type := {
  service : Service;
  entropy : nat -> Z;          (* the n-th draw of the secure random source *)
  wallclock : nat -> DateTime; (* the n-th reading of the clock *)
  sent : nat;                  (* requests sent so far *)
  drawn : nat;                 (* random draws so far *)
  glanced : nat;               (* clock readings so far *)
  trace : list Event;          (* newest first *)
  disk : dict FileBody
}.

Definition with_sent (n : nat) (w : World) : World :=
  {| service := service w; entropy := entropy w; wallclock := wallclock w;
     sent := n; drawn := drawn w; glanced := glanced w;
     trace := trace w; disk := disk w |}.

Definition with_drawn (n : nat) (w : World) : World :=
  {| service := service w; entropy := entropy w; wallclock := wallclock w;
     sent := sent w; drawn := n; glanced := glanced w;
     trace := trace w; disk := disk w |}.

Definition with_glanced (n : nat) (w : World) : World :=
  {| service := service w; entropy := entropy w; wallclock := wallclock w;
     sent := sent w; drawn := drawn w; glanced := n;
     trace := trace w; disk := disk w |}.

Definition with_trace (t : list Event) (w : World) : World :=
  {| service := service w; entropy := entropy w; wallclock := wallclock w;
     sent := sent w; drawn := drawn w; glanced := glanced w;
     trace := t; disk := disk w |}.

Definition with_disk (d : dict FileBody) (w : World) : World :=
  {| service := service w; entropy := entropy w; wallclock := wallclock w;
     sent := sent w; drawn := drawn w; glanced := glanced w;
     trace := trace w; disk := d |}.

(** Effects are computations over the world. *)
Definition IO (A : Type) : Type := M World A.

Definition emit (e : Event) : IO unit :=
  modify (fun w => with_trace (e :: trace w) w).

Definition print (line : string) : IO unit := emit (Printed line).
Definition log (level : Level) (message : string) : IO unit :=
  emit (Logged level message).

(** [time.sleep(seconds)]: [ValueError] on a negative length. *)
Definition sleep (seconds : Q) : IO unit :=
  if Qle_bool 0 seconds then emit (Slept seconds) else raise ValueError.

(** One request: it is recorded, counted, and answered by the service. *)
Definition http {A} (verb url : string) (answer : Service -> nat -> reply A)
  : IO A :=
  fun w =>
    let w' := with_sent (S (sent w)) (with_trace (Sent verb url :: trace w) w) in
    match answer (service w) (sent w) with
    | Served a => (Ok a, w')
    | Refused why => (Raise (RequestException why), w')
    end.

(** [datetime.now()] *)
Definition now : IO DateTime :=
  fun w => (Ok (wallclock w (glanced w)), with_glanced (S (glanced w)) w).

(** *** The [secrets] module *)

(** [secrets.randbelow(n)]: a value in [[0, n)]; [ValueError] unless
    [n] is positive. *)
Definition randbelow (n : Z) : IO Z :=
  fun w =>
    if n <=? 0 then (Raise ValueError, w)
    else (Ok (entropy w (drawn w) mod n), with_drawn (S (drawn w)) w).

(** [secrets.choice(seq)]: [seq[randbelow(len(seq))]]; [IndexError] on
    an empty sequence. *)
Definition choice {A} (seq : list A) : IO A :=
  match seq with
  | [] => raise IndexError
  | x :: _ =>
      i <- randbelow (Z.of_nat (List.length seq)) ;;
      ret (nth (Z.to_nat i) seq x)
  end.

Definition chars (s : string) : list ascii := list_ascii_of_string s.

(** [''.join(secrets.choice(alphabet) for _ in range(n))] *)
Fixpoint random_chars (alphabet : string) (n : nat) : IO string :=
  match n with
  | O => ret ""
  | S n' =>
      c <- choice (chars alphabet) ;;
      rest <- random_chars alphabet n' ;;
      ret (String c rest)
  end.

Definition hex_digit (n : Z) : ascii :=
  nth (Z.to_nat n) (chars "0123456789abcdef") "0"%char.

(** [secrets.token_hex(nbytes)]: two hex digits for each random byte. *)
Fixpoint token_hex (nbytes : nat) : IO string :=
  match nbytes with
  | O => ret ""
  | S n' =>
      b <- randbelow 256 ;;
      rest <- token_hex n' ;;
      ret (String (hex_digit (b / 16)) (String (hex_digit (b mod 16)) rest))
  end.

(** *** The [string] module *)

Definition ascii_lowercase : string := "abcdefghijklmnopqrstuvwxyz".
Definition ascii_uppercase : string := "ABCDEFGHIJKLMNOPQRSTUVWXYZ".
Definition ascii_letters : string := ascii_lowercase ++ ascii_uppercase.
Definition digits : string := "0123456789".
Definition punctuation : string :=
  "!" ++ String (ascii_of_nat 34) "#$%&'()*+,-./:;<=>?@[\]^_`{|}~".

(** ** Field generators (generator.py 77-174) *)

Section Generators.
Variable self : Generator.

(** [table.get(key, table[fallback_key])]: Python evaluates the default
    [table[fallback_key]] before the call, so a table without
    [fallback_key] faults even when [key] is present. *)
Definition get_or {V} (table : dict V) (key fallback_key : string)
  : result V :=
  match dict_index table fallback_key with
  | Raise e => Raise e
  | Ok dflt =>
      match dict_get table key with
      | Some v => Ok v
      | None => Ok dflt
      end
  end.

Definition generate_name (gender country : string) : IO (string * string) :=
  let gender := if truthy gender then lower gender else "any" in
  gender <- (if String.eqb gender "any"
             then choice ["male"; "female"; "neutral"]
             else ret gender) ;;
  let first_name_key :=
    if dict_has (first_names self) gender then gender else "neutral" in
  firsts <- lift (get_or (first_names self) first_name_key "neutral") ;;
  first_name <- choice firsts ;;
  let last_name_key :=
    if dict_has (last_names self) country then country else "US" in
  lasts <- lift (get_or (last_names self) last_name_key "US") ;;
  last_name <- choice lasts ;;
  ret (first_name, last_name).

Definition generate_email (first_name last_name country : string)
  : IO string :=
  domain <- choice (domains self) ;;
  n <- randbelow 1000 ;;
  let username := lower first_name ++ "." ++ lower last_name ++ str_of_Z n in
  ret (username ++ "@" ++ domain).

(** [''.join(secrets.choice(string.digits) if c == '#' else c for c in fmt)] *)
Fixpoint fill_format (fmt : string) : IO string :=
  match fmt with
  | EmptyString => ret ""
  | String c rest =>
      d <- (if Ascii.eqb c "#" then choice (chars digits) else ret c) ;;
      tail <- fill_format rest ;;
      ret (String d tail)
  end.

Definition generate_phone (country : string) : IO string :=
  phone_format <- lift (get_or (phone_formats self) country "US") ;;
  fill_format phone_format.

Definition generate_address (country : string) : IO (dict string) :=
  let country := if dict_has (state_maps self) country then country else "US" in
  states <- lift (get_or (state_maps self) country "US") ;;
  state <- choice states ;;
  street_names <- lift (get_or (streets self) country "US") ;;
  street <- choice street_names ;;
  cities <- lift (get_or (addresses self) state "CA") ;;
  city <- choice cities ;;
  number <- randbelow 1000 ;;
  ret [("street", str_of_Z number ++ " " ++ street);
       ("city", city);
       ("state", state);
       ("country", country)].

Definition generate_username (first_name last_name : string) : IO string :=
  let base := lower first_name ++ lower last_name in
  suffix <- token_hex 2 ;;
  ret (base ++ suffix).

Definition generate_birthdate (min_age max_age : Z) : IO string :=
  t <- now ;;
  let current_year := year t in
  let start_year := current_year - max_age in
  let end_year := current_year - min_age in
  r <- randbelow (end_year - start_year + 1) ;;
  let year := r + start_year in
  m <- randbelow 12 ;;
  let month := m + 1 in
  d <- randbelow 28 ;;
  let day := d + 1 in
  ret (str_of_Z year ++ "-" ++ zfill 2 month ++ "-" ++ zfill 2 day).

Definition generate_password : IO string :=
  random_chars (ascii_letters ++ digits ++ punctuation) 12.

End Generators.

(** ** Provisioning a mailbox ([generate_temp_email], generator.py 97-134) *)

(** How one turn of a [for] loop ends. *)
Inductive flow (A : Type) : Type :=
| Return (a : A)      (* the function returns from inside the loop *)
| Break
| Continue.           (* the turn ends; the next one starts *)
Arguments Return {A} a.
Arguments Break {A}.
Arguments Continue {A}.

(** [for i in range(start, start + n): body(i)]; [None] when the loop
    runs out or breaks. *)
Fixpoint for_range {A} (body : Z -> IO (flow A)) (start : Z) (n : nat)
  : IO (option A) :=
  match n with
  | O => ret None
  | S n' =>
      f <- body start ;;
      match f with
      | Return a => ret (Some a)
      | Break => ret None
      | Continue => for_range body (start + 1) n'
      end
  end.

Definition retries : Z := 3.

Definition api (path : string) : string := "https://api.mail.tm" ++ path.

(** The [try] body of one attempt. *)
Definition create_mailbox : IO (flow (option string * option string)) :=
  available <- http "GET" (api "/domains") list_domains ;;
  match available with
  | [] => log WARNING "No domains available from Mail.tm" ;;; ret Break
  | _ :: _ =>
      domain <- choice available ;;
      username <- random_chars (ascii_lowercase ++ digits) 10 ;;
      password <- random_chars (ascii_letters ++ digits ++ punctuation) 12 ;;
      let email := username ++ "@" ++ domain in
      http "POST" (api "/accounts")
           (fun s n => create_account s n email password) ;;;
      token <- http "POST" (api "/token")
                    (fun s n => issue_token s n email password) ;;
      log INFO ("Created Mail.tm account: " ++ email) ;;;
      ret (Return (Some email, token))
  end.

(** The [except requests.RequestException] clause of attempt [attempt]:
    log, back off unless this was the last attempt, go on. *)
Definition back_off (attempt : Z) (why : string)
  : IO (flow (option string * option string)) :=
  log ERROR ("Mail.tm attempt " ++ str_of_Z (attempt + 1)
               ++ " failed: " ++ why) ;;;
  (if attempt <? retries - 1
   then sleep (inject_Z (2 ^ attempt))
   else ret tt) ;;;
  ret Continue.

Definition on_provision_error (attempt : Z) (e : exn)
  : option (IO (flow (option string * option string))) :=
  match e with
  | RequestException why => Some (back_off attempt why)
  | _ => None
  end.

Definition provision_attempt (attempt : Z)
  : IO (flow (option string * option string)) :=
  try_except create_mailbox (on_provision_error attempt).

Definition generate_temp_email : IO (option string * option string) :=
  r <- for_range provision_attempt 0 (Z.to_nat retries) ;;
  match r with
  | Some found => ret found
  | None =>
      print ("Failed to create Mail.tm account after " ++ str_of_Z retries
               ++ " attempts.") ;;;
      ret (None, None)
  end.

(** ** Assembling an identity ([generate_identity], generator.py 176-208) *)

(** [strftime("%Y-%m-%d %H:%M:%S")] and [strftime("%Y%m%d_%H%M%S")],
    for years of four digits. *)
Definition created_stamp (t : DateTime) : string :=
  zfill 4 (year t) ++ "-" ++ zfill 2 (month t) ++ "-" ++ zfill 2 (day t)
    ++ " " ++ zfill 2 (hour t) ++ ":" ++ zfill 2 (minute t) ++ ":"
    ++ zfill 2 (second t).

Definition file_stamp (t : DateTime) : string :=
  zfill 4 (year t) ++ zfill 2 (month t) ++ zfill 2 (day t) ++ "_"
    ++ zfill 2 (hour t) ++ zfill 2 (minute t) ++ zfill 2 (second t).

(** Lines 182-192: the email of the identity and its mailbox token. *)
Definition choose_email (self : Generator) (first_name last_name country : string)
    (use_temp_email : bool) (manual_email : option string)
  : IO (string * option string) :=
  let generated :=
    (email <- generate_email self first_name last_name country ;;
     ret (email, None)) in
  let provisioned :=
    (got <- generate_temp_email ;;
     if truthy_opt (fst got)
     then ret (match fst got with Some email => email | None => "" end,
               snd got)
     else generated) in
  match manual_email with
  | Some given =>
      if truthy given then ret (given, None)
      else if use_temp_email then provisioned else generated
  | None => if use_temp_email then provisioned else generated
  end.

Definition generate_identity (self : Generator) (country gender : string)
    (use_temp_email : bool) (manual_email : option string)
    (min_age max_age : Z) : IO Identity :=
  names <- generate_name self gender country ;;
  let first_name := fst names in
  let last_name := snd names in
  let full_name := first_name ++ " " ++ last_name in
  mail <- choose_email self first_name last_name country use_temp_email
                       manual_email ;;
  let email := fst mail in
  let email_token := snd mail in
  phone <- generate_phone self country ;;
  address <- generate_address self country ;;
  username <- generate_username first_name last_name ;;
  birthdate <- generate_birthdate min_age max_age ;;
  password <- generate_password ;;
  t <- now ;;
  let identity :=
    [("first_name", Str first_name);
     ("last_name", Str last_name);
     ("full_name", Str full_name);
     ("email", Str email);
     ("phone", Str phone);
     ("address", Sub address);
     ("username", Str username);
     ("birthdate", Str birthdate);
     ("password", Str password);
     ("created", Str (created_stamp t))] in
  match email_token with
  | Some token =>
      if truthy token then ret (dict_set identity "email_token" (Str token))
      else ret identity
  | None => ret identity
  end.

(** ** Polling the inbox ([check_inbox], generator.py 210-236) *)

(** What [re.search(pattern, content)] gives: [re.error] on a pattern
    that does not compile, else the matched text, if any. *)
Inductive searched : Type :=
| BadPattern
| NoMatch
| Match (text : string).

Section Inbox.
Variable re_search : string -> string -> searched.

Definition search (pattern content : string) : IO (option string) :=
  match re_search pattern content with
  | BadPattern => raise ReError
  | NoMatch => ret None
  | Match text => ret (Some text)
  end.

(** The [for message in messages] loop; [Some r] when it returns [r]
    from [check_inbox], [None] when it runs out. *)
Fixpoint scan_messages (token code_pattern link_pattern : string)
    (messages : list string) : IO (option (option string * option string)) :=
  match messages with
  | [] => ret None
  | msg_id :: rest =>
      content <- http "GET" (api ("/messages/" ++ msg_id))
                      (fun s n => fetch_message s n token msg_id) ;;
      code_match <- search code_pattern content ;;
      match code_match with
      | Some code =>
          log INFO ("Found verification code in Mail.tm inbox: " ++ code) ;;;
          ret (Some (Some code, None))
      | None =>
          link_match <- search link_pattern content ;;
          match link_match with
          | Some link =>
              log INFO ("Found confirmation link in Mail.tm inbox: " ++ link) ;;;
              ret (Some (None, Some link))
          | None => scan_messages token code_pattern link_pattern rest
          end
      end
  end.

(** The [except requests.RequestException] clause of a poll. *)
Definition on_poll_error (attempt : Z) (e : exn)
  : option (IO (option (option string * option string))) :=
  match e with
  | RequestException why =>
      Some (log ERROR ("Inbox check attempt " ++ str_of_Z (attempt + 1)
                         ++ " failed: " ++ why) ;;;
            ret None)
  | _ => None
  end.

(** One turn of the polling loop. *)
Definition poll (token code_pattern link_pattern : string) (poll_interval : Q)
    (attempt : Z) : IO (flow (option string * option string)) :=
  found <- try_except
             (messages <- http "GET" (api "/messages")
                               (fun s n => list_messages s n token) ;;
              scan_messages token code_pattern link_pattern messages)
             (on_poll_error attempt) ;;
  match found with
  | Some r => ret (Return r)
  | None => sleep poll_interval ;;; ret Continue
  end.

Definition check_inbox (token code_pattern link_pattern : string)
    (poll_attempts : Z) (poll_interval : Q)
  : IO (option string * option string) :=
  r <- for_range (poll token code_pattern link_pattern poll_interval) 0
                 (Z.to_nat poll_attempts) ;;
  match r with
  | Some found => ret found
  | None =>
      log WARNING "No verification code or link found after polling" ;;;
      ret (None, None)
  end.

End Inbox.

(** ** Export ([save_identity], generator.py 252-287) *)

(** The flattening loop of the CSV branch: a dict-valued field [key]
    becomes one entry [key_subkey] for each of its members. *)
Definition flatten_field (flat : dict string) (field : string * Value)
  : dict string :=
  match snd field with
  | Sub members =>
      fold_left (fun acc sub => dict_set acc (fst field ++ "_" ++ fst sub) (snd sub))
                members flat
  | Str value => dict_set flat (fst field) value
  end.

Definition flatten (identity : Identity) : dict string :=
  fold_left flatten_field identity [].

Definition put_file (filename : string) (body : FileBody) : IO unit :=
  modify (fun w => with_disk (dict_set (disk w) filename body) w).

(** [open(filename, 'w')]: the file exists, empty, from here on. *)
Definition open_w (filename : string) (empty : FileBody) : IO unit :=
  emit (Opened filename) ;;; put_file filename empty.

(** One more row at the end of an open CSV file. *)
Definition append_row (filename : string) (row : list string) : IO unit :=
  modify (fun w =>
            match dict_get (disk w) filename with
            | Some (Csv rows) =>
                with_disk (dict_set (disk w) filename (Csv (rows ++ [row])%list)) w
            | _ => w
            end).

(** [csv.DictWriter._dict_to_list] with the default [extrasaction]
    ('raise') and [restval] (''). *)
Definition wrong_fields (fieldnames : list string) (row : dict string)
  : list string :=
  filter (fun k => negb (existsb (String.eqb k) fieldnames)) (keys row).

Definition dict_to_list (fieldnames : list string) (row : dict string)
  : result (list string) :=
  match wrong_fields fieldnames row with
  | [] => Ok (map (fun k => match dict_get row k with
                            | Some v => v
                            | None => ""
                            end) fieldnames)
  | _ :: _ => Raise ValueError
  end.

(** [writer.writerows(rows)]: rows are written one at a time. *)
Fixpoint writerows (filename : string) (fieldnames : list string)
    (rows : list (dict string)) : IO unit :=
  match rows with
  | [] => ret tt
  | row :: rest =>
      cells <- lift (dict_to_list fieldnames row) ;;
      append_row filename cells ;;;
      writerows filename fieldnames rest
  end.

(** [flat_identities[0]] *)
Definition first_of {A} (l : list A) : result A :=
  match l with
  | [] => Raise IndexError
  | x :: _ => Ok x
  end.

(** Line 279: how the Fernet key is derived from the password. *)
Definition kdf : Pbkdf2 := {|
  algorithm := "SHA256"; key_bytes := 32; salt := "salt_"; iterations := 100000
|}.

Definition save_identity (identities : list Identity) (output_format : string)
    (encrypt_password : option string) : IO unit :=
  t <- now ;;
  let timestamp := file_stamp t in
  filename <-
    (if String.eqb output_format "csv" then
       let filename := "data/identities_" ++ timestamp ++ ".csv" in
       let flat_identities := map flatten identities in
       open_w filename (Csv []) ;;;
       first <- lift (first_of flat_identities) ;;
       let fieldnames := keys first in
       append_row filename fieldnames ;;;
       writerows filename fieldnames flat_identities ;;;
       ret filename
     else
       let filename := "data/identities_" ++ timestamp ++ "." ++ output_format in
       let dumper := if String.eqb output_format "json" then JsonDumps else YamlDump in
       let data :=
         match encrypt_password with
         | Some password =>
             if truthy password then Sealed kdf password dumper identities
             else Dump dumper identities
         | None => Dump dumper identities
         end in
       open_w filename data ;;;
       ret filename) ;;
  print ("Identities saved to " ++ filename) ;;;
  log INFO ("Identities saved to " ++ filename).

(** [save_identity_log], generator.py 289-303 *)
Definition save_identity_log (identity : Identity) (filename : string)
  : IO unit :=
  let filepath := "logs/manual_logs/" ++ filename in
  open_w filepath (Details identity) ;;;
  log INFO ("Identity log saved to " ++ filepath).

(** ** Batches ([generate_batch_identities], generator.py 305-339) *)

Definition display_identity (identity : Identity) : IO unit :=
  emit (Shown identity).

Definition address_fields : list string :=
  ["address_street"; "address_city"; "address_state"; "address_country"].

(** [s.split('_')] *)
Fixpoint split_underscore (s : string) (current : string) : list string :=
  match s with
  | EmptyString => [current]
  | String c rest =>
      if Ascii.eqb c "_" then current :: split_underscore rest ""
      else split_underscore rest (current ++ String c "")
  end.

(** The projection of one identity on the requested fields. *)
Definition project_field (identity : Identity) (filtered : Identity)
    (field : string) : Identity :=
  match dict_get identity field with
  | Some v => dict_set filtered field v
  | None =>
      if existsb (String.eqb field) address_fields then
        match dict_get identity "address" with
        | Some (Sub address) =>
            let subkey := nth 1 (split_underscore field "") "" in
            match dict_get address subkey with
            | Some v => dict_set filtered field (Str v)
            | None => filtered
            end
        | _ => filtered
        end
      else filtered
  end.

Definition inbox_hint (identity : Identity) : string :=
  "To retrieve verification code or link from inbox, run the script with check-inbox "
    ++ match dict_get identity "email_token" with
       | Some (Str token) => token
       | _ => ""
       end
    ++ " [--code-pattern <pattern>] [--link-pattern <pattern>]".

Definition is_nonempty {A} (o : option (list A)) : bool :=
  match o with
  | Some (_ :: _) => true
  | _ => false
  end.

(** The body of [for _ in range(count)], with the list built so far. *)
Definition batch_turn (self : Generator) (country gender : string)
    (fields : option (list string)) (preview : bool) (min_age max_age : Z)
    (use_temp_email : bool) (manual_email : option string)
    (identities : list Identity) : IO (list Identity) :=
  identity <- generate_identity self country gender use_temp_email
                                manual_email min_age max_age ;;
  let identity :=
    match fields with
    | Some (f :: fs) => fold_left (project_field identity) (f :: fs) []
    | _ => identity
    end in
  let identities := (identities ++ [identity])%list in
  (if preview then
     display_identity identity ;;;
     if (use_temp_email && dict_has identity "email_token")%bool
     then print (inbox_hint identity)
     else ret tt
   else ret tt) ;;;
  ret identities.

Fixpoint batch_loop (turn : list Identity -> IO (list Identity)) (n : nat)
    (identities : list Identity) : IO (list Identity) :=
  match n with
  | O => ret identities
  | S n' =>
      identities <- turn identities ;;
      batch_loop turn n' identities
  end.

Definition generate_batch_identities (self : Generator) (count : Z)
    (country gender : string) (save : bool) (fields : option (list string))
    (output_format : string) (preview : bool) (min_age max_age : Z)
    (use_temp_email : bool) (manual_email : option string)
    (encrypt_password : option string) : IO (list Identity) :=
  identities <- batch_loop
                  (batch_turn self country gender fields preview min_age
                              max_age use_temp_email manual_email)
                  (Z.to_nat count) [] ;;
  (if save then save_identity identities output_format encrypt_password
   else ret tt) ;;;
  ret identities.

(** ** The interactive shell ([main], identity_generator.py) *)

(** The namespace [argparse] returns for [generate]. *)
Record GenerateArgs : Type := {
  save : bool;
  save_log : bool;
  country : string;
  gender : string;                (* one of male, female, neutral, any *)
  format : string;                (* one of json, csv, yaml *)
  count : Z;
  fields : option (list string);
  no_preview : bool;
  min_age : Z;
  max_age : Z;
  use_temp_email : bool;
  manual_email : option string;
  encrypt : option string
}.

(** The namespace [argparse] returns for [check-inbox]. *)
Record InboxArgs : Type := {
  token : string;
  code_pattern : string;
  link_pattern : string;
  poll_attempts : Z;
  poll_interval : Q
}.

(** One line of input, split into words and parsed: [None] stands for
    the [SystemExit] with which [argparse] refuses its arguments. *)
Inductive Command : Type :=
| Blank
| StopCmd
| Clean
| Generate (parsed : option GenerateArgs)
| CheckInbox (parsed : option InboxArgs)
| Unknown (word : string).

(** Whether the [while True] loop goes round again. *)
Inductive Signal : Type := Again | Exit.

Definition all_valid : list string :=
  ["first_name"; "last_name"; "full_name"; "email"; "phone"; "address";
   "username"; "birthdate"; "password"; "created"; "email_token";
   "address_street"; "address_city"; "address_state"; "address_country"].

Definition invalid_fields_warning : string :=
  "Warning: Invalid fields specified. Valid fields: ['first_name', 'last_name', 'full_name', 'email', 'phone', 'address', 'username', 'birthdate', 'password', 'created', 'email_token', 'address_street', 'address_city', 'address_state', 'address_country']".

(** [for x in xs: body(x)] *)
Fixpoint for_each {A} (body : A -> IO unit) (xs : list A) : IO unit :=
  match xs with
  | [] => ret tt
  | x :: rest => body x ;;; for_each body rest
  end.

(** [for i, x in enumerate(xs): body(i, x)], counting from [i]. *)
Fixpoint for_enumerate {A} (body : Z -> A -> IO unit) (i : Z) (xs : list A)
  : IO unit :=
  match xs with
  | [] => ret tt
  | x :: rest => body i x ;;; for_enumerate body (i + 1) rest
  end.

(** Lines 88-100: what [generate] does with the batch it got back. *)
Definition after_batch (args : GenerateArgs) (identities : list Identity)
  : IO unit :=
  (if no_preview args then
     for_each (fun identity =>
                 display_identity identity ;;;
                 if dict_has identity "email_token"
                 then print (inbox_hint identity)
                 else ret tt)
              identities
   else ret tt) ;;;
  if save_log args then
    for_enumerate
      (fun i identity =>
         t <- now ;;
         let log_filename :=
           if 1 <? Z.of_nat (List.length identities)
           then "identity_details_" ++ file_stamp t ++ "_" ++ str_of_Z (i + 1)
                  ++ ".log"
           else "identity_details_" ++ file_stamp t ++ ".log" in
         save_identity_log identity log_filename)
      0 identities
  else ret tt.

(** Lines 56-100: the [try] body of the [generate] verb, after
    [parse_args] has returned [args]. *)
Definition run_generate (self : Generator) (args : GenerateArgs) : IO unit :=
  if count args <? 1 then
    print "Error: Count must be positive"
  else if ((min_age args <? 0) || (max_age args <? min_age args)
           || (120 <? max_age args))%bool then
    print "Error: Invalid age range (min_age >=0, min_age <= max_age <=120)"
  else if (use_temp_email args && truthy_opt (manual_email args))%bool then
    print "Error: Cannot use both --use-temp-email and --manual-email"
  else if (truthy_opt (encrypt args) && String.eqb (format args) "csv")%bool then
    print "Error: Encryption is not supported for CSV format"
  else
    fields <-
      (if (is_nonempty (fields args)
           && negb (forallb (fun field => existsb (String.eqb field) all_valid)
                            (match fields args with Some l => l | None => [] end)))%bool
       then print invalid_fields_warning ;;; ret None
       else ret (fields args)) ;;
    identities <-
      generate_batch_identities self (count args) (country args) (gender args)
        (save args) fields (format args) (negb (no_preview args))
        (min_age args) (max_age args) (use_temp_email args)
        (manual_email args) (encrypt args) ;;
    after_batch args identities.

(** [except Exception as e: print(f"Error: {e}")] *)
Definition on_any_error (e : exn) : option (IO unit) :=
  Some (emit (Reported e)).

Definition generate_verb (self : Generator) (parsed : option GenerateArgs)
  : IO unit :=
  match parsed with
  | None => print "Error: Invalid arguments."
  | Some args => try_except (run_generate self args) on_any_error
  end.

Section Shell.
Variable re_search : string -> string -> searched.

(** Lines 113-133: the [try] body of the [check-inbox] verb. *)
Definition run_check_inbox (args : InboxArgs) : IO unit :=
  if poll_attempts args <? 1 then
    print "Error: Poll attempts must be positive"
  else if Qle_bool (poll_interval args) 0 then
    print "Error: Poll interval must be positive"
  else
    found <- check_inbox re_search (token args) (code_pattern args)
                         (link_pattern args) (poll_attempts args)
                         (poll_interval args) ;;
    if truthy_opt (fst found) then
      print ("Retrieved Verification Code: "
               ++ match fst found with Some code => code | None => "" end)
    else if truthy_opt (snd found) then
      print ("Retrieved Confirmation Link: "
               ++ match snd found with Some link => link | None => "" end) ;;;
      print "Please open the link in a browser to confirm."
    else
      print "No verification code or link found after polling.".

Definition check_inbox_verb (parsed : option InboxArgs) : IO unit :=
  match parsed with
  | None => print "Error: Invalid arguments."
  | Some args => try_except (run_check_inbox args) on_any_error
  end.

Definition menu : list string :=
  [String (ascii_of_nat 10) "Available Commands:";
   "  generate  - Generate identities with specified parameters";
   "  check-inbox - Check email inbox for verification code or link";
   "  clean     - Clear recent command output";
   "  stop      - Quit the program"].

(** One turn of [while True], on the command read at the prompt. *)
Definition turn (self : Generator) (command : Command) : IO Signal :=
  for_each print menu ;;;
  match command with
  | Blank => ret Again
  | StopCmd => print "Exiting program." ;;; ret Exit
  | Clean => emit Cleared ;;; emit Banner ;;; ret Again
  | Generate parsed => generate_verb self parsed ;;; ret Again
  | CheckInbox parsed => check_inbox_verb parsed ;;; ret Again
  | Unknown word => print ("Unknown command: " ++ word ++ ".") ;;; ret Again
  end.

(** [main] after the generator is built, fed the commands typed at the
    prompt; [input] raises [EOFError] when they run out. *)
Fixpoint main_loop (self : Generator) (commands : list Command) : IO unit :=
  match commands with
  | [] => for_each print menu ;;; raise EOFError
  | command :: rest =>
      signal <- turn self command ;;
      match signal with
      | Exit => ret tt
      | Again => main_loop self rest
      end
  end.

Definition main (self : Generator) (commands : list Command) : IO unit :=
  emit Banner ;;; main_loop self commands.

End Shell.

(** ** The two default patterns of [check_inbox]

    [re.search] itself is a parameter of the inbox model.  For the
    scenarios below it is instantiated by an engine that implements the
    two default patterns on ASCII text and refuses any other. *)

Definition default_code_pattern : string := "\b\d{6}\b".
Definition default_link_pattern : string := "https?://[^\s]+".

Definition between (lo hi : nat) (c : ascii) : bool :=
  (Nat.leb lo (nat_of_ascii c) && Nat.leb (nat_of_ascii c) hi)%bool.

(** [\d], [\w] and [\s] on ASCII characters. *)
Definition is_digit (c : ascii) : bool := between 48 57 c.

Definition is_word (c : ascii) : bool :=
  (is_digit c || between 65 90 c || between 97 122 c || Ascii.eqb c "_")%bool.

Definition is_space (c : ascii) : bool :=
  (between 9 13 c || between 28 32 c)%bool.

(** The first [n] characters when they are all digits, with what follows. *)
Fixpoint take_digits (n : nat) (s : string) : option (string * string) :=
  match n with
  | O => Some ("", s)
  | S n' =>
      match s with
      | String c rest =>
          if is_digit c then
            match take_digits n' rest with
            | Some (ds, after) => Some (String c ds, after)
            | None => None
            end
          else None
      | EmptyString => None
      end
  end.

Definition starts_with_word (s : string) : bool :=
  match s with
  | String c _ => is_word c
  | EmptyString => false
  end.

(** Leftmost match of [\b\d{6}\b]; [after_word] tells whether the
    character before [s] is a word character. *)
Fixpoint find_code (after_word : bool) (s : string) : searched :=
  match s with
  | EmptyString => NoMatch
  | String c rest =>
      match (if after_word then None else take_digits 6 s) with
      | Some (ds, after) =>
          if starts_with_word after then find_code (is_word c) rest
          else Match ds
      | None => find_code (is_word c) rest
      end
  end.

(** The longest prefix without whitespace. *)
Fixpoint take_nonspace (s : string) : string :=
  match s with
  | String c rest => if is_space c then "" else String c (take_nonspace rest)
  | EmptyString => ""
  end.

Definition drop (n : nat) (s : string) : string :=
  String.substring n (String.length s - n) s.

(** A match of [https?://[^\s]+] at the start of [s]. *)
Definition url_at (s : string) : option string :=
  let with_scheme (scheme : string) :=
    match take_nonspace (drop (String.length scheme) s) with
    | EmptyString => None
    | body => Some (scheme ++ body)
    end in
  if String.prefix "https://" s then with_scheme "https://"
  else if String.prefix "http://" s then with_scheme "http://"
  else None.

Fixpoint find_url (s : string) : searched :=
  match url_at s with
  | Some url => Match url
  | None =>
      match s with
      | String _ rest => find_url rest
      | EmptyString => NoMatch
      end
  end.

Definition default_engine (pattern content : string) : searched :=
  if String.eqb pattern default_code_pattern then find_code false content
  else if String.eqb pattern default_link_pattern then find_url content
  else BadPattern.

(** ** Scenarios: concrete worlds and inputs *)

Definition offline : Service := {|
  list_domains := fun _ => Refused "connection refused";
  create_account := fun _ _ _ => Refused "connection refused";
  issue_token := fun _ _ _ => Refused "connection refused";
  list_messages := fun _ _ => Refused "connection refused";
  fetch_message := fun _ _ _ => Refused "connection refused"
|}.

Definition noon : DateTime :=
  {| year := 2025; month := 6; day := 15; hour := 12; minute := 0; second := 0 |}.

(** A fresh world: nothing sent, drawn, printed or written yet. *)
Definition fresh (s : Service) (e : nat -> Z) : World := {|
  service := s; entropy := e; wallclock := fun _ => noon;
  sent := 0; drawn := 0; glanced := 0; trace := []; disk := []
|}.

(** A mailbox holding one message with a code and a link in it. *)
Definition one_message : Service := {|
  list_domains := fun _ => Refused "connection refused";
  create_account := fun _ _ _ => Refused "connection refused";
  issue_token := fun _ _ _ => Refused "connection refused";
  list_messages := fun _ _ => Served ["m1"];
  fetch_message := fun _ _ _ =>
    Served "Your code is 483920, or open https://example.com/confirm?t=1 now"
|}.

(** A configuration directory without [first_names.json]; every other
    file holds a table of the right shape. *)
Definition no_first_names : Config.ConfigDir :=
  fun t =>
    match t with
    | Config.FirstNames => Config.Absent
    | Config.LastNames =>
        Config.Holds (Config.jtable [("FR", ["Dupont"; "Martin"])])
    | Config.Domains => Config.Holds (Config.jstrings ["mail.example"])
    | Config.Streets => Config.Holds (Config.jtable [("US", ["Oak St"])])
    | Config.Addresses => Config.Holds (Config.jtable [("CA", ["Fresno"])])
    | Config.PhoneFormats => Config.Holds (Config.jformats [("US", "###-####")])
    end.

(** A directory whose [first_names.json] lacks two of the three keys. *)
Definition short_first_names : Config.ConfigDir :=
  fun t =>
    match t with
    | Config.FirstNames => Config.Holds (Config.jtable [("male", ["Bob"])])
    | _ => no_first_names t
    end.

(** A directory whose [first_names.json] holds a number. *)
Definition number_first_names : Config.ConfigDir :=
  fun t =>
    match t with
    | Config.FirstNames => Config.Holds (Config.JNumber "5")
    | _ => no_first_names t
    end.

(** A directory with a broken [domains.json] after two good files. *)
Definition broken_domains : Config.ConfigDir :=
  fun t =>
    match t with
    | Config.FirstNames =>
        Config.Holds (Config.jtable [("male", ["Bob"]); ("female", ["Eve"]);
                                     ("neutral", ["Sam"])])
    | Config.Domains =>
        Config.NotJson "Expecting value: line 1 column 1 (char 0)"
    | _ => no_first_names t
    end.

(** The built-in tables with one configured domain, written with
    capitals. *)
Definition capital_domain : Generator := {|
  state_maps := state_maps fallback;
  first_names := first_names fallback;
  last_names := last_names fallback;
  domains := ["Mail.Example.COM"];
  streets := streets fallback;
  addresses := addresses fallback;
  phone_formats := phone_formats fallback
|}.

(** [generate --count 2 --format csv --save] *)
Definition two_to_csv : GenerateArgs := {|
  save := true; save_log := false; country := "US"; gender := "any";
  format := "csv"; count := 2; fields := None; no_preview := false;
  min_age := 18; max_age := 65; use_temp_email := false;
  manual_email := None; encrypt := None
|}.

(** [generate --format csv --encrypt hunter2 --save] *)
Definition sealed_csv : GenerateArgs := {|
  save := true; save_log := false; country := "US"; gender := "any";
  format := "csv"; count := 1; fields := None; no_preview := false;
  min_age := 18; max_age := 65; use_temp_email := false;
  manual_email := None; encrypt := Some "hunter2"
|}.

(** The built-in tables with [phone_formats], [first_names] and
    [streets] replaced by tables that lack the fallback key. *)
Definition no_fallback_keys : Generator := {|
  state_maps := state_maps fallback;
  first_names := [("male", ["Bob"]); ("female", ["Eve"])];
  last_names := last_names fallback;
  domains := domains fallback;
  streets := [("in", ["MG Road"])];
  addresses := addresses fallback;
  phone_formats := [("in", "+91-#####-#####")]
|}.

(** A service that answers but has no domain to offer. *)
Definition no_domains : Service := {|
  list_domains := fun _ => Served [];
  create_account := fun _ _ _ => Served tt;
  issue_token := fun _ _ _ => Served (Some "tok");
  list_messages := fun _ _ => Served [];
  fetch_message := fun _ _ _ => Served ""
|}.

(** A service that creates every mailbox asked for and issues the
    token [tok-1] for it. *)
Definition obliging : Service := {|
  list_domains := fun _ => Served ["mail.example"; "post.example"];
  create_account := fun _ _ _ => Served tt;
  issue_token := fun _ _ _ => Served (Some "tok-1");
  list_messages := fun _ _ => Served [];
  fetch_message := fun _ _ _ => Served ""
|}.

(** The built-in tables with no email domain. *)
Definition no_email_domains : Generator := {|
  state_maps := state_maps fallback;
  first_names := first_names fallback;
  last_names := last_names fallback;
  domains := [];
  streets := streets fallback;
  addresses := addresses fallback;
  phone_formats := phone_formats fallback
|}.

(** A directory whose [streets.json] is not UTF-8 text, after three
    good files. *)
Definition garbled_streets : Config.ConfigDir :=
  fun t =>
    match t with
    | Config.Streets => Config.NotUtf8
    | Config.Domains => Config.Holds (Config.jstrings ["mail.example"])
    | _ => broken_domains t
    end.

(** A directory whose six files decode; [first_names.json] lacks two
    keys and [domains.json] holds a dict. *)
Definition two_bad_shapes : Config.ConfigDir :=
  fun t =>
    match t with
    | Config.Domains => Config.Holds (Config.jtable [("US", ["mail.example"])])
    | _ => short_first_names t
    end.

(** A pattern engine that rejects every pattern. *)
Definition rejecting_engine (pattern content : string) : searched :=
  BadPattern.

(** A service that refuses the first request and serves every later
    one. *)
Definition flaky : Service := {|
  list_domains := fun n => if Nat.eqb n 0 then Refused "timed out"
                           else Served ["mail.example"];
  create_account := fun _ _ _ => Served tt;
  issue_token := fun _ _ _ => Served (Some "tok-1");
  list_messages := fun _ _ => Served [];
  fetch_message := fun _ _ _ => Served ""
|}.


(** * Vocabulary of the properties

    The predicates and observations in which the properties below are
    stated. *)

(** ** Tables *)

(** [l] has an element. *)
Definition nonempty {A} (l : list A) : bool :=
  match l with [] => false | _ :: _ => true end.

(** A table has its fallback key and no empty list. *)
Definition stocked_table (d : dict (list string)) (fallback_key : string)
  : bool :=
  (dict_has d fallback_key && forallb nonempty (values d))%bool.

(** What [table.get(key, table[fallback_key])] selects. *)
Definition selected {V} (d : dict V) (key fallback_key : string) : option V :=
  match dict_get d key with
  | Some v => Some v
  | None => dict_get d fallback_key
  end.

(** The tables [generate_address] reads are stocked. *)
Definition address_stocked (self : Generator) : bool :=
  (stocked_table (state_maps self) "US"
   && stocked_table (streets self) "US"
   && stocked_table (addresses self) "CA")%bool.

(** Every table a generator reads has its fallback key and no empty
    list. *)
Definition stocked (self : Generator) : bool :=
  (address_stocked self
   && stocked_table (first_names self) "neutral"
   && stocked_table (last_names self) "US"
   && nonempty (domains self)
   && dict_has (phone_formats self) "US")%bool.

(** ** Configuration *)


(** ** Runs *)

(** The trace grows: [new] lists, oldest first, what a run added. *)
Definition grows (w w' : World) (new : list Event) : Prop :=
  trace w' = (rev new ++ trace w)%list.

(** A run leaves the service as it is and only adds requests. *)
Definition later (w w' : World) : Prop :=
  service w' = service w /\ (sent w <= sent w')%nat.

(** ** Provisioning *)

(** What the backoff policy shows of a run: the attempts started, the
    attempts that failed, and the pauses. *)
Inductive Mark : Type :=
| Tried
| FailedTry
| Paused (seconds : Q).

Definition mark (e : Event) : list Mark :=
  match e with
  | Sent verb url =>
      if (String.eqb verb "GET" && String.eqb url (api "/domains"))%bool
      then [Tried] else []
  | Logged ERROR _ => [FailedTry]
  | Slept seconds => [Paused seconds]
  | _ => []
  end.

Definition marks (events : list Event) : list Mark := flat_map mark events.

(** Three attempts, a pause of 2^0 = 1 second after the first failure
    and of 2^1 = 2 seconds after the second, none after the third. *)
Definition backoff_schedule : list Mark :=
  [Tried; FailedTry; Paused (inject_Z 1);
   Tried; FailedTry; Paused (inject_Z 2);
   Tried; FailedTry].

(** What one attempt adds to the run. *)
Definition attempt_marks (attempt : Z) (f : flow (option string * option string))
  : list Mark :=
  match f with
  | Return _ | Break => [Tried]
  | Continue =>
      Tried :: FailedTry
        :: (if attempt <? retries - 1
            then [Paused (inject_Z (2 ^ attempt))] else [])
  end.

(** The attempts a run started. *)
Definition attempts (events : list Event) : nat :=
  List.length (filter (fun m => match m with Tried => true | _ => false end)
                      (marks events)).

(** ** Refused and served attempts *)

(** The provisioning attempt that starts with request [n] fails at
    one of its three requests, whatever address and password it asks
    for, and the next request is number [n']: the domain list is
    refused; or domains are listed and the account is refused; or the
    account is accepted and the token is refused. *)
Definition attempt_refused (s : Service) (n n' : nat) : Prop :=
  (exists why, list_domains s n = Refused why /\ n' = S n)
  \/ (exists offered,
         list_domains s n = Served offered /\ offered <> []
         /\ (((forall address password,
                  exists why,
                    create_account s (S n) address password = Refused why)
              /\ n' = S (S n))
             \/ ((forall address password,
                     create_account s (S n) address password = Served tt)
                 /\ (forall address password,
                        exists why,
                          issue_token s (S (S n)) address password
                          = Refused why)
                 /\ n' = S (S (S n))))).

(** The attempt that starts with request [n] is served at each of its
    three requests, whatever address and password it asks for. *)
Definition attempt_served (s : Service) (n : nat) : Prop :=
  exists offered,
    list_domains s n = Served offered /\ offered <> []
    /\ (forall address password,
           create_account s (S n) address password = Served tt)
    /\ (forall address password,
           exists token,
             issue_token s (S (S n)) address password = Served token).

(** [k] attempts in a row that are refused, the first starting with
    request [n], the next request after them being number [n']. *)
Inductive refused_attempts (s : Service) : nat -> nat -> nat -> Prop :=
| no_attempt (n : nat) : refused_attempts s 0 n n
| one_more_attempt (k n n1 n' : nat) :
    attempt_refused s n n1 -> refused_attempts s k n1 n' ->
    refused_attempts s (S k) n n'.

(** ** Polling *)

(** What the polling policy shows of a run: the polls and the pauses. *)
Inductive PollMark : Type :=
| Polled
| Napped (seconds : Q).

Definition poll_mark (e : Event) : list PollMark :=
  match e with
  | Sent verb url =>
      if (String.eqb verb "GET" && String.eqb url (api "/messages"))%bool
      then [Polled] else []
  | Slept seconds => [Napped seconds]
  | _ => []
  end.

Definition poll_marks (events : list Event) : list PollMark :=
  flat_map poll_mark events.


Section Matching.
Variable re_search : string -> string -> searched.
Variables token code_pattern link_pattern : string.







End Matching.

(** ** Export and the shell *)

(** The names a record contributes to the flattened record: each
    string field by its key, each member of a dict field by
    [key_member]. *)
Definition flat_key (identity : Identity) (k : string) : Prop :=
  (exists value, In (k, Str value) identity)
  \/ (exists field members sub value,
         In (field, Sub members) identity
         /\ In (sub, value) members
         /\ k = field ++ "_" ++ sub).

(** The name [save_identity] gives the CSV file it writes from [w]. *)
Definition csv_name (w : World) : string :=
  "data/identities_" ++ file_stamp (wallclock w (glanced w)) ++ ".csv".

(** The name it gives a file of another format. *)
Definition dump_name (output_format : string) (w : World) : string :=
  "data/identities_" ++ file_stamp (wallclock w (glanced w)) ++ "."
    ++ output_format.

(** The columns of the flattened record of a generated identity. *)
Definition generated_columns : list string :=
  ["first_name"; "last_name"; "full_name"; "email"; "phone";
   "address_street"; "address_city"; "address_state"; "address_country";
   "username"; "birthdate"; "password"; "created"].

(** The diagnostics with which [generate] refuses its arguments. *)
Definition diagnostics : list string :=
  ["Error: Count must be positive";
   "Error: Invalid age range (min_age >=0, min_age <= max_age <=120)";
   "Error: Cannot use both --use-temp-email and --manual-email";
   "Error: Encryption is not supported for CSV format"].

(** ** Runs that stay inside the process *)

(** Nothing was sent, printed, logged or written between [w] and [w']:
    only the random source and the clock have advanced. *)
Definition quiet (w w' : World) : Prop :=
  service w' = service w /\ sent w' = sent w
  /\ trace w' = trace w /\ disk w' = disk w.

(** A computation that is quiet from every world, however it ends. *)
Definition Quiet {A} (c : IO A) : Prop :=
  forall w r w', c w = (r, w') -> quiet w w'.

(** Every character of [s] is one of [alphabet]. *)
Definition drawn_from (alphabet s : string) : Prop :=
  Forall (fun c => In c (chars alphabet)) (chars s).

(** ** Templates *)

(** [phone] fills [template]: each [#] gives way to a digit, every
    other character stays where it is. *)
Fixpoint fills (template phone : string) : Prop :=
  match template, phone with
  | EmptyString, EmptyString => True
  | String t template', String p phone' =>
      (if Ascii.eqb t "#" then In p (chars digits) else p = t)
      /\ fills template' phone'
  | _, _ => False
  end.

(** A computation after which the service is as it was and the
    request counter has not gone back, however it ends. *)
Definition Later {A} (c : IO A) : Prop :=
  forall w r w', c w = (r, w') -> later w w'.

(** The mailbox [create_mailbox] returns: its address is made of ten
    random characters and a domain the service offered, and the
    service accepted the account and issued the token for that address
    and one password. *)
Definition mailbox_of (s : Service) (n : nat)
    (r : option string * option string) : Prop :=
  exists username domain password offered,
    r = (Some (username ++ "@" ++ domain), snd r)
    /\ String.length username = 10%nat
    /\ drawn_from (ascii_lowercase ++ digits) username
    /\ String.length password = 12%nat
    /\ list_domains s n = Served offered
    /\ In domain offered
    /\ create_account s (S n) (username ++ "@" ++ domain) password = Served tt
    /\ issue_token s (S (S n)) (username ++ "@" ++ domain) password
       = Served (snd r).

(** ** Configuration *)

Definition all_tables : list Config.TableId :=
  [Config.FirstNames; Config.LastNames; Config.Domains; Config.Streets;
   Config.Addresses; Config.PhoneFormats].

(** The warning for table [t] when its file decodes to a value that
    fails the shape check. *)
Definition failed_check (dir : Config.ConfigDir) (t : Config.TableId)
  : list Config.Warning :=
  match dir t with
  | Config.Holds v =>
      match Config.check t v with
      | Ok false => [Config.ValidationFailed t]
      | _ => []
      end
  | _ => []
  end.

(** A value the [in] operator works on. *)
Definition container (v : Config.json) : bool :=
  (Config.is_dict v || Config.is_list v || Config.is_str v)%bool.

(** ** Rows of a CSV file *)

(** Every field of the row is a column of the file. *)
Definition fits (fieldnames : list string) (row : dict string) : Prop :=
  forall k, In k (keys row) -> In k fieldnames.

(** The cells of a row under the columns [fieldnames]: the field's
    value, or the empty string where the row has no such field. *)
Definition cells_of (fieldnames : list string) (row : dict string)
  : list string :=
  map (fun k => match dict_get row k with Some v => v | None => "" end)
      fieldnames.

(** The rows [save_identity] writes for [identities] under the header
    of [first]. *)
Definition csv_rows (first : Identity) (identities : list Identity)
  : list (list string) :=
  map (fun identity => cells_of (keys (flatten first)) (flatten identity))
      identities.

(** ** Batches and the shell *)

(** The record [generate_batch_identities] keeps of [identity] when
    the fields [fields] are asked for. *)
Definition projection (identity : Identity) (fields : list string)
  : Identity :=
  fold_left (project_field identity) fields [].

(** The value a requested field takes, if any. *)
Definition requested (identity : Identity) (field : string) : option Value :=
  match dict_get identity field with
  | Some v => Some v
  | None =>
      if existsb (String.eqb field) address_fields then
        match dict_get identity "address" with
        | Some (Sub address) =>
            match dict_get address (nth 1 (split_underscore field "") "") with
            | Some v => Some (Str v)
            | None => None
            end
        | _ => None
        end
      else None
  end.

(** The address fields and the member of the address each one names. *)
Definition address_members : list (string * string) :=
  [("address_street", "street"); ("address_city", "city");
   ("address_state", "state"); ("address_country", "country")].

Definition is_stop (command : Command) : bool :=
  match command with StopCmd => true | _ => false end.

(** [args.fields = None] *)
Definition without_fields (args : GenerateArgs) : GenerateArgs := {|
  save := save args; save_log := save_log args; country := country args;
  gender := gender args; format := format args; count := count args;
  fields := None; no_preview := no_preview args; min_age := min_age args;
  max_age := max_age args; use_temp_email := use_temp_email args;
  manual_email := manual_email args; encrypt := encrypt args
|}.

(** * Properties *)

(** ** Reasoning about computations *)

Lemma bind_ok {S A B} (c : M S A) (k : A -> M S B) s a s' :
  c s = (Ok a, s') -> bind c k s = k a s'.
Proof. intros H. unfold bind. now rewrite H. Qed.

Lemma bind_raise {S A B} (c : M S A) (k : A -> M S B) s e s' :
  c s = (Raise e, s') -> bind c k s = (Raise e, s').
Proof. intros H. unfold bind. now rewrite H. Qed.

Lemma bind_inv_ok {S A B} (c : M S A) (k : A -> M S B) s b s'' :
  bind c k s = (Ok b, s'') ->
  exists a s', c s = (Ok a, s') /\ k a s' = (Ok b, s'').
Proof.
  unfold bind. destruct (c s) as [[a | e] s'] eqn:E; intros H.
  - now exists a, s'.
  - discriminate.
Qed.

Lemma bind_assoc {S A B C} (c : M S A) (k : A -> M S B) (k' : B -> M S C) s :
  bind (bind c k) k' s = bind c (fun a => bind (k a) k') s.
Proof.
  unfold bind. destruct (c s) as [[a | e] s']; reflexivity.
Qed.

(** ** Configuration loading *)

Section ConfigFacts.
Import Config.
Variable dir : ConfigDir.

(** A file that decodes and can be checked is assigned, with a warning
    when the check fails, and loading goes on. *)
Lemma load_holds t v ok s :
  dir t = Holds v -> check t v = Ok ok ->
  load dir t s =
    (Ok tt, {| tables := set_table t v (tables s);
               warnings := if ok then warnings s
                           else (warnings s ++ [ValidationFailed t])%list |}).
Proof.
  intros Hd Hc. unfold load, read_json, bind, assign, lift, modify, ret, warn.
  rewrite Hd, Hc. destruct ok; reflexivity.
Qed.



End ConfigFacts.

(** Tables of the generators' shape are read back as they are. *)
Lemma strings_of_jstrings l :
  Config.strings_of (map Config.JStr l) = Some l.
Proof.
  induction l as [| s rest IH]; simpl; [ reflexivity | now rewrite IH ].
Qed.

Lemma as_table_jtable d : Config.as_table (Config.jtable d) = Some d.
Proof.
  unfold Config.as_table, Config.jtable.
  induction d as [| [k l] rest IH]; simpl; [ reflexivity | ].
  now rewrite strings_of_jstrings, IH.
Qed.

Lemma as_formats_jformats d : Config.as_formats (Config.jformats d) = Some d.
Proof.
  unfold Config.as_formats, Config.jformats.
  induction d as [| [k f] rest IH]; simpl; [ reflexivity | now rewrite IH ].
Qed.

Lemma shape_raw g :
  state_maps g = state_maps fallback -> Config.shape (Config.raw g) = Some g.
Proof.
  intros H. unfold Config.shape, Config.raw.
  cbn [Config.loaded_first_names Config.loaded_last_names Config.loaded_domains
       Config.loaded_streets Config.loaded_addresses
       Config.loaded_phone_formats].
  rewrite !as_table_jtable, as_formats_jformats.
  unfold Config.as_strings, Config.jstrings. rewrite strings_of_jstrings.
  destruct g. simpl in *. now subst.
Qed.

Ltac load_next dir H :=
  match goal with
  | |- context [Config.load dir ?t ?s] =>
      let v := fresh "v" in
      let Hd := fresh "Hd" in
      let Hc := fresh "Hc" in
      destruct (H t) as [v [Hd Hc]];
      [ simpl; lia
      | rewrite (load_holds dir t v true s Hd Hc) ]
  end.




(** A table that fails its shape check stays in use: the warning says
    "using fallbacks", the assignment is not undone. *)
Lemma init_keeps_table_that_failed_check :
  exists l,
    Config.init short_first_names
    = (Ok l, [Config.ValidationFailed Config.FirstNames])
    /\ Config.table l Config.FirstNames = Config.jtable [("male", ["Bob"])]
    /\ Config.check Config.FirstNames (Config.table l Config.FirstNames)
       = Ok false.
Proof. eexists. repeat split. Qed.

(** A [first_names.json] that holds a number makes the constructor
    raise: [TypeError] is not among the exceptions it catches. *)
Lemma init_faults_on_scalar_first_names :
  Config.init number_first_names = (Raise TypeError, []).
Proof. reflexivity. Qed.

(** ** The random source *)

Lemma randbelow_ok n w :
  0 < n ->
  randbelow n w = (Ok (entropy w (drawn w) mod n), with_drawn (S (drawn w)) w)
  /\ 0 <= entropy w (drawn w) mod n < n.
Proof.
  intros Hn. unfold randbelow.
  destruct (Z.leb_spec n 0); [ lia | ].
  split; [ reflexivity | apply Z.mod_pos_bound; lia ].
Qed.

Lemma choice_ok {A} (seq : list A) w :
  seq <> [] ->
  exists x, choice seq w = (Ok x, with_drawn (S (drawn w)) w) /\ In x seq.
Proof.
  destruct seq as [| a rest]; [ congruence | intros _ ].
  unfold choice.
  destruct (randbelow_ok (Z.of_nat (List.length (a :: rest))) w) as [Hr Hb].
  { simpl List.length. lia. }
  rewrite (bind_ok _ _ _ _ _ Hr). unfold ret.
  eexists. split; [ reflexivity | ].
  apply nth_In. lia.
Qed.

(** Run the draw at the head of the goal's computation. *)
Ltac run_choice x Hin :=
  match goal with
  | |- context [bind (choice ?seq) ?k ?w0] =>
      let Hc := fresh "Hc" in
      destruct (choice_ok seq w0 ltac:(assumption)) as [x [Hc Hin]];
      rewrite (bind_ok _ _ _ _ _ Hc); clear Hc
  end.

Ltac run_randbelow :=
  match goal with
  | |- context [bind (randbelow ?n) ?k ?w0] =>
      let Hr := fresh "Hr" in
      let Hb := fresh "Hb" in
      destruct (randbelow_ok n w0 ltac:(lia)) as [Hr Hb];
      rewrite (bind_ok _ _ _ _ _ Hr); clear Hr
  end.

(** ** Tables *)

Lemma dict_has_get {V} (d : dict V) k :
  dict_has d k = true <-> exists v, dict_get d k = Some v.
Proof.
  induction d as [| [k' v'] rest IH]; simpl.
  - split; [ discriminate | intros [v H]; discriminate ].
  - destruct (String.eqb k k'); [ | exact IH ].
    split; [ intros _; now exists v' | reflexivity ].
Qed.

Lemma dict_has_none {V} (d : dict V) k :
  dict_has d k = false <-> dict_get d k = None.
Proof.
  induction d as [| [k' v'] rest IH]; simpl.
  - split; reflexivity.
  - destruct (String.eqb k k'); [ | exact IH ].
    split; discriminate.
Qed.

Lemma dict_get_in_values {V} (d : dict V) k v :
  dict_get d k = Some v -> In v (values d).
Proof.
  induction d as [| [k' v'] rest IH]; simpl; [ discriminate | ].
  destruct (String.eqb k k').
  - intros H. injection H as ->. now left.
  - intros H. right. now apply IH.
Qed.

Lemma nonempty_true {A} (l : list A) : nonempty l = true -> l <> [].
Proof. destruct l; [ discriminate | intros _ H; discriminate ]. Qed.

Lemma get_or_stocked d key fallback_key :
  stocked_table d fallback_key = true ->
  exists l, get_or d key fallback_key = Ok l
            /\ selected d key fallback_key = Some l
            /\ l <> [].
Proof.
  unfold stocked_table. intros H. apply andb_prop in H as [Hk Hall].
  apply dict_has_get in Hk as [dflt Hd].
  unfold get_or, dict_index, selected. rewrite Hd.
  rewrite forallb_forall in Hall.
  destruct (dict_get d key) as [l |] eqn:E.
  - exists l. repeat split. apply nonempty_true, Hall.
    eapply dict_get_in_values; eauto.
  - exists dflt. repeat split; auto. apply nonempty_true, Hall.
    eapply dict_get_in_values; eauto.
Qed.

(** ** Addresses *)

(** With stocked tables [generate_address] returns: the state is drawn
    from the list looked up for the country, the city from the list
    looked up for the state. *)
Lemma generate_address_runs self country w :
  address_stocked self = true ->
  exists number street city state states cities w',
    generate_address self country w
    = (Ok [("street", str_of_Z number ++ " " ++ street);
           ("city", city);
           ("state", state);
           ("country",
            if dict_has (state_maps self) country then country else "US")],
       w')
    /\ get_or (state_maps self)
              (if dict_has (state_maps self) country then country else "US")
              "US" = Ok states
    /\ In state states
    /\ get_or (addresses self) state "CA" = Ok cities
    /\ In city cities.
Proof.
  intros H.
  unfold address_stocked in H.
  apply andb_prop in H as [H Haddr]. apply andb_prop in H as [Hstates Hstreets].
  unfold generate_address.
  set (resolved := if dict_has (state_maps self) country then country else "US").
  destruct (get_or_stocked _ resolved "US" Hstates) as [states [Hg [_ Hne]]].
  unfold lift at 1. unfold bind at 1. rewrite Hg.
  run_choice state Hin.
  destruct (get_or_stocked _ resolved "US" Hstreets) as [names [Hg2 [_ Hne2]]].
  unfold lift at 1. unfold bind at 1. rewrite Hg2.
  run_choice street Hin2.
  destruct (get_or_stocked _ state "CA" Haddr) as [cities [Hg3 [_ Hne3]]].
  unfold lift at 1. unfold bind at 1. rewrite Hg3.
  run_choice city Hin3.
  run_randbelow. unfold ret.
  eexists. exists street, city, state, states, cities. eexists.
  split; [ reflexivity | ]. repeat split; auto.
Qed.

(** What [get_or] returns is what [selected] names. *)
Lemma get_or_selected {V} (d : dict V) key fallback_key v :
  get_or d key fallback_key = Ok v -> selected d key fallback_key = Some v.
Proof.
  unfold get_or, dict_index, selected.
  destruct (dict_get d fallback_key) as [dflt |]; [ | discriminate ].
  destruct (dict_get d key); congruence.
Qed.

(** C3, as amended.  With stocked tables, [generate_address] returns,
    for every country, a record whose country is the given one when
    [state_maps] knows it and "US" otherwise, whose state is an element
    of that country's state list, and whose city is an element of the
    city list of the chosen state when [addresses] has one, and of the
    city list of "CA" when it has none. *)
Theorem generate_address_draws_from_tables :
  forall (self : Generator) (country : string) (w : World),
    address_stocked self = true ->
    exists number street city state states cities w',
      generate_address self country w
      = (Ok [("street", str_of_Z number ++ " " ++ street);
             ("city", city);
             ("state", state);
             ("country",
              if dict_has (state_maps self) country then country else "US")],
         w')
      /\ dict_get (state_maps self)
                  (if dict_has (state_maps self) country then country else "US")
         = Some states
      /\ In state states
      /\ selected (addresses self) state "CA" = Some cities
      /\ In city cities.
Proof.
  intros self country w H.
  destruct (generate_address_runs self country w H)
    as [number [street [city [state [states [cities [w'
          [R [Hstates [Hin [Hcities Hin']]]]]]]]]]].
  exists number, street, city, state, states, cities, w'.
  split; [ exact R | ]. split; [ | split; [ exact Hin | split; [ | exact Hin' ] ] ].
  - apply get_or_selected in Hstates. unfold selected in Hstates.
    revert Hstates.
    destruct (dict_has (state_maps self) country) eqn:E; intros Hsel.
    + apply dict_has_get in E as [v Hv]. rewrite Hv in Hsel. congruence.
    + destruct (dict_get (state_maps self) "US"); exact Hsel.
  - now apply get_or_selected.
Qed.

(** Witness for C3: the built-in tables and a country they do not know. *)
Lemma generate_address_draws_from_tables_witness :
  exists number street city state states cities w',
    generate_address fallback "fr" (fresh offline (fun _ => 5))
    = (Ok [("street", str_of_Z number ++ " " ++ street);
           ("city", city);
           ("state", state);
           ("country",
            if dict_has (state_maps fallback) "fr" then "fr" else "US")],
       w')
    /\ dict_get (state_maps fallback)
                (if dict_has (state_maps fallback) "fr" then "fr" else "US")
       = Some states
    /\ In state states
    /\ selected (addresses fallback) state "CA" = Some cities
    /\ In city cities.
Proof.
  apply (generate_address_draws_from_tables
           fallback "fr" (fresh offline (fun _ => 5))).
  reflexivity.
Defined.

(** C3, counterexample to the claim as stated.  With the built-in
    tables, country "US" and a random source that picks the third
    state, the state is "TX" and the city is "San Francisco": "TX" has
    no city list, so the city comes from the list of "CA". *)
Lemma generate_address_city_outside_chosen_state :
  fst (generate_address fallback "US" (fresh offline (fun _ => 2)))
  = Ok [("street", "2 Main St"); ("city", "San Francisco");
        ("state", "TX"); ("country", "US")]
  /\ dict_get (addresses fallback) "TX" = None
  /\ ~ (exists cities, dict_get (addresses fallback) "TX" = Some cities
                       /\ In "San Francisco" cities).
Proof.
  split; [ reflexivity | ]. split; [ reflexivity | ].
  intros [cities [H _]]. discriminate.
Qed.

(** ** Birth dates *)

Lemma generate_birthdate_in_range min_age max_age w :
  min_age <= max_age ->
  exists y m d w',
    generate_birthdate min_age max_age w
    = (Ok (str_of_Z y ++ "-" ++ zfill 2 m ++ "-" ++ zfill 2 d), w')
    /\ year (wallclock w (glanced w)) - max_age <= y
       <= year (wallclock w (glanced w)) - min_age
    /\ 1 <= m <= 12
    /\ 1 <= d <= 28.
Proof.
  intros Hle. unfold generate_birthdate.
  unfold bind at 1. unfold now at 1.
  set (cy := year (wallclock w (glanced w))).
  run_randbelow. run_randbelow. run_randbelow. unfold ret.
  do 4 eexists. split; [ reflexivity | ]. lia.
Qed.

(** C8.  For all age bounds with [0 <= min_age <= max_age <= 120],
    [generate_birthdate] returns the text [year-month-day] of a date
    whose year lies between the current year minus [max_age] and the
    current year minus [min_age], whose month is between 1 and 12 and
    whose day is between 1 and 28. *)
Theorem generate_birthdate_bounds :
  forall (min_age max_age : Z) (w : World),
    0 <= min_age -> min_age <= max_age -> max_age <= 120 ->
    exists y m d w',
      generate_birthdate min_age max_age w
      = (Ok (str_of_Z y ++ "-" ++ zfill 2 m ++ "-" ++ zfill 2 d), w')
      /\ year (wallclock w (glanced w)) - max_age <= y
         <= year (wallclock w (glanced w)) - min_age
      /\ 1 <= m <= 12
      /\ 1 <= d <= 28.
Proof.
  intros min_age max_age w _ Hle _. now apply generate_birthdate_in_range.
Qed.

(** Witness for C8: the default age range of the shell. *)
Lemma generate_birthdate_bounds_witness :
  exists y m d w',
    generate_birthdate 18 65 (fresh offline (fun n => Z.of_nat n + 40))
    = (Ok (str_of_Z y ++ "-" ++ zfill 2 m ++ "-" ++ zfill 2 d), w')
    /\ year (wallclock (fresh offline (fun n => Z.of_nat n + 40)) 0) - 65 <= y
       <= year (wallclock (fresh offline (fun n => Z.of_nat n + 40)) 0) - 18
    /\ 1 <= m <= 12
    /\ 1 <= d <= 28.
Proof.
  apply (generate_birthdate_bounds
           18 65 (fresh offline (fun n => Z.of_nat n + 40))); lia.
Defined.

(** ** Email addresses *)

Lemma short_decimal n :
  0 <= n < 1000 -> (1 <= String.length (str_of_Z n) <= 3)%nat.
Proof.
  intros H.
  assert (Hall : forallb (fun k =>
                            let l := String.length (str_of_Z (Z.of_nat k)) in
                            (Nat.leb 1 l && Nat.leb l 3)%bool)
                         (seq 0 1000) = true) by (vm_compute; reflexivity).
  rewrite forallb_forall in Hall.
  specialize (Hall (Z.to_nat n)). rewrite Z2Nat.id in Hall by lia.
  assert (Hin : In (Z.to_nat n) (seq 0 1000)) by (apply in_seq; lia).
  apply Hall in Hin. cbv beta zeta in Hin. apply andb_prop in Hin as [H1 H2].
  apply Nat.leb_le in H1. apply Nat.leb_le in H2. lia.
Qed.

(** With a non-empty domain list [generate_email] returns. *)
Lemma generate_email_runs self first_name last_name country w :
  domains self <> [] ->
  exists n domain w',
    generate_email self first_name last_name country w
    = (Ok ((lower first_name ++ "." ++ lower last_name ++ str_of_Z n)
             ++ "@" ++ domain), w')
    /\ 0 <= n < 1000
    /\ In domain (domains self).
Proof.
  intros Hne. unfold generate_email.
  run_choice domain Hin. run_randbelow. unfold ret.
  do 3 eexists. split; [ reflexivity | ]. split; [ exact Hb | exact Hin ].
Qed.

(** C9, as amended.  With a non-empty domain list, [generate_email]
    returns, for every first name, last name and country, the
    lower-cased first name, a dot, the lower-cased last name, the
    decimal digits of a number below 1000 (one to three digits, not
    padded), [@], and a domain drawn from the domain list and used as
    it is written there. *)
Theorem generate_email_form :
  forall (self : Generator) (first_name last_name country : string) (w : World),
    domains self <> [] ->
    exists n domain w',
      generate_email self first_name last_name country w
      = (Ok ((lower first_name ++ "." ++ lower last_name ++ str_of_Z n)
               ++ "@" ++ domain), w')
      /\ 0 <= n < 1000
      /\ (1 <= String.length (str_of_Z n) <= 3)%nat
      /\ In domain (domains self).
Proof.
  intros self first_name last_name country w Hne.
  destruct (generate_email_runs self first_name last_name country w Hne)
    as [n [domain [w' [R [Hn Hin]]]]].
  exists n, domain, w'. split; [ exact R | ].
  split; [ exact Hn | ]. split; [ now apply short_decimal | exact Hin ].
Qed.

(** Witness for C9: the built-in domain list. *)
Lemma generate_email_form_witness :
  exists n domain w',
    generate_email fallback "John" "Smith" "US" (fresh offline (fun _ => 7))
    = (Ok ((lower "John" ++ "." ++ lower "Smith" ++ str_of_Z n)
             ++ "@" ++ domain), w')
    /\ 0 <= n < 1000
    /\ (1 <= String.length (str_of_Z n) <= 3)%nat
    /\ In domain (domains fallback).
Proof.
  apply (generate_email_form fallback "John" "Smith" "US"
                             (fresh offline (fun _ => 7))).
  discriminate.
Defined.

(** C9, counterexample to the claim as stated.  With one configured
    domain [Mail.Example.COM] and a random source that always answers
    7, the address is [john.smith7@Mail.Example.COM]: it is not
    lower-cased throughout, and the number has one digit, so it is not
    the lower-cased [John.Smith], three digits, [@] and a domain. *)
Lemma generate_email_not_as_claimed :
  fst (generate_email capital_domain "John" "Smith" "US"
                      (fresh offline (fun _ => 7)))
  = Ok "john.smith7@Mail.Example.COM"
  /\ lower "john.smith7@Mail.Example.COM" <> "john.smith7@Mail.Example.COM"
  /\ ~ (exists a b c domain,
           is_digit a = true /\ is_digit b = true /\ is_digit c = true
           /\ In domain (domains capital_domain)
           /\ "john.smith7@Mail.Example.COM"
              = lower ("John" ++ "." ++ "Smith"
                         ++ String a (String b (String c "")) ++ "@" ++ domain)).
Proof.
  split; [ reflexivity | ]. split; [ discriminate | ].
  intros [a [b [c [domain [_ [Hb [_ [_ H]]]]]]]].
  simpl in H. injection H as _ Hb' _.
  destruct b as [[] [] [] [] [] [] [] []]; simpl in Hb; try discriminate;
    vm_compute in Hb'; discriminate.
Qed.

(** The same with the built-in tables: [john.smith7@test.org]. *)
Lemma generate_email_number_not_three_digits :
  fst (generate_email fallback "John" "Smith" "US" (fresh offline (fun _ => 7)))
  = Ok "john.smith7@test.org"
  /\ String.length "john.smith7@test.org"
     <> String.length ("john.smith" ++ "000" ++ "@test.org").
Proof. split; [ reflexivity | discriminate ]. Qed.

(** ** Provisioning: attempts and backoff *)

Lemma with_drawn_twice j k w : with_drawn k (with_drawn j w) = with_drawn k w.
Proof. reflexivity. Qed.

(** Drawing characters only advances the random source. *)
Lemma random_chars_total alphabet n w :
  chars alphabet <> [] ->
  exists s k, random_chars alphabet n w = (Ok s, with_drawn k w).
Proof.
  intros Hne. revert w. induction n as [| n IH]; intros w; simpl.
  - exists "", (drawn w). unfold ret. now destruct w.
  - destruct (choice_ok (chars alphabet) w Hne) as [c [Hc _]].
    rewrite (bind_ok _ _ _ _ _ Hc).
    destruct (IH (with_drawn (S (drawn w)) w)) as [s [k Hs]].
    rewrite (bind_ok _ _ _ _ _ Hs). unfold ret.
    now exists (String c s), k.
Qed.

Lemma grows_trans w w1 w2 n1 n2 :
  grows w w1 n1 -> grows w1 w2 n2 -> grows w w2 (n1 ++ n2).
Proof.
  unfold grows. intros H1 H2. rewrite H2, H1, rev_app_distr.
  now rewrite app_assoc.
Qed.

Lemma marks_app a b : marks (a ++ b) = (marks a ++ marks b)%list.
Proof. apply flat_map_app. Qed.

Lemma sleep_runs seconds w :
  Qle_bool 0 seconds = true ->
  sleep seconds w = (Ok tt, with_trace (Slept seconds :: trace w) w).
Proof. intros H. unfold sleep. now rewrite H. Qed.

Lemma sleep_refuses seconds w :
  Qle_bool 0 seconds = false -> sleep seconds w = (Raise ValueError, w).
Proof. intros H. unfold sleep. now rewrite H. Qed.

(** A power of two is a length [time.sleep] accepts. *)
Lemma backoff_length attempt : Qle_bool 0 (inject_Z (2 ^ attempt)) = true.
Proof.
  unfold Qle_bool, inject_Z. cbn [Qnum Qden].
  apply Z.leb_le. change (Z.pos 1) with 1.
  rewrite Z.mul_0_l, Z.mul_1_r. apply Z.pow_nonneg. lia.
Qed.

Lemma back_off_runs attempt why w :
  exists w' new,
    back_off attempt why w = (Ok Continue, w')
    /\ grows w w' new
    /\ marks new = FailedTry :: (if attempt <? retries - 1
                                 then [Paused (inject_Z (2 ^ attempt))]
                                 else []).
Proof.
  unfold back_off, grows. unfold bind at 1. unfold log at 1, emit at 1.
  unfold modify at 1.
  destruct (attempt <? retries - 1).
  - unfold bind at 1. rewrite (sleep_runs _ _ (backoff_length attempt)).
    eexists.
    exists [Logged ERROR ("Mail.tm attempt " ++ str_of_Z (attempt + 1)
                            ++ " failed: " ++ why);
            Slept (inject_Z (2 ^ attempt))].
    repeat split.
  - eexists.
    exists [Logged ERROR ("Mail.tm attempt " ++ str_of_Z (attempt + 1)
                            ++ " failed: " ++ why)].
    repeat split.
Qed.

(** An attempt that raised [RequestException] after the events [sofar]. *)
Lemma attempt_backs_off attempt why w w1 sofar :
  grows w w1 sofar -> marks sofar = [Tried] ->
  exists f w' new,
    back_off attempt why w1 = (Ok f, w')
    /\ grows w w' new
    /\ marks new = attempt_marks attempt f.
Proof.
  intros Hg Hm.
  destruct (back_off_runs attempt why w1) as [w' [new [Hrun [Hg' Hm']]]].
  exists Continue, w', (sofar ++ new)%list.
  split; [ exact Hrun | ]. split; [ eapply grows_trans; eauto | ].
  rewrite marks_app, Hm, Hm'. reflexivity.
Qed.

Lemma provision_attempt_runs attempt w :
  exists f w' new,
    provision_attempt attempt w = (Ok f, w')
    /\ grows w w' new
    /\ marks new = attempt_marks attempt f.
Proof.
  unfold provision_attempt, try_except, create_mailbox.
  unfold bind at 1. unfold http at 1.
  set (w1 := with_sent (S (sent w))
               (with_trace (Sent "GET" (api "/domains") :: trace w) w)).
  assert (G1 : grows w w1 [Sent "GET" (api "/domains")]) by reflexivity.
  destruct (list_domains (service w) (sent w)) as [why | available].
  - (* the domain list is refused *)
    cbn [on_provision_error]. eapply attempt_backs_off; eauto.
  - destruct available as [| d ds].
    + (* no domain on offer: break *)
      do 2 eexists.
      exists [Sent "GET" (api "/domains");
              Logged WARNING "No domains available from Mail.tm"].
      repeat split.
    + destruct (choice_ok (d :: ds) w1 ltac:(discriminate)) as [domain [Hc _]].
      rewrite (bind_ok _ _ _ _ _ Hc).
      destruct (random_chars_total (ascii_lowercase ++ digits) 10
                  (with_drawn (S (drawn w1)) w1) ltac:(discriminate))
        as [username [k1 Hu]].
      rewrite (bind_ok _ _ _ _ _ Hu). rewrite with_drawn_twice.
      destruct (random_chars_total (ascii_letters ++ digits ++ punctuation) 12
                  (with_drawn k1 w1) ltac:(discriminate))
        as [password [k2 Hp]].
      rewrite (bind_ok _ _ _ _ _ Hp). rewrite with_drawn_twice.
      unfold bind at 1. unfold http at 1.
      match goal with
      | |- context [create_account ?s ?n ?a ?p] =>
          destruct (create_account s n a p) as [why | []]
      end.
      * (* the account is refused *)
        cbn [on_provision_error].
        eapply attempt_backs_off with
          (sofar := [Sent "GET" (api "/domains"); Sent "POST" (api "/accounts")]);
          reflexivity.
      * unfold bind at 1. unfold http at 1.
        match goal with
        | |- context [issue_token ?s ?n ?a ?p] =>
            destruct (issue_token s n a p) as [why | token]
        end.
        -- (* the token is refused *)
           cbn [on_provision_error].
           eapply attempt_backs_off with
             (sofar := [Sent "GET" (api "/domains"); Sent "POST" (api "/accounts");
                        Sent "POST" (api "/token")]);
             reflexivity.
        -- (* the mailbox exists *)
           do 2 eexists.
           exists [Sent "GET" (api "/domains"); Sent "POST" (api "/accounts");
                   Sent "POST" (api "/token");
                   Logged INFO ("Created Mail.tm account: "
                                  ++ username ++ "@" ++ domain)].
           repeat split.
Qed.

Ltac next_attempt f w' new Hrun G Hm :=
  match goal with
  | |- context [bind (provision_attempt ?i) _ ?w0] =>
      destruct (provision_attempt_runs i w0) as [f [w' [new [Hrun [G Hm]]]]];
      rewrite (bind_ok _ _ _ _ _ Hrun); clear Hrun
  end.

Ltac loop_ends fails G :=
  eexists; eexists; eexists; exists fails;
  split; [ reflexivity | ];
  split; [ exact G | ];
  split; [ lia | ].

(** The retry loop: [fails] attempts fail, each but the third followed
    by its pause, and unless all three failed one more attempt ends the
    loop (by returning a mailbox, or by finding no domain on offer). *)
Lemma provision_loop_runs w :
  exists o w' new fails,
    for_range provision_attempt 0 (Z.to_nat retries) w = (Ok o, w')
    /\ grows w w' new
    /\ (fails <= 3)%nat
    /\ marks new
       = firstn (if Nat.eqb fails 3 then 8 else 3 * fails + 1) backoff_schedule
    /\ (fails = 3%nat -> o = None).
Proof.
  change (Z.to_nat retries) with 3%nat. cbn [for_range].
  next_attempt f0 w1 n0 R0 G0 M0.
  destruct f0; unfold ret;
    [ loop_ends 0%nat G0; split; [ exact M0 | discriminate ]
    | loop_ends 0%nat G0; split; [ exact M0 | discriminate ]
    | ].
  next_attempt f1 w2 n1 R1 G1 M1.
  pose proof (grows_trans _ _ _ _ _ G0 G1) as G01.
  assert (M01 : marks (n0 ++ n1)
                = ([Tried; FailedTry; Paused (inject_Z 1)]
                     ++ attempt_marks (0 + 1) f1)%list)
    by (rewrite marks_app, M0, M1; reflexivity).
  destruct f1; unfold ret;
    [ loop_ends 1%nat G01; split; [ exact M01 | discriminate ]
    | loop_ends 1%nat G01; split; [ exact M01 | discriminate ]
    | ].
  next_attempt f2 w3 n2 R2 G2 M2.
  pose proof (grows_trans _ _ _ _ _ G01 G2) as G012.
  assert (M012 : marks ((n0 ++ n1) ++ n2)
                 = ([Tried; FailedTry; Paused (inject_Z 1);
                     Tried; FailedTry; Paused (inject_Z 2)]
                      ++ attempt_marks (0 + 1 + 1) f2)%list)
    by (rewrite marks_app, M01, M2; reflexivity).
  destruct f2; unfold ret;
    [ loop_ends 2%nat G012; split; [ exact M012 | discriminate ]
    | loop_ends 2%nat G012; split; [ exact M012 | discriminate ]
    | loop_ends 3%nat G012; split; [ exact M012 | reflexivity ] ].
Qed.

(** [generate_temp_email] always returns, after at most three attempts
    spaced by the backoff schedule; when all three attempts failed it
    returns [(None, None)]. *)
Lemma generate_temp_email_runs w :
  exists r w' new fails,
    generate_temp_email w = (Ok r, w')
    /\ grows w w' new
    /\ (fails <= 3)%nat
    /\ marks new
       = firstn (if Nat.eqb fails 3 then 8 else 3 * fails + 1) backoff_schedule
    /\ (fails = 3%nat -> r = (None, None)).
Proof.
  destruct (provision_loop_runs w) as [o [w' [new [fails [R [G [Hle [Hm Hall]]]]]]]].
  unfold generate_temp_email. rewrite (bind_ok _ _ _ _ _ R).
  destruct o as [found |].
  - exists found, w', new, fails. repeat split; auto.
    intros H3. specialize (Hall H3). discriminate.
  - eexists. eexists.
    exists (new ++ [Printed ("Failed to create Mail.tm account after "
                               ++ str_of_Z retries ++ " attempts.")])%list, fails.
    split; [ reflexivity | ].
    split; [ eapply grows_trans; [ exact G | reflexivity ] | ].
    split; [ exact Hle | ].
    split; [ rewrite marks_app, Hm; apply app_nil_r | reflexivity ].
Qed.

(** ** The generators return *)

Lemma stocked_parts self :
  stocked self = true ->
  address_stocked self = true
  /\ stocked_table (first_names self) "neutral" = true
  /\ stocked_table (last_names self) "US" = true
  /\ domains self <> []
  /\ dict_has (phone_formats self) "US" = true.
Proof.
  unfold stocked. intros H.
  apply andb_prop in H as [H Hp]. apply andb_prop in H as [H Hd].
  apply andb_prop in H as [H Hl]. apply andb_prop in H as [Ha Hf].
  repeat split; auto. now apply nonempty_true.
Qed.

Lemma generate_name_total self gender country w :
  stocked self = true ->
  exists names w', generate_name self gender country w = (Ok names, w').
Proof.
  intros H. apply stocked_parts in H as [_ [Hf [Hl _]]].
  unfold generate_name.
  assert (Hg : exists g w1,
             (if String.eqb (if truthy gender then lower gender else "any") "any"
              then choice ["male"; "female"; "neutral"]
              else ret (if truthy gender then lower gender else "any")) w
             = (Ok g, w1)).
  { destruct (String.eqb _ "any").
    - destruct (choice_ok ["male"; "female"; "neutral"] w ltac:(discriminate))
        as [g [Hc _]]. eauto.
    - unfold ret. eauto. }
  destruct Hg as [g [w1 Hg]]. rewrite (bind_ok _ _ _ _ _ Hg).
  match goal with
  | |- context [get_or (first_names self) ?k "neutral"] =>
      destruct (get_or_stocked _ k "neutral" Hf) as [firsts [Hgf [_ Hnf]]]
  end.
  unfold lift at 1. unfold bind at 1. rewrite Hgf.
  run_choice first_name Hin1.
  match goal with
  | |- context [get_or (last_names self) ?k "US"] =>
      destruct (get_or_stocked _ k "US" Hl) as [lasts [Hgl [_ Hnl]]]
  end.
  unfold lift at 1. unfold bind at 1. rewrite Hgl.
  run_choice last_name Hin2.
  unfold ret. eauto.
Qed.

Lemma fill_format_total fmt w :
  exists s w', fill_format fmt w = (Ok s, w').
Proof.
  revert w. induction fmt as [| c rest IH]; intros w; simpl.
  - unfold ret. eauto.
  - assert (Hd : exists d w1,
               (if Ascii.eqb c "#" then choice (chars digits) else ret c) w
               = (Ok d, w1)).
    { destruct (Ascii.eqb c "#").
      - destruct (choice_ok (chars digits) w ltac:(discriminate)) as [d [Hc _]].
        eauto.
      - unfold ret. eauto. }
    destruct Hd as [d [w1 Hd]]. rewrite (bind_ok _ _ _ _ _ Hd).
    destruct (IH w1) as [s [w2 Hs]]. rewrite (bind_ok _ _ _ _ _ Hs).
    unfold ret. eauto.
Qed.

Lemma generate_phone_total self country w :
  dict_has (phone_formats self) "US" = true ->
  exists phone w', generate_phone self country w = (Ok phone, w').
Proof.
  intros H. apply dict_has_get in H as [dflt Hd].
  unfold generate_phone, get_or, dict_index, lift. unfold bind at 1.
  rewrite Hd. destruct (dict_get (phone_formats self) country);
    apply fill_format_total.
Qed.

Lemma token_hex_total n w :
  exists s w', token_hex n w = (Ok s, w').
Proof.
  revert w. induction n as [| n IH]; intros w; simpl.
  - unfold ret. eauto.
  - run_randbelow.
    match goal with
    | |- context [bind (token_hex n) _ ?w0] =>
        destruct (IH w0) as [s [w2 Hs]]
    end.
    rewrite (bind_ok _ _ _ _ _ Hs). unfold ret. eauto.
Qed.

Lemma generate_username_total first_name last_name w :
  exists username w',
    generate_username first_name last_name w = (Ok username, w').
Proof.
  unfold generate_username.
  destruct (token_hex_total 2 w) as [suffix [w' R]].
  rewrite (bind_ok _ _ _ _ _ R). unfold ret. eauto.
Qed.

(** Run the generator at the head of the goal's computation with the
    totality fact [H] about it. *)
Ltac run_total H x w' :=
  let R := fresh "R" in
  destruct H as [x [w' R]]; rewrite (bind_ok _ _ _ _ _ R); clear R.

(** What [generate_identity] builds once the email is settled; [k] is
    what it does with the record. *)
Lemma identity_tail_total {B} (k : Identity -> IO B) self country first_name
      last_name email min_age max_age w :
  stocked self = true -> min_age <= max_age ->
  exists phone address username birthdate password created w',
    (phone <- generate_phone self country ;;
     address <- generate_address self country ;;
     username <- generate_username first_name last_name ;;
     birthdate <- generate_birthdate min_age max_age ;;
     password <- generate_password ;;
     t <- now ;;
     k [("first_name", Str first_name);
        ("last_name", Str last_name);
        ("full_name", Str (first_name ++ " " ++ last_name));
        ("email", Str email);
        ("phone", Str phone);
        ("address", Sub address);
        ("username", Str username);
        ("birthdate", Str birthdate);
        ("password", Str password);
        ("created", Str (created_stamp t))]) w
    = k [("first_name", Str first_name);
         ("last_name", Str last_name);
         ("full_name", Str (first_name ++ " " ++ last_name));
         ("email", Str email);
         ("phone", Str phone);
         ("address", Sub address);
         ("username", Str username);
         ("birthdate", Str birthdate);
         ("password", Str password);
         ("created", Str created)] w'
    /\ exists street city state resolved,
         address = [("street", street); ("city", city); ("state", state);
                    ("country", resolved)].
Proof.
  intros Hs Hle. pose proof (stocked_parts self Hs) as [Ha [_ [_ [_ Hp]]]].
  run_total (generate_phone_total self country w Hp) phone w1.
  destruct (generate_address_runs self country w1 Ha)
    as [number [street [city [state [states [cities [w2 [R _]]]]]]]].
  rewrite (bind_ok _ _ _ _ _ R). clear R.
  run_total (generate_username_total first_name last_name w2) username w3.
  destruct (generate_birthdate_in_range min_age max_age w3 Hle)
    as [y [m [d [w4 [R _]]]]].
  rewrite (bind_ok _ _ _ _ _ R). clear R.
  unfold generate_password.
  destruct (random_chars_total (ascii_letters ++ digits ++ punctuation) 12 w4
              ltac:(discriminate)) as [password [n R]].
  rewrite (bind_ok _ _ _ _ _ R). clear R.
  unfold bind, now.
  do 7 eexists. split; [ reflexivity | ]. do 4 eexists. reflexivity.
Qed.

(** ** Falling back to a generated address *)

(** When [generate_temp_email] hands back [(None, None)], the identity
    carries the address [generate_email] makes next, and no token. *)
Lemma generate_identity_falls_back self country gender min_age max_age
      w names w1 w2 :
  stocked self = true -> min_age <= max_age ->
  generate_name self gender country w = (Ok names, w1) ->
  generate_temp_email w1 = (Ok (None, None), w2) ->
  exists email w3 identity w',
    generate_email self (fst names) (snd names) country w2 = (Ok email, w3)
    /\ generate_identity self country gender true None min_age max_age w
       = (Ok identity, w')
    /\ dict_get identity "email" = Some (Str email)
    /\ dict_has identity "email_token" = false.
Proof.
  intros Hs Hle Hname Htemp.
  pose proof (stocked_parts self Hs) as [_ [_ [_ [Hd _]]]].
  destruct (generate_email_runs self (fst names) (snd names) country w2 Hd)
    as [n [domain [w3 [Hemail _]]]].
  unfold generate_identity. rewrite (bind_ok _ _ _ _ _ Hname). cbv zeta.
  assert (Hmail : choose_email self (fst names) (snd names) country true None w1
                  = (Ok ((lower (fst names) ++ "." ++ lower (snd names)
                            ++ str_of_Z n) ++ "@" ++ domain, None), w3)).
  { unfold choose_email. rewrite (bind_ok _ _ _ _ _ Htemp). cbn [fst truthy_opt].
    rewrite (bind_ok _ _ _ _ _ Hemail). reflexivity. }
  rewrite (bind_ok _ _ _ _ _ Hmail). cbn [fst snd].
  destruct (identity_tail_total (fun identity => ret identity) self country
              (fst names) (snd names)
              ((lower (fst names) ++ "." ++ lower (snd names) ++ str_of_Z n)
                 ++ "@" ++ domain) min_age max_age w3 Hs Hle)
    as [phone [address [username [birthdate [password [created [w' [R _]]]]]]]].
  do 4 eexists. split; [ exact Hemail | ].
  split; [ exact R | ]. split; reflexivity.
Qed.

(** What the [except] clause of attempt [attempt] leaves. *)
Lemma back_off_world attempt why w :
  back_off attempt why w
  = (Ok Continue,
     with_trace
       ((if attempt <? retries - 1
         then [Slept (inject_Z (2 ^ attempt))] else [])
          ++ Logged ERROR ("Mail.tm attempt " ++ str_of_Z (attempt + 1)
                             ++ " failed: " ++ why)
          :: trace w) w).
Proof.
  unfold back_off. unfold bind at 1. unfold log at 1, emit at 1.
  unfold modify at 1.
  destruct (attempt <? retries - 1).
  - unfold bind at 1. rewrite (sleep_runs _ _ (backoff_length attempt)).
    reflexivity.
  - destruct w; reflexivity.
Qed.

(** A refused attempt raises from the request that is refused. *)
Lemma create_mailbox_refused w n' :
  attempt_refused (service w) (sent w) n' ->
  exists why w1 new,
    create_mailbox w = (Raise (RequestException why), w1)
    /\ service w1 = service w
    /\ sent w1 = n'
    /\ grows w w1 new
    /\ marks new = [Tried].
Proof.
  intros H. unfold create_mailbox. unfold bind at 1. unfold http at 1.
  set (w1 := with_sent (S (sent w))
               (with_trace (Sent "GET" (api "/domains") :: trace w) w)).
  destruct H as [[why [L ->]] | [offered [L [Hne H]]]]; rewrite L.
  - exists why, w1, [Sent "GET" (api "/domains")]. repeat split.
  - destruct offered as [| d ds]; [ congruence | ].
    destruct (choice_ok (d :: ds) w1 ltac:(discriminate)) as [domain [Hc _]].
    rewrite (bind_ok _ _ _ _ _ Hc).
    destruct (random_chars_total (ascii_lowercase ++ digits) 10
                (with_drawn (S (drawn w1)) w1) ltac:(discriminate))
      as [username [k1 Hu]].
    rewrite (bind_ok _ _ _ _ _ Hu). rewrite with_drawn_twice.
    destruct (random_chars_total (ascii_letters ++ digits ++ punctuation) 12
                (with_drawn k1 w1) ltac:(discriminate))
      as [password [k2 Hp]].
    rewrite (bind_ok _ _ _ _ _ Hp). rewrite with_drawn_twice.
    unfold bind at 1. unfold http at 1. subst w1.
    cbn [service sent with_drawn with_sent with_trace].
    destruct H as [[Ha ->] | [Ha [Ht ->]]].
    + destruct (Ha (username ++ "@" ++ domain) password) as [why Hr].
      rewrite Hr. exists why. eexists.
      exists [Sent "GET" (api "/domains"); Sent "POST" (api "/accounts")].
      repeat split.
    + rewrite Ha. unfold bind at 1. unfold http at 1.
      cbn [service sent with_drawn with_sent with_trace].
      destruct (Ht (username ++ "@" ++ domain) password) as [why Hr].
      rewrite Hr. exists why. eexists.
      exists [Sent "GET" (api "/domains"); Sent "POST" (api "/accounts");
              Sent "POST" (api "/token")].
      repeat split.
Qed.

(** A refused attempt is logged, followed by its pause unless it is
    the last, and the loop goes on. *)
Lemma attempt_refused_runs attempt w n' :
  attempt_refused (service w) (sent w) n' ->
  exists w' new,
    provision_attempt attempt w = (Ok Continue, w')
    /\ service w' = service w
    /\ sent w' = n'
    /\ grows w w' new
    /\ marks new = attempt_marks attempt Continue.
Proof.
  intros H.
  destruct (create_mailbox_refused w n' H)
    as [why [w1 [new [R [Hs [Hn [G Hm]]]]]]].
  eexists.
  exists (new ++ Logged ERROR ("Mail.tm attempt " ++ str_of_Z (attempt + 1)
                                 ++ " failed: " ++ why)
              :: (if attempt <? retries - 1
                  then [Slept (inject_Z (2 ^ attempt))] else []))%list.
  split; [ | split; [ | split; [ | split ] ] ].
  - unfold provision_attempt, try_except. rewrite R.
    cbn [on_provision_error]. apply back_off_world.
  - exact Hs.
  - exact Hn.
  - unfold grows in *. cbn [trace with_trace]. rewrite G, rev_app_distr.
    cbn [rev]. destruct (attempt <? retries - 1); cbn [rev app];
      rewrite <- ?app_assoc; reflexivity.
  - rewrite marks_app, Hm. cbn [attempt_marks].
    destruct (attempt <? retries - 1); reflexivity.
Qed.

(** A served attempt returns the address it asked an account for and
    the token the service issued for it. *)
Lemma attempt_served_runs attempt w :
  attempt_served (service w) (sent w) ->
  exists email password token w' new,
    provision_attempt attempt w = (Ok (Return (Some email, token)), w')
    /\ create_account (service w) (S (sent w)) email password = Served tt
    /\ issue_token (service w) (S (S (sent w))) email password = Served token
    /\ grows w w' new
    /\ marks new = [Tried].
Proof.
  intros [offered [L [Hne [Ha Ht]]]].
  unfold provision_attempt, try_except, create_mailbox.
  unfold bind at 1. unfold http at 1. rewrite L.
  set (w1 := with_sent (S (sent w))
               (with_trace (Sent "GET" (api "/domains") :: trace w) w)).
  destruct offered as [| d ds]; [ congruence | ].
  destruct (choice_ok (d :: ds) w1 ltac:(discriminate)) as [domain [Hc _]].
  rewrite (bind_ok _ _ _ _ _ Hc).
  destruct (random_chars_total (ascii_lowercase ++ digits) 10
              (with_drawn (S (drawn w1)) w1) ltac:(discriminate))
    as [username [k1 Hu]].
  rewrite (bind_ok _ _ _ _ _ Hu). rewrite with_drawn_twice.
  destruct (random_chars_total (ascii_letters ++ digits ++ punctuation) 12
              (with_drawn k1 w1) ltac:(discriminate))
    as [password [k2 Hp]].
  rewrite (bind_ok _ _ _ _ _ Hp). rewrite with_drawn_twice.
  unfold bind at 1. unfold http at 1. subst w1.
  cbn [service sent with_drawn with_sent with_trace].
  rewrite Ha. unfold bind at 1. unfold http at 1.
  cbn [service sent with_drawn with_sent with_trace].
  destruct (Ht (username ++ "@" ++ domain) password) as [token Hr].
  rewrite Hr.
  exists (username ++ "@" ++ domain), password, token. eexists.
  exists [Sent "GET" (api "/domains"); Sent "POST" (api "/accounts");
          Sent "POST" (api "/token");
          Logged INFO ("Created Mail.tm account: "
                         ++ username ++ "@" ++ domain)].
  split; [ reflexivity | ]. split; [ apply Ha | ]. split; [ exact Hr | ].
  repeat split.
Qed.

(** One refused attempt moves the loop one turn on. *)
Lemma provisioning_step start more w n1 :
  attempt_refused (service w) (sent w) n1 ->
  exists w1 new,
    for_range provision_attempt start (S more) w
    = for_range provision_attempt (start + 1) more w1
    /\ service w1 = service w
    /\ sent w1 = n1
    /\ grows w w1 new
    /\ marks new = attempt_marks start Continue.
Proof.
  intros H.
  destruct (attempt_refused_runs start w n1 H)
    as [w1 [new [R [Hs [Hn [G Hm]]]]]].
  exists w1, new. split; [ | auto ].
  cbn [for_range]. now rewrite (bind_ok _ _ _ _ _ R).
Qed.

(** [k] refused attempts, at most three, leave the loop [k] turns on,
    having followed the schedule so far. *)
Lemma provisioning_refused k :
  forall w n more,
    (k + more = 3)%nat ->
    refused_attempts (service w) k (sent w) n ->
    exists w1 new,
      for_range provision_attempt 0 3 w
      = for_range provision_attempt (Z.of_nat k) more w1
      /\ service w1 = service w
      /\ sent w1 = n
      /\ grows w w1 new
      /\ marks new = firstn (if Nat.eqb k 3 then 8 else 3 * k) backoff_schedule.
Proof.
  intros w n more Hk H.
  destruct k as [| [| [| [| k]]]]; try lia.
  - inversion H; subst. replace more with 3%nat by lia.
    exists w, []. repeat split.
  - inversion H as [| ? ? n1 ? H1 Ha]; subst. inversion Ha; subst.
    replace more with 2%nat by lia.
    destruct (provisioning_step 0 2 w n H1) as [w1 [e1 [R1 [S1 [N1 [G1 M1]]]]]].
    exists w1, e1. repeat split; auto.
  - inversion H as [| ? ? n1 ? H1 Ha]; subst.
    inversion Ha as [| ? ? n2 ? H2 Hb]; subst. inversion Hb; subst.
    replace more with 1%nat by lia.
    destruct (provisioning_step 0 2 w n1 H1) as [w1 [e1 [R1 [S1 [N1 [G1 M1]]]]]].
    rewrite <- S1, <- N1 in H2.
    destruct (provisioning_step (0 + 1) 1 w1 n H2)
      as [w2 [e2 [R2 [S2 [N2 [G2 M2]]]]]].
    exists w2, (e1 ++ e2)%list.
    split; [ now rewrite R1, R2 | ]. split; [ congruence | ].
    split; [ exact N2 | ]. split; [ eapply grows_trans; eauto | ].
    rewrite marks_app, M1, M2. reflexivity.
  - inversion H as [| ? ? n1 ? H1 Ha]; subst.
    inversion Ha as [| ? ? n2 ? H2 Hb]; subst.
    inversion Hb as [| ? ? n3 ? H3 Hc]; subst. inversion Hc; subst.
    replace more with 0%nat by lia.
    destruct (provisioning_step 0 2 w n1 H1) as [w1 [e1 [R1 [S1 [N1 [G1 M1]]]]]].
    rewrite <- S1, <- N1 in H2.
    destruct (provisioning_step (0 + 1) 1 w1 n2 H2)
      as [w2 [e2 [R2 [S2 [N2 [G2 M2]]]]]].
    rewrite <- S1, <- S2, <- N2 in H3.
    destruct (provisioning_step (0 + 1 + 1) 0 w2 n H3)
      as [w3 [e3 [R3 [S3 [N3 [G3 M3]]]]]].
    exists w3, ((e1 ++ e2) ++ e3)%list.
    split; [ now rewrite R1, R2, R3 | ]. split; [ congruence | ].
    split; [ exact N3 | ].
    split; [ eapply grows_trans; [ eapply grows_trans | ]; eauto | ].
    rewrite !marks_app, M1, M2, M3. reflexivity.
Qed.

(** C1.  [generate_temp_email] always returns (it never raises), after
    at most three attempts; the attempts that fail are each followed by
    a pause of 2^attempt seconds (1 second after the first, 2 seconds
    after the second), except the third, which is followed by none;
    when all three attempts fail it returns [(None, None)].  An attempt
    fails when the service refuses one of its requests: when the
    service refuses the first [k] attempts ([k] below 3) and serves the
    next, [generate_temp_email] returns the address and the token of
    that attempt, after [k] failures each followed by its pause; when
    it refuses three attempts in a row, [generate_temp_email] makes the
    three attempts with the pauses of 1 and 2 seconds between them and
    returns [(None, None)].  And when [generate_temp_email] returns
    [(None, None)] to [generate_identity] (temporary email asked for,
    no manual email), the identity carries the address that
    [generate_email] generates, and no token. *)
Theorem provisioning_retries_then_falls_back :
  (forall w : World,
      exists r w' new fails,
        generate_temp_email w = (Ok r, w')
        /\ grows w w' new
        /\ (fails <= 3)%nat
        /\ marks new
           = firstn (if Nat.eqb fails 3 then 8 else 3 * fails + 1)
                    backoff_schedule
        /\ (attempts new <= 3)%nat
        /\ (fails = 3%nat -> r = (None, None)))
  /\ (forall (w : World) (k n : nat),
         (k < 3)%nat ->
         refused_attempts (service w) k (sent w) n ->
         attempt_served (service w) n ->
         exists email password token w' new,
           generate_temp_email w = (Ok (Some email, token), w')
           /\ create_account (service w) (S n) email password = Served tt
           /\ issue_token (service w) (S (S n)) email password = Served token
           /\ grows w w' new
           /\ marks new = firstn (3 * k + 1) backoff_schedule)
  /\ (forall (w : World) (n : nat),
         refused_attempts (service w) 3 (sent w) n ->
         exists w' new,
           generate_temp_email w = (Ok (None, None), w')
           /\ sent w' = n
           /\ grows w w' new
           /\ marks new = backoff_schedule)
  /\ (forall (self : Generator) (country gender : string) (min_age max_age : Z)
             (w : World) (names : string * string) (w1 w2 : World),
         stocked self = true -> min_age <= max_age ->
         generate_name self gender country w = (Ok names, w1) ->
         generate_temp_email w1 = (Ok (None, None), w2) ->
         exists email w3 identity w',
           generate_email self (fst names) (snd names) country w2
           = (Ok email, w3)
           /\ generate_identity self country gender true None min_age max_age w
              = (Ok identity, w')
           /\ dict_get identity "email" = Some (Str email)
           /\ dict_has identity "email_token" = false).
Proof.
  split; [ | split; [ | split ] ].
  - intros w.
    destruct (generate_temp_email_runs w)
      as [r [w' [new [fails [R [G [Hle [Hm Hall]]]]]]]].
    exists r, w', new, fails. repeat split; auto.
    unfold attempts. rewrite Hm.
    destruct fails as [| [| [| [| n]]]]; simpl; lia.
  - intros w k n Hk Hr Hs.
    destruct (provisioning_refused k w n (3 - k) ltac:(lia) Hr)
      as [w1 [new [R [Hsv [Hn [G Hm]]]]]].
    rewrite <- Hsv, <- Hn in Hs.
    destruct (attempt_served_runs (Z.of_nat k) w1 Hs)
      as [email [password [token [w' [new' [P [Ha [Ht [G' Hm']]]]]]]]].
    rewrite Hsv, Hn in Ha, Ht.
    exists email, password, token, w', (new ++ new')%list.
    split; [ | split; [ exact Ha | split; [ exact Ht | split ] ] ].
    + unfold generate_temp_email. change (Z.to_nat retries) with 3%nat.
      unfold bind at 1. rewrite R.
      destruct (3 - k)%nat as [| more] eqn:E; [ lia | ].
      cbn [for_range]. unfold bind at 1. rewrite P. reflexivity.
    + eapply grows_trans; eauto.
    + rewrite marks_app, Hm, Hm'.
      destruct k as [| [| [| k]]]; try lia; reflexivity.
  - intros w n Hr.
    destruct (provisioning_refused 3 w n 0 eq_refl Hr)
      as [w1 [new [R [Hsv [Hn [G Hm]]]]]].
    eexists.
    exists (new ++ [Printed ("Failed to create Mail.tm account after "
                               ++ str_of_Z retries ++ " attempts.")])%list.
    split; [ | split; [ | split ] ].
    + unfold generate_temp_email. change (Z.to_nat retries) with 3%nat.
      unfold bind at 1. rewrite R. reflexivity.
    + exact Hn.
    + eapply grows_trans; [ exact G | reflexivity ].
    + rewrite marks_app, Hm. reflexivity.
  - intros. eapply generate_identity_falls_back; eauto.
Qed.

(** Witness for C1: with the service unreachable the three attempts
    fail and the identity of a request for a temporary mailbox carries
    a generated address; with a service that refuses the first request
    only, the second attempt gives the mailbox. *)
Lemma provisioning_retries_then_falls_back_witness :
  (exists w' new,
      generate_temp_email (fresh offline (fun _ => 0)) = (Ok (None, None), w')
      /\ sent w' = 3%nat
      /\ grows (fresh offline (fun _ => 0)) w' new
      /\ marks new = backoff_schedule)
  /\ (exists email password token w' new,
         generate_temp_email (fresh flaky (fun _ => 0))
         = (Ok (Some email, token), w')
         /\ create_account flaky 2 email password = Served tt
         /\ issue_token flaky 3 email password = Served token
         /\ grows (fresh flaky (fun _ => 0)) w' new
         /\ marks new = [Tried; FailedTry; Paused (inject_Z 1); Tried])
  /\ exists email w3 identity w',
       generate_email fallback "John" "Smith" "US"
         (snd (generate_temp_email
                 (snd (generate_name fallback "male" "US"
                         (fresh offline (fun _ => 0))))))
       = (Ok email, w3)
       /\ generate_identity fallback "US" "male" true None 18 65
            (fresh offline (fun _ => 0))
          = (Ok identity, w')
       /\ dict_get identity "email" = Some (Str email)
       /\ dict_has identity "email_token" = false.
Proof.
  split; [ | split ].
  - apply (proj1 (proj2 (proj2 provisioning_retries_then_falls_back))
                 (fresh offline (fun _ => 0)) 3%nat).
    apply one_more_attempt with (n1 := 1%nat);
      [ left; exists "connection refused"; split; reflexivity | ].
    apply one_more_attempt with (n1 := 2%nat);
      [ left; exists "connection refused"; split; reflexivity | ].
    apply one_more_attempt with (n1 := 3%nat);
      [ left; exists "connection refused"; split; reflexivity | ].
    apply no_attempt.
  - apply (proj1 (proj2 provisioning_retries_then_falls_back)
                 (fresh flaky (fun _ => 0)) 1%nat 1%nat).
    + lia.
    + apply one_more_attempt with (n1 := 1%nat);
        [ left; exists "timed out"; split; reflexivity | apply no_attempt ].
    + exists ["mail.example"].
      split; [ reflexivity | ]. split; [ discriminate | ].
      split; [ reflexivity | ]. intros. now exists (Some "tok-1").
  - apply (proj2 (proj2 (proj2 provisioning_retries_then_falls_back))
                 fallback "US" "male" 18 65 (fresh offline (fun _ => 0))
                 ("John", "Smith")
                 (snd (generate_name fallback "male" "US"
                         (fresh offline (fun _ => 0))))).
    + reflexivity.
    + lia.
    + vm_compute. reflexivity.
    + vm_compute. reflexivity.
Defined.

(** With the service unreachable the run is the whole schedule. *)
Lemma provisioning_offline_run :
  fst (generate_temp_email (fresh offline (fun _ => 0))) = Ok (None, None)
  /\ rev (trace (snd (generate_temp_email (fresh offline (fun _ => 0)))))
     = [Sent "GET" "https://api.mail.tm/domains";
        Logged ERROR "Mail.tm attempt 1 failed: connection refused";
        Slept (inject_Z 1);
        Sent "GET" "https://api.mail.tm/domains";
        Logged ERROR "Mail.tm attempt 2 failed: connection refused";
        Slept (inject_Z 2);
        Sent "GET" "https://api.mail.tm/domains";
        Logged ERROR "Mail.tm attempt 3 failed: connection refused";
        Printed "Failed to create Mail.tm account after 3 attempts."].
Proof. split; vm_compute; reflexivity. Qed.

(** ** Polling the inbox *)

Section InboxFacts.
Variable re_search : string -> string -> searched.
Variables token code_pattern link_pattern : string.



End InboxFacts.


Section InboxFrame.
Variable re_search : string -> string -> searched.
Variables token code_pattern link_pattern : string.
Variable poll_interval : Q.

Lemma later_refl w : later w w.
Proof. split; [ reflexivity | lia ]. Qed.

Lemma later_trans w w1 w2 : later w w1 -> later w1 w2 -> later w w2.
Proof. intros [S1 L1] [S2 L2]. split; [ congruence | lia ]. Qed.





End InboxFrame.


Section InboxRuns.
Variable re_search : string -> string -> searched.
Variables token code_pattern link_pattern : string.
Variable poll_interval : Q.

Local Abbreviation scan :=
  (scan_messages re_search token code_pattern link_pattern).
Local Abbreviation listing :=
  (messages <- http "GET" (api "/messages")
                    (fun s n => list_messages s n token) ;;
   scan_messages re_search token code_pattern link_pattern messages).
Local Abbreviation asked url w :=
  (with_sent (S (sent w)) (with_trace (Sent "GET" url :: trace w) w)).

Lemma fetch_is_no_poll m :
  poll_mark (Sent "GET" (api ("/messages/" ++ m))) = [].
Proof. reflexivity. Qed.










End InboxRuns.




(** With the service unreachable, two attempts find nothing. *)
Lemma check_inbox_offline_run :
  fst (check_inbox default_engine "token" default_code_pattern
                   default_link_pattern 2 0 (fresh offline (fun _ => 0)))
  = Ok (None, None)
  /\ poll_marks
       (rev (trace (snd (check_inbox default_engine "token"
                                     default_code_pattern default_link_pattern
                                     2 0 (fresh offline (fun _ => 0))))))
     = [Polled; Napped 0; Polled; Napped 0].
Proof. split; vm_compute; reflexivity. Qed.

(** ** Export *)

Lemma dict_get_set_same {V} (d : dict V) k v :
  dict_get (dict_set d k v) k = Some v.
Proof.
  induction d as [| [k' v'] rest IH]; simpl.
  - now rewrite String.eqb_refl.
  - destruct (String.eqb k k') eqn:E; simpl; rewrite E; auto.
Qed.

Lemma keys_dict_set {V} (d : dict V) k v x :
  In x (keys (dict_set d k v)) <-> x = k \/ In x (keys d).
Proof.
  unfold keys. induction d as [| [k' v'] rest IH]; simpl.
  - intuition.
  - destruct (String.eqb k k') eqn:E; simpl.
    + apply String.eqb_eq in E. subst k'. intuition.
    + rewrite IH. intuition.
Qed.

Lemma flatten_members_keys field members :
  forall (flat : dict string) x,
    In x (keys (fold_left (fun acc sub =>
                             dict_set acc (field ++ "_" ++ fst sub) (snd sub))
                          members flat))
    <-> In x (keys flat)
        \/ exists sub value, In (sub, value) members /\ x = field ++ "_" ++ sub.
Proof.
  induction members as [| [sub value] rest IH]; intros flat x; simpl.
  - split; [ auto | intros [H | [s [v [[] _]]]]; exact H ].
  - rewrite IH, keys_dict_set. split.
    + intros [[-> | H] | [s [v [Hin ->]]]].
      * right. exists sub, value. auto.
      * now left.
      * right. exists s, v. auto.
    + intros [H | [s [v [[Heq | Hin] ->]]]].
      * left. now right.
      * injection Heq as -> ->. left. now left.
      * right. exists s, v. auto.
Qed.

Lemma flatten_keys_from identity :
  forall (flat : dict string) x,
    In x (keys (fold_left flatten_field identity flat))
    <-> In x (keys flat) \/ flat_key identity x.
Proof.
  unfold flat_key.
  induction identity as [| [field value] rest IH]; intros flat x.
  - simpl. split; [ auto | ].
    intros [H | [[v []] | [f [ms [s [v [[] _]]]]]]]. exact H.
  - cbn [fold_left]. rewrite IH. unfold flatten_field. cbn [fst snd].
    destruct value as [s | members].
    + rewrite keys_dict_set. split.
      * intros [[-> | H] | [[v H] | [f [ms [sb [v [H1 [H2 H3]]]]]]]].
        -- right. left. exists s. now left.
        -- now left.
        -- right. left. exists v. now right.
        -- right. right. exists f, ms, sb, v. split; [ now right | auto ].
      * intros [H | [[v [Heq | H]] | [f [ms [sb [v [[Heq | H1] [H2 H3]]]]]]]].
        -- left. now right.
        -- injection Heq as -> _. left. now left.
        -- right. left. now exists v.
        -- discriminate.
        -- right. right. exists f, ms, sb, v. auto.
    + rewrite flatten_members_keys. split.
      * intros [[H | [sb [v [H ->]]]] | [[v H] | [f [ms [sb [v [H1 [H2 H3]]]]]]]].
        -- now left.
        -- right. right. exists field, members, sb, v. split; [ now left | auto ].
        -- right. left. exists v. now right.
        -- right. right. exists f, ms, sb, v. split; [ now right | auto ].
      * intros [H | [[v [Heq | H]] | [f [ms [sb [v [[Heq | H1] [H2 H3]]]]]]]].
        -- left. now left.
        -- discriminate.
        -- right. left. now exists v.
        -- injection Heq as -> ->. left. right. now exists sb, v.
        -- right. right. exists f, ms, sb, v. auto.
Qed.

(** The columns of a flattened record are exactly the names the record
    contributes. *)
Lemma flatten_keys identity x :
  In x (keys (flatten identity)) <-> flat_key identity x.
Proof.
  unfold flatten. rewrite flatten_keys_from. simpl. intuition.
Qed.

(** Writing rows never touches the rows already in the file, and can
    only fail with the [ValueError] of a row with an unknown field. *)
Lemma writerows_keeps_header filename fieldnames rows :
  forall w header written,
    dict_get (disk w) filename = Some (Csv (header :: written)) ->
    exists outcome w' written',
      writerows filename fieldnames rows w = (outcome, w')
      /\ dict_get (disk w') filename = Some (Csv (header :: written'))
      /\ (outcome = Ok tt \/ outcome = Raise ValueError).
Proof.
  induction rows as [| row rest IH]; intros w header written Hd.
  - exists (Ok tt), w, written. auto.
  - cbn [writerows]. unfold bind at 1. unfold lift at 1.
    unfold dict_to_list.
    destruct (wrong_fields fieldnames row) as [| extra more].
    + unfold bind at 1. unfold append_row at 1. unfold modify at 1.
      rewrite Hd.
      eapply IH. cbn [disk with_disk app]. apply dict_get_set_same.
    + exists (Raise ValueError), w, written. auto.
Qed.

(** The header of a CSV export is the key list of the flattened first
    record, whatever the records after it hold; the export ends
    normally or with [ValueError]. *)
Lemma save_csv_header first rest encrypt_password w :
  exists outcome w' written,
    save_identity (first :: rest) "csv" encrypt_password w = (outcome, w')
    /\ dict_get (disk w') (csv_name w)
       = Some (Csv (keys (flatten first) :: written))
    /\ (outcome = Ok tt \/ outcome = Raise ValueError).
Proof.
  unfold save_identity, csv_name.
  unfold bind at 1. unfold now at 1.
  set (filename := "data/identities_" ++ file_stamp (wallclock w (glanced w))
                     ++ ".csv").
  cbn [String.eqb Ascii.eqb Bool.eqb].
  unfold bind at 1. unfold bind at 1. unfold open_w at 1.
  unfold bind at 1. unfold emit at 1. unfold modify at 1.
  unfold put_file at 1. unfold modify at 1.
  cbn [map first_of]. unfold bind at 1. unfold lift at 1.
  unfold bind at 1. unfold append_row at 1. unfold modify at 1.
  cbn [disk with_disk with_trace with_glanced]. rewrite dict_get_set_same.
  unfold bind at 1. cbn [app].
  match goal with
  | |- context [writerows filename ?fs ?rows ?w1] =>
      destruct (writerows_keeps_header filename fs rows w1
                  (keys (flatten first)) [])
        as [outcome [w2 [written [R [Hd Hout]]]]];
      [ cbn [disk with_disk]; apply dict_get_set_same | rewrite R ]
  end.
  destruct Hout as [-> | ->].
  - do 3 eexists. split; [ reflexivity | ]. split; [ exact Hd | now left ].
  - do 3 eexists. split; [ reflexivity | ]. split; [ exact Hd | now right ].
Qed.

(** ** Whole identities *)

Lemma choose_email_total self first_name last_name country use_temp_email
      manual_email w :
  domains self <> [] ->
  exists mail w',
    choose_email self first_name last_name country use_temp_email manual_email w
    = (Ok mail, w').
Proof.
  intros Hd.
  assert (Hgen : forall w0,
             exists mail w',
               (email <- generate_email self first_name last_name country ;;
                ret (email, @None string)) w0 = (Ok mail, w')).
  { intros w0.
    destruct (generate_email_runs self first_name last_name country w0 Hd)
      as [n [domain [w' [R _]]]].
    rewrite (bind_ok _ _ _ _ _ R). unfold ret. eauto. }
  assert (Hprov : forall w0,
             exists mail w',
               (got <- generate_temp_email ;;
                if truthy_opt (fst got)
                then ret (match fst got with Some email => email | None => "" end,
                          snd got)
                else (email <- generate_email self first_name last_name country ;;
                      ret (email, None))) w0 = (Ok mail, w')).
  { intros w0.
    destruct (generate_temp_email_runs w0) as [r [w1 [new [fails [R _]]]]].
    rewrite (bind_ok _ _ _ _ _ R).
    destruct (truthy_opt (fst r)); [ unfold ret; eauto | apply Hgen ]. }
  unfold choose_email.
  destruct manual_email as [given |].
  - destruct (truthy given); [ unfold ret; eauto | ].
    destruct use_temp_email; [ apply Hprov | apply Hgen ].
  - destruct use_temp_email; [ apply Hprov | apply Hgen ].
Qed.

(** With stocked tables and a non-empty age range, [generate_identity]
    returns a record with the ten fields in order, the address with its
    four members, and the token last when there is one. *)
Lemma generate_identity_shape self country gender use_temp_email manual_email
      min_age max_age w :
  stocked self = true -> min_age <= max_age ->
  exists identity w',
    generate_identity self country gender use_temp_email manual_email
                      min_age max_age w = (Ok identity, w')
    /\ (keys identity
        = ["first_name"; "last_name"; "full_name"; "email"; "phone"; "address";
           "username"; "birthdate"; "password"; "created"]
        \/ keys identity
           = ["first_name"; "last_name"; "full_name"; "email"; "phone";
              "address"; "username"; "birthdate"; "password"; "created";
              "email_token"])
    /\ (keys (flatten identity) = generated_columns
        \/ keys (flatten identity)
           = (generated_columns ++ ["email_token"])%list).
Proof.
  intros Hs Hle. pose proof (stocked_parts self Hs) as [_ [_ [_ [Hd _]]]].
  unfold generate_identity.
  run_total (generate_name_total self gender country w Hs) names w1.
  cbv zeta.
  run_total (choose_email_total self (fst names) (snd names) country
               use_temp_email manual_email w1 Hd) mail w2.
  destruct (snd mail) as [token |]; [ destruct (truthy token) | ].
  - destruct (identity_tail_total
                (fun identity => ret (dict_set identity "email_token" (Str token)))
                self country (fst names) (snd names) (fst mail)
                min_age max_age w2 Hs Hle)
      as [phone [address [username [birthdate [password [created [w'
            [R [street [city [state [resolved ->]]]]]]]]]]]].
    do 2 eexists. split; [ exact R | ]. split; right; reflexivity.
  - destruct (identity_tail_total (fun identity => ret identity)
                self country (fst names) (snd names) (fst mail)
                min_age max_age w2 Hs Hle)
      as [phone [address [username [birthdate [password [created [w'
            [R [street [city [state [resolved ->]]]]]]]]]]]].
    do 2 eexists. split; [ exact R | ]. split; left; reflexivity.
  - destruct (identity_tail_total (fun identity => ret identity)
                self country (fst names) (snd names) (fst mail)
                min_age max_age w2 Hs Hle)
      as [phone [address [username [birthdate [password [created [w'
            [R [street [city [state [resolved ->]]]]]]]]]]]].
    do 2 eexists. split; [ exact R | ]. split; left; reflexivity.
Qed.

(** C5.  For every non-empty batch, whatever the records after the
    first hold, CSV export writes as header the key list of the
    flattened first record; those keys are the keys of its string
    fields and, for each dict field, [key_member] for each of its
    members; and the flattened record of a generated identity has the
    address as the four columns [address_street], [address_city],
    [address_state], [address_country]. *)
Theorem csv_header_is_first_record_keys :
  (forall (first : Identity) (rest : list Identity)
          (encrypt_password : option string) (w : World),
      exists outcome w' written,
        save_identity (first :: rest) "csv" encrypt_password w = (outcome, w')
        /\ dict_get (disk w') (csv_name w)
           = Some (Csv (keys (flatten first) :: written)))
  /\ (forall (identity : Identity) (k : string),
         In k (keys (flatten identity)) <-> flat_key identity k)
  /\ (forall (self : Generator) (country gender : string)
             (use_temp_email : bool) (manual_email : option string)
             (min_age max_age : Z) (w : World),
         stocked self = true -> min_age <= max_age ->
         exists identity w',
           generate_identity self country gender use_temp_email manual_email
                             min_age max_age w = (Ok identity, w')
           /\ (keys (flatten identity) = generated_columns
               \/ keys (flatten identity)
                  = (generated_columns ++ ["email_token"])%list)).
Proof.
  split; [ | split ].
  - intros first rest encrypt_password w.
    destruct (save_csv_header first rest encrypt_password w)
      as [outcome [w' [written [R [Hd _]]]]].
    now exists outcome, w', written.
  - apply flatten_keys.
  - intros self country gender use_temp_email manual_email min_age max_age w
           Hs Hle.
    destruct (generate_identity_shape self country gender use_temp_email
                manual_email min_age max_age w Hs Hle)
      as [identity [w' [R [_ Hk]]]].
    now exists identity, w'.
Qed.

(** Witness for C5: an identity generated from the built-in tables. *)
Lemma csv_header_is_first_record_keys_witness :
  exists identity w',
    generate_identity fallback "US" "any" false None 18 65
                      (fresh offline (fun n => Z.of_nat n)) = (Ok identity, w')
    /\ (keys (flatten identity) = generated_columns
        \/ keys (flatten identity)
           = (generated_columns ++ ["email_token"])%list).
Proof.
  apply (proj2 (proj2 csv_header_is_first_record_keys)
               fallback "US" "any" false None 18 65
               (fresh offline (fun n => Z.of_nat n))).
  - reflexivity.
  - lia.
Defined.

(** A key that only a later record has adds no column: the header is
    already written, and the row is refused with [ValueError], the rows
    before it staying in the file. *)
Lemma save_csv_refuses_later_unknown_field :
  fst (save_identity
         [[("email", Str "a@example.com")];
          [("email", Str "b@example.com"); ("email_token", Str "t0k3n")]]
         "csv" None (fresh offline (fun _ => 0)))
  = Raise ValueError
  /\ disk (snd (save_identity
                  [[("email", Str "a@example.com")];
                   [("email", Str "b@example.com");
                    ("email_token", Str "t0k3n")]]
                  "csv" None (fresh offline (fun _ => 0))))
     = [("data/identities_20250615_120000.csv",
         Csv [["email"]; ["a@example.com"]])].
Proof. split; vm_compute; reflexivity. Qed.

(** ** Batches *)

Section BatchFacts.
Variable self : Generator.
Variables country gender : string.
Variable fields : option (list string).
Variable preview : bool.
Variables min_age max_age : Z.
Variable use_temp_email : bool.
Variable manual_email : option string.

Let turn : list Identity -> IO (list Identity) :=
  batch_turn self country gender fields preview min_age max_age
             use_temp_email manual_email.

(** A turn that returns has appended one identity. *)
Lemma batch_turn_appends identities w ids w' :
  turn identities w = (Ok ids, w') ->
  exists identity, ids = (identities ++ [identity])%list.
Proof.
  unfold turn, batch_turn. intros H.
  apply bind_inv_ok in H as [identity [w1 [_ H]]].
  apply bind_inv_ok in H as [u [w2 [_ H]]].
  unfold ret in H. injection H as H _. eauto.
Qed.

Lemma batch_loop_length n :
  forall identities w ids w',
    batch_loop turn n identities w = (Ok ids, w') ->
    List.length ids = (List.length identities + n)%nat.
Proof.
  induction n as [| n IH]; intros identities w ids w' H.
  - unfold batch_loop, ret in H. injection H as -> _. lia.
  - cbn [batch_loop] in H.
    apply bind_inv_ok in H as [ids1 [w1 [Hturn H]]].
    apply batch_turn_appends in Hturn as [identity ->].
    apply IH in H. rewrite H, length_app. simpl. lia.
Qed.

(** With stocked tables a turn always returns. *)
Lemma batch_turn_total identities w :
  stocked self = true -> min_age <= max_age ->
  exists ids w', turn identities w = (Ok ids, w').
Proof.
  intros Hs Hle. unfold turn, batch_turn.
  destruct (generate_identity_shape self country gender use_temp_email
              manual_email min_age max_age w Hs Hle)
    as [identity [w1 [R _]]].
  rewrite (bind_ok _ _ _ _ _ R). cbv zeta.
  unfold bind at 1.
  destruct preview.
  - unfold bind at 1. unfold display_identity, emit, modify.
    match goal with
    | |- context [if ?b then print ?s else ret tt] => destruct b
    end; unfold print, emit, modify, ret; eauto.
  - unfold ret. eauto.
Qed.

Lemma batch_loop_total n :
  stocked self = true -> min_age <= max_age ->
  forall identities w,
    exists ids w', batch_loop turn n identities w = (Ok ids, w').
Proof.
  intros Hs Hle. induction n as [| n IH]; intros identities w.
  - unfold batch_loop, ret. eauto.
  - cbn [batch_loop].
    destruct (batch_turn_total identities w Hs Hle) as [ids1 [w1 R]].
    rewrite (bind_ok _ _ _ _ _ R). apply IH.
Qed.

End BatchFacts.

(** ** The [generate] verb *)

Lemma for_each_total {A} (body : A -> IO unit) xs :
  (forall x w, exists w', body x w = (Ok tt, w')) ->
  forall w, exists w', for_each body xs w = (Ok tt, w').
Proof.
  intros Hbody. induction xs as [| x rest IH]; intros w; cbn [for_each].
  - unfold ret. eauto.
  - destruct (Hbody x w) as [w1 R]. rewrite (bind_ok _ _ _ _ _ R). apply IH.
Qed.

Lemma for_enumerate_total {A} (body : Z -> A -> IO unit) xs :
  (forall i x w, exists w', body i x w = (Ok tt, w')) ->
  forall i w, exists w', for_enumerate body i xs w = (Ok tt, w').
Proof.
  intros Hbody. induction xs as [| x rest IH]; intros i w; cbn [for_enumerate].
  - unfold ret. eauto.
  - destruct (Hbody i x w) as [w1 R]. rewrite (bind_ok _ _ _ _ _ R). apply IH.
Qed.

Lemma after_batch_total args identities w :
  exists w', after_batch args identities w = (Ok tt, w').
Proof.
  unfold after_batch.
  assert (H1 : exists w1,
             (if no_preview args then
                for_each (fun identity =>
                            display_identity identity ;;;
                            if dict_has identity "email_token"
                            then print (inbox_hint identity)
                            else ret tt)
                         identities
              else ret tt) w = (Ok tt, w1)).
  { destruct (no_preview args); [ | unfold ret; eauto ].
    apply for_each_total. intros identity w0.
    unfold bind, display_identity, emit, modify.
    destruct (dict_has identity "email_token");
      unfold print, emit, modify, ret; eauto. }
  destruct H1 as [w1 R]. rewrite (bind_ok _ _ _ _ _ R).
  destruct (save_log args); [ | unfold ret; eauto ].
  apply for_enumerate_total. intros i identity w0.
  unfold bind, now, save_identity_log, open_w, put_file, log, emit, modify.
  eexists. reflexivity.
Qed.

Lemma save_identity_total_unless_csv identities output_format
      encrypt_password w :
  String.eqb output_format "csv" = false ->
  exists w', save_identity identities output_format encrypt_password w
             = (Ok tt, w').
Proof.
  intros E. unfold save_identity. rewrite E.
  unfold bind, now, open_w, put_file, print, log, emit, modify, ret.
  eexists. reflexivity.
Qed.

(** With a password and a format other than CSV, what is written is
    the dump sealed under the key derived from the password with the
    fixed parameters: SHA-256, 32 bytes, salt [salt_], 100000
    iterations. *)
Lemma save_identity_seals_with_fixed_kdf identities output_format password w :
  String.eqb output_format "csv" = false ->
  truthy password = true ->
  exists w',
    save_identity identities output_format (Some password) w = (Ok tt, w')
    /\ dict_get (disk w') (dump_name output_format w)
       = Some (Sealed {| algorithm := "SHA256"; key_bytes := 32;
                         salt := "salt_"; iterations := 100000 |}
                      password
                      (if String.eqb output_format "json"
                       then JsonDumps else YamlDump)
                      identities).
Proof.
  intros E T. unfold save_identity, dump_name. rewrite E, T.
  unfold bind, now, open_w, put_file, print, log, emit, modify, ret.
  eexists. split; [ reflexivity | ].
  cbn [disk with_disk with_trace with_glanced]. apply dict_get_set_same.
Qed.

(** [save_identity] with the JSON format and the password [hunter2]. *)
Lemma save_identity_seals_with_fixed_kdf_witness :
  exists w',
    save_identity [[("email", Str "a@example.com")]] "json" (Some "hunter2")
                  (fresh offline (fun _ => 0)) = (Ok tt, w')
    /\ dict_get (disk w') (dump_name "json" (fresh offline (fun _ => 0)))
       = Some (Sealed {| algorithm := "SHA256"; key_bytes := 32;
                         salt := "salt_"; iterations := 100000 |}
                      "hunter2"
                      (if String.eqb "json" "json" then JsonDumps else YamlDump)
                      [[("email", Str "a@example.com")]]).
Proof.
  apply (save_identity_seals_with_fixed_kdf
           [[("email", Str "a@example.com")]] "json" "hunter2"
           (fresh offline (fun _ => 0)));
    reflexivity.
Defined.

(** With stocked tables, [generate] ends normally or with the
    [ValueError] of a CSV row that has a field the header lacks. *)
Lemma run_generate_outcome self args w :
  stocked self = true ->
  exists outcome w',
    run_generate self args w = (outcome, w')
    /\ (outcome = Ok tt \/ outcome = Raise ValueError).
Proof.
  intros Hs. unfold run_generate.
  destruct (count args <? 1) eqn:Ec;
    [ unfold print, emit, modify; do 2 eexists; split;
      [ reflexivity | now left ] | ].
  destruct ((min_age args <? 0) || (max_age args <? min_age args)
            || (120 <? max_age args))%bool eqn:Ea;
    [ unfold print, emit, modify; do 2 eexists; split;
      [ reflexivity | now left ] | ].
  destruct (use_temp_email args && truthy_opt (manual_email args))%bool;
    [ unfold print, emit, modify; do 2 eexists; split;
      [ reflexivity | now left ] | ].
  destruct (truthy_opt (encrypt args) && String.eqb (format args) "csv")%bool;
    [ unfold print, emit, modify; do 2 eexists; split;
      [ reflexivity | now left ] | ].
  apply Z.ltb_ge in Ec.
  apply orb_false_elim in Ea as [Ea _]. apply orb_false_elim in Ea as [_ Ea].
  apply Z.ltb_ge in Ea.
  match goal with
  | |- context [bind ?c _ w] =>
      assert (Hf : exists fs w1, c w = (Ok fs, w1))
  end.
  { match goal with
    | |- context [if ?b then _ else _] => destruct b
    end; unfold bind, print, emit, modify, ret; do 2 eexists; reflexivity. }
  destruct Hf as [fs [w1 R]]. rewrite (bind_ok _ _ _ _ _ R). clear R.
  unfold generate_batch_identities.
  destruct (batch_loop_total self (country args) (gender args) fs
              (negb (no_preview args)) (min_age args) (max_age args)
              (use_temp_email args) (manual_email args)
              (Z.to_nat (count args)) Hs Ea [] w1) as [ids [w2 R]].
  pose proof (batch_loop_length _ _ _ _ _ _ _ _ _ _ _ _ _ _ R) as Hlen.
  rewrite bind_assoc. rewrite (bind_ok _ _ _ _ _ R). clear R.
  destruct ids as [| first rest]; [ simpl in Hlen; lia | ].
  rewrite bind_assoc.
  assert (Hsave : exists outcome w3,
             (if save args
              then save_identity (first :: rest) (format args) (encrypt args)
              else ret tt) w2 = (outcome, w3)
             /\ (outcome = Ok tt \/ outcome = Raise ValueError)).
  { destruct (save args);
      [ | unfold ret; do 2 eexists; split; [ reflexivity | now left ] ].
    destruct (String.eqb (format args) "csv") eqn:Ef.
    - apply String.eqb_eq in Ef. rewrite Ef.
      destruct (save_csv_header first rest (encrypt args) w2)
        as [outcome [w3 [written [Rs [_ Ho]]]]].
      now exists outcome, w3.
    - destruct (save_identity_total_unless_csv (first :: rest) (format args)
                  (encrypt args) w2 Ef) as [w3 Rs].
      exists (Ok tt), w3. auto. }
  destruct Hsave as [outcome [w3 [Rs [-> | ->]]]].
  - rewrite (bind_ok _ _ _ _ _ Rs). unfold ret at 1. unfold bind at 1.
    destruct (after_batch_total args (first :: rest) w3) as [w4 Ra].
    rewrite Ra. do 2 eexists. split; [ reflexivity | now left ].
  - rewrite (bind_raise _ _ _ _ _ Rs).
    do 2 eexists. split; [ reflexivity | now right ].
Qed.

(** C10.  [save_identity] with the CSV format faults on an empty list:
    the file is opened, then indexing the first flattened record raises
    [IndexError]; on a non-empty list that fault cannot happen.  The
    shell refuses a count below 1 before generating anything, the batch
    loop it then runs returns as many identities as the count, so the
    list it hands to [save_identity] is never empty, and with stocked
    tables the [generate] verb never ends in [IndexError]. *)
Theorem csv_export_needs_a_record :
  (forall (encrypt_password : option string) (w : World),
      exists w',
        save_identity [] "csv" encrypt_password w = (Raise IndexError, w')
        /\ dict_get (disk w') (csv_name w) = Some (Csv []))
  /\ (forall (first : Identity) (rest : list Identity)
             (encrypt_password : option string) (w : World),
         exists outcome w',
           save_identity (first :: rest) "csv" encrypt_password w
           = (outcome, w')
           /\ outcome <> Raise IndexError)
  /\ (forall (self : Generator) (args : GenerateArgs) (w : World),
         count args < 1 ->
         run_generate self args w
         = (Ok tt,
            with_trace (Printed "Error: Count must be positive" :: trace w) w))
  /\ (forall (self : Generator) (country gender : string)
             (fields : option (list string)) (preview : bool)
             (min_age max_age : Z) (use_temp_email : bool)
             (manual_email : option string) (count : Z)
             (w : World) (identities : list Identity) (w' : World),
         1 <= count ->
         batch_loop (batch_turn self country gender fields preview min_age
                                max_age use_temp_email manual_email)
                    (Z.to_nat count) [] w = (Ok identities, w') ->
         List.length identities = Z.to_nat count /\ identities <> [])
  /\ (forall (self : Generator) (args : GenerateArgs) (w : World),
         stocked self = true ->
         exists outcome w',
           run_generate self args w = (outcome, w')
           /\ outcome <> Raise IndexError).
Proof.
  split; [ | split; [ | split; [ | split ] ] ].
  - intros encrypt_password w. unfold save_identity, csv_name.
    eexists. split; [ reflexivity | ].
    cbn [disk with_disk with_trace with_glanced]. apply dict_get_set_same.
  - intros first rest encrypt_password w.
    destruct (save_csv_header first rest encrypt_password w)
      as [outcome [w' [written [R [_ [-> | ->]]]]]];
      do 2 eexists; (split; [ exact R | discriminate ]).
  - intros self args w Hc. unfold run_generate.
    destruct (Z.ltb_spec (count args) 1); [ reflexivity | lia ].
  - intros self country gender fields preview min_age max_age use_temp_email
           manual_email count w identities w' Hc H.
    apply batch_loop_length in H. simpl in H. split; [ exact H | ].
    intros ->. simpl in H. lia.
  - intros self args w Hs.
    destruct (run_generate_outcome self args w Hs)
      as [outcome [w' [R [-> | ->]]]];
      do 2 eexists; (split; [ exact R | discriminate ]).
Qed.

(** Witness for C10: two identities from the built-in tables, saved as
    CSV. *)
Lemma csv_export_needs_a_record_witness :
  exists outcome w',
    run_generate fallback two_to_csv (fresh offline (fun n => Z.of_nat n))
    = (outcome, w')
    /\ outcome <> Raise IndexError.
Proof.
  apply (proj2 (proj2 (proj2 (proj2 csv_export_needs_a_record)))
               fallback two_to_csv (fresh offline (fun n => Z.of_nat n))).
  reflexivity.
Defined.

(** C6.  When the [generate] command is given both an encryption
    password and the CSV format, the turn of the shell prints the menu
    and one diagnostic and nothing else happens: no random draw (no
    identity is generated), no request, no file opened or written; the
    loop goes on.  The diagnostic is the one about encryption unless an
    earlier check (count, age range, email options) already refused the
    arguments. *)
Theorem encrypted_csv_is_rejected :
  forall (re_search : string -> string -> searched) (self : Generator)
         (args : GenerateArgs) (w : World),
    truthy_opt (encrypt args) = true ->
    format args = "csv" ->
    exists line w',
      turn re_search self (Generate (Some args)) w = (Ok Again, w')
      /\ w' = with_trace (Printed line :: (rev (map Printed menu) ++ trace w))%list
                         w
      /\ drawn w' = drawn w /\ sent w' = sent w /\ disk w' = disk w
      /\ In line diagnostics
      /\ ((count args <? 1) = false ->
          ((min_age args <? 0) || (max_age args <? min_age args)
           || (120 <? max_age args))%bool = false ->
          (use_temp_email args && truthy_opt (manual_email args))%bool = false ->
          line = "Error: Encryption is not supported for CSV format").
Proof.
  intros re_search self args w He Hf.
  unfold turn. cbn [menu for_each].
  unfold bind at 1. unfold bind at 1. unfold print at 1, emit at 1, modify at 1.
  unfold bind at 1. unfold print at 1, emit at 1, modify at 1.
  unfold bind at 1. unfold print at 1, emit at 1, modify at 1.
  unfold bind at 1. unfold print at 1, emit at 1, modify at 1.
  unfold bind at 1. unfold print at 1, emit at 1, modify at 1.
  unfold ret at 1. unfold bind at 1.
  unfold generate_verb, try_except, run_generate.
  rewrite He, Hf. cbn [String.eqb Ascii.eqb Bool.eqb andb].
  unfold diagnostics.
  destruct (count args <? 1);
    [ do 2 eexists; split; [ reflexivity | ];
      repeat (split; [ reflexivity | ]);
      split; [ simpl; tauto | discriminate ] | ].
  destruct ((min_age args <? 0) || (max_age args <? min_age args)
            || (120 <? max_age args))%bool;
    [ do 2 eexists; split; [ reflexivity | ];
      repeat (split; [ reflexivity | ]);
      split; [ simpl; tauto | discriminate ] | ].
  destruct (use_temp_email args && truthy_opt (manual_email args))%bool;
    [ do 2 eexists; split; [ reflexivity | ];
      repeat (split; [ reflexivity | ]);
      split; [ simpl; tauto | discriminate ] | ].
  do 2 eexists; split; [ reflexivity | ];
    repeat (split; [ reflexivity | ]);
    split; [ simpl; tauto | reflexivity ].
Qed.

(** Witness for C6: [generate --format csv --encrypt hunter2 --save]. *)
Lemma encrypted_csv_is_rejected_witness :
  exists line w',
    turn default_engine fallback (Generate (Some sealed_csv))
         (fresh offline (fun _ => 0)) = (Ok Again, w')
    /\ w' = with_trace (Printed line
                          :: (rev (map Printed menu)
                                ++ trace (fresh offline (fun _ => 0))))%list
                       (fresh offline (fun _ => 0))
    /\ drawn w' = drawn (fresh offline (fun _ => 0))
    /\ sent w' = sent (fresh offline (fun _ => 0))
    /\ disk w' = disk (fresh offline (fun _ => 0))
    /\ In line diagnostics
    /\ ((count sealed_csv <? 1) = false ->
        ((min_age sealed_csv <? 0) || (max_age sealed_csv <? min_age sealed_csv)
         || (120 <? max_age sealed_csv))%bool = false ->
        (use_temp_email sealed_csv
         && truthy_opt (manual_email sealed_csv))%bool = false ->
        line = "Error: Encryption is not supported for CSV format").
Proof.
  apply (encrypted_csv_is_rejected default_engine fallback sealed_csv
                                   (fresh offline (fun _ => 0)));
    reflexivity.
Defined.

(** Called directly with a password and the CSV format, [save_identity]
    itself writes the rows in clear: the rejection is the shell's. *)
Lemma save_identity_ignores_password_for_csv :
  fst (save_identity [[("email", Str "a@example.com")]] "csv" (Some "hunter2")
                     (fresh offline (fun _ => 0)))
  = Ok tt
  /\ disk (snd (save_identity [[("email", Str "a@example.com")]] "csv"
                              (Some "hunter2") (fresh offline (fun _ => 0))))
     = [("data/identities_20250615_120000.csv",
         Csv [["email"]; ["a@example.com"]])].
Proof. split; vm_compute; reflexivity. Qed.

(** * Further properties

    What the rest of the code shows, function by function. *)

(** ** Quiet computations *)

Lemma quiet_refl w : quiet w w.
Proof. repeat split. Qed.

Lemma quiet_trans w w1 w2 : quiet w w1 -> quiet w1 w2 -> quiet w w2.
Proof.
  intros [A [B [C D]]] [A' [B' [C' D']]]. repeat split; congruence.
Qed.

Lemma Quiet_ret {A} (a : A) : Quiet (ret a).
Proof. intros w r w' H. injection H as _ <-. apply quiet_refl. Qed.

Lemma Quiet_raise {A} e : Quiet (@raise World A e).
Proof. intros w r w' H. injection H as _ <-. apply quiet_refl. Qed.

Lemma Quiet_lift {A} (r : result A) : Quiet (lift r).
Proof. intros w r' w' H. injection H as _ <-. apply quiet_refl. Qed.

Lemma Quiet_bind {A B} (c : IO A) (k : A -> IO B) :
  Quiet c -> (forall a, Quiet (k a)) -> Quiet (bind c k).
Proof.
  intros Hc Hk w r w' H. unfold bind in H.
  destruct (c w) as [[a | e] w1] eqn:E.
  - eapply quiet_trans; [ eapply Hc; eauto | eapply Hk; eauto ].
  - injection H as _ <-. eapply Hc; eauto.
Qed.

Lemma Quiet_randbelow n : Quiet (randbelow n).
Proof.
  intros w r w' H. unfold randbelow in H.
  destruct (n <=? 0); injection H as _ <-; repeat split.
Qed.

Lemma Quiet_now : Quiet now.
Proof. intros w r w' H. injection H as _ <-. repeat split. Qed.

Lemma Quiet_choice {A} (seq : list A) : Quiet (choice seq).
Proof.
  destruct seq as [| x rest]; [ apply Quiet_raise | ].
  apply Quiet_bind; [ apply Quiet_randbelow | intros; apply Quiet_ret ].
Qed.

Lemma Quiet_random_chars alphabet n : Quiet (random_chars alphabet n).
Proof.
  induction n as [| n IH]; [ apply Quiet_ret | ].
  apply Quiet_bind; [ apply Quiet_choice | intros c ].
  apply Quiet_bind; [ exact IH | intros; apply Quiet_ret ].
Qed.

Lemma Quiet_token_hex n : Quiet (token_hex n).
Proof.
  induction n as [| n IH]; [ apply Quiet_ret | ].
  apply Quiet_bind; [ apply Quiet_randbelow | intros b ].
  apply Quiet_bind; [ exact IH | intros; apply Quiet_ret ].
Qed.

Lemma Quiet_fill_format fmt : Quiet (fill_format fmt).
Proof.
  induction fmt as [| c rest IH]; [ apply Quiet_ret | ].
  apply Quiet_bind.
  - destruct (Ascii.eqb c "#"); [ apply Quiet_choice | apply Quiet_ret ].
  - intros d. apply Quiet_bind; [ exact IH | intros; apply Quiet_ret ].
Qed.

Ltac quiet_steps :=
  repeat first
    [ apply Quiet_ret | apply Quiet_raise | apply Quiet_lift
    | apply Quiet_randbelow | apply Quiet_now | apply Quiet_choice
    | apply Quiet_random_chars | apply Quiet_token_hex
    | apply Quiet_fill_format
    | apply Quiet_bind; [ | intros ? ] ].

Lemma Quiet_generate_name self gender country :
  Quiet (generate_name self gender country).
Proof.
  unfold generate_name. apply Quiet_bind.
  - destruct (String.eqb _ "any"); quiet_steps.
  - intros g. quiet_steps.
Qed.

Lemma Quiet_generate_email self first_name last_name country :
  Quiet (generate_email self first_name last_name country).
Proof. unfold generate_email. quiet_steps. Qed.

Lemma Quiet_generate_phone self country : Quiet (generate_phone self country).
Proof. unfold generate_phone. quiet_steps. Qed.

Lemma Quiet_generate_address self country :
  Quiet (generate_address self country).
Proof. unfold generate_address. quiet_steps. Qed.

Lemma Quiet_generate_username first_name last_name :
  Quiet (generate_username first_name last_name).
Proof. unfold generate_username. quiet_steps. Qed.

Lemma Quiet_generate_birthdate min_age max_age :
  Quiet (generate_birthdate min_age max_age).
Proof. unfold generate_birthdate. quiet_steps. Qed.

Lemma Quiet_generate_password : Quiet generate_password.
Proof. unfold generate_password. quiet_steps. Qed.

(** ** Names *)

(** X5.  With a [first_names] table that has the key [neutral] and a
    [last_names] table that has the key [US], and no empty list in
    either, [generate_name] returns a first name from the list of one
    bucket and a last name from the list of the country (of [US] when
    the country has none).  The bucket is the lower-cased gender when
    one is given other than [any], and then its list is the one of
    [neutral] when the table does not have it; it is one of [male],
    [female], [neutral] when the gender is empty or [any]. *)
Theorem generate_name_draws_from_buckets :
  forall (self : Generator) (gender country : string) (w : World),
    stocked_table (first_names self) "neutral" = true ->
    stocked_table (last_names self) "US" = true ->
    exists first_name last_name bucket firsts lasts w',
      generate_name self gender country w = (Ok (first_name, last_name), w')
      /\ selected (first_names self) bucket "neutral" = Some firsts
      /\ In first_name firsts
      /\ selected (last_names self) country "US" = Some lasts
      /\ In last_name lasts
      /\ (if (truthy gender && negb (String.eqb (lower gender) "any"))%bool
          then bucket = lower gender
          else In bucket ["male"; "female"; "neutral"]).
Proof.
  intros self gender country w Hf Hl. unfold generate_name.
  assert (Hg : exists bucket w1,
             (if String.eqb (if truthy gender then lower gender else "any") "any"
              then choice ["male"; "female"; "neutral"]
              else ret (if truthy gender then lower gender else "any")) w
             = (Ok bucket, w1)
             /\ (if (truthy gender && negb (String.eqb (lower gender) "any"))%bool
                 then bucket = lower gender
                 else In bucket ["male"; "female"; "neutral"])).
  { destruct (truthy gender); cbn [andb].
    - destruct (String.eqb (lower gender) "any"); cbn [negb].
      + destruct (choice_ok ["male"; "female"; "neutral"] w ltac:(discriminate))
          as [g [Hc Hin]]. eauto.
      + unfold ret. eauto.
    - cbn [String.eqb Ascii.eqb Bool.eqb].
      destruct (choice_ok ["male"; "female"; "neutral"] w ltac:(discriminate))
        as [g [Hc Hin]]. eauto. }
  destruct Hg as [bucket [w1 [Hg Hb]]]. rewrite (bind_ok _ _ _ _ _ Hg).
  assert (Hsame : forall (d : dict (list string)) k dflt,
             get_or d (if dict_has d k then k else dflt) dflt
             = get_or d k dflt).
  { intros d k dflt. unfold get_or, dict_index.
    destruct (dict_get d dflt) as [v |] eqn:Ed; [ | reflexivity ].
    destruct (dict_has d k) eqn:Ek; [ reflexivity | ].
    apply dict_has_none in Ek. now rewrite Ek, Ed. }
  rewrite Hsame.
  destruct (get_or_stocked _ bucket "neutral" Hf) as [firsts [Hgf [Hsf Hnf]]].
  unfold lift at 1. unfold bind at 1. rewrite Hgf.
  run_choice first_name Hin1.
  rewrite Hsame.
  destruct (get_or_stocked _ country "US" Hl) as [lasts [Hgl [Hsl Hnl]]].
  unfold lift at 1. unfold bind at 1. rewrite Hgl.
  run_choice last_name Hin2.
  unfold ret. exists first_name, last_name, bucket, firsts, lasts.
  eexists. repeat split; auto.
Qed.

(** Witness for X5: the built-in tables, gender [Female], an unknown
    country. *)
Lemma generate_name_draws_from_buckets_witness :
  exists first_name last_name bucket firsts lasts w',
    generate_name fallback "Female" "fr" (fresh offline (fun _ => 1))
    = (Ok (first_name, last_name), w')
    /\ selected (first_names fallback) bucket "neutral" = Some firsts
    /\ In first_name firsts
    /\ selected (last_names fallback) "fr" "US" = Some lasts
    /\ In last_name lasts
    /\ (if (truthy "Female" && negb (String.eqb (lower "Female") "any"))%bool
        then bucket = lower "Female"
        else In bucket ["male"; "female"; "neutral"]).
Proof.
  apply (generate_name_draws_from_buckets
           fallback "Female" "fr" (fresh offline (fun _ => 1)));
    reflexivity.
Defined.

(** ** The fallback key of a table *)

Lemma get_or_without_fallback {V} (d : dict V) key fallback_key :
  dict_get d fallback_key = None ->
  get_or d key fallback_key = Raise (KeyError fallback_key).
Proof. intros H. unfold get_or, dict_index. now rewrite H. Qed.

(** X6.  A lookup [table.get(key, table[fallback])] needs the fallback
    key even when [key] is in the table: [generate_name] raises
    [KeyError] for every gender when [first_names] has no [neutral],
    [generate_phone] for every country when [phone_formats] has no
    [US], and [generate_address] for every country when [streets] has
    no [US] (the state tables being stocked). *)
Theorem fallback_key_is_always_needed :
  forall (self : Generator) (gender country : string) (w : World),
    (dict_get (first_names self) "neutral" = None ->
     fst (generate_name self gender country w) = Raise (KeyError "neutral"))
    /\ (dict_get (phone_formats self) "US" = None ->
        generate_phone self country w = (Raise (KeyError "US"), w))
    /\ (stocked_table (state_maps self) "US" = true ->
        dict_get (streets self) "US" = None ->
        fst (generate_address self country w) = Raise (KeyError "US")).
Proof.
  intros self gender country w. split; [ | split ].
  - intros H. unfold generate_name.
    assert (Hg : exists bucket w1,
               (if String.eqb (if truthy gender then lower gender else "any") "any"
                then choice ["male"; "female"; "neutral"]
                else ret (if truthy gender then lower gender else "any")) w
               = (Ok bucket, w1)).
    { destruct (String.eqb _ "any").
      - destruct (choice_ok ["male"; "female"; "neutral"] w ltac:(discriminate))
          as [g [Hc _]]. eauto.
      - unfold ret. eauto. }
    destruct Hg as [bucket [w1 Hg]]. rewrite (bind_ok _ _ _ _ _ Hg).
    unfold lift at 1. unfold bind at 1.
    now rewrite (get_or_without_fallback _ _ _ H).
  - intros H. unfold generate_phone, lift. unfold bind.
    now rewrite (get_or_without_fallback _ _ _ H).
  - intros Hs H. unfold generate_address.
    match goal with
    | |- context [get_or (state_maps self) ?k "US"] =>
        destruct (get_or_stocked _ k "US" Hs) as [states [Hg [_ Hne]]]
    end.
    unfold lift at 1. unfold bind at 1. rewrite Hg.
    run_choice state Hin.
    unfold lift at 1. unfold bind at 1.
    now rewrite (get_or_without_fallback _ _ _ H).
Qed.

(** Witness for X6: gender [male] and country [in] are both in the
    tables, the fallback keys are not. *)
Lemma fallback_key_is_always_needed_witness :
  fst (generate_name no_fallback_keys "male" "in" (fresh offline (fun _ => 0)))
  = Raise (KeyError "neutral")
  /\ generate_phone no_fallback_keys "in" (fresh offline (fun _ => 0))
     = (Raise (KeyError "US"), fresh offline (fun _ => 0))
  /\ fst (generate_address no_fallback_keys "in" (fresh offline (fun _ => 0)))
     = Raise (KeyError "US").
Proof.
  destruct (fallback_key_is_always_needed
              no_fallback_keys "male" "in" (fresh offline (fun _ => 0)))
    as [H1 [H2 H3]].
  split; [ apply H1; reflexivity | ].
  split; [ apply H2; reflexivity | apply H3; reflexivity ].
Defined.

(** ** Phone numbers *)

Lemma fills_length template :
  forall phone, fills template phone ->
                String.length phone = String.length template.
Proof.
  induction template as [| t rest IH]; intros [| p phone]; simpl;
    try tauto.
  intros [_ H]. now rewrite (IH _ H).
Qed.

Lemma fill_format_fills template :
  forall w, exists phone w',
      fill_format template w = (Ok phone, w') /\ fills template phone.
Proof.
  induction template as [| t rest IH]; intros w; cbn [fill_format].
  - exists "", w. now split.
  - assert (Hd : exists d w1,
               (if Ascii.eqb t "#" then choice (chars digits) else ret t) w
               = (Ok d, w1)
               /\ (if Ascii.eqb t "#" then In d (chars digits) else d = t)).
    { destruct (Ascii.eqb t "#").
      - destruct (choice_ok (chars digits) w ltac:(discriminate))
          as [d [Hc Hin]]. eauto.
      - unfold ret. eauto. }
    destruct Hd as [d [w1 [Hd Hin]]]. rewrite (bind_ok _ _ _ _ _ Hd).
    destruct (IH w1) as [phone [w2 [R Hf]]]. rewrite (bind_ok _ _ _ _ _ R).
    unfold ret. exists (String d phone), w2. split; [ reflexivity | ].
    cbn [fills]. now split.
Qed.

(** X7.  When [phone_formats] has a template for [US],
    [generate_phone] returns, for every country, the template of the
    country (of [US] when the country has none) with each [#] replaced
    by a decimal digit and every other character kept in place; the
    number is as long as the template, and nothing is sent, printed or
    written. *)
Theorem generate_phone_fills_template :
  forall (self : Generator) (country us : string) (w : World),
    dict_get (phone_formats self) "US" = Some us ->
    exists phone w',
      generate_phone self country w = (Ok phone, w')
      /\ fills (match dict_get (phone_formats self) country with
                | Some template => template
                | None => us
                end) phone
      /\ String.length phone
         = String.length (match dict_get (phone_formats self) country with
                          | Some template => template
                          | None => us
                          end)
      /\ quiet w w'.
Proof.
  intros self country us w H.
  assert (Hq : Quiet (generate_phone self country))
    by apply Quiet_generate_phone.
  unfold generate_phone, get_or, dict_index, lift in *. unfold bind at 1.
  rewrite H.
  destruct (dict_get (phone_formats self) country) as [template |];
    match goal with
    | |- context [fill_format ?t w] =>
        destruct (fill_format_fills t w) as [phone [w' [R Hf]]]
    end;
    exists phone, w'; (split; [ exact R | ]); (split; [ exact Hf | ]);
    (split; [ now apply fills_length | ]);
    apply (Hq w (Ok phone) w'); unfold bind; rewrite H; exact R.
Qed.

(** Witness for X7: the built-in templates and an unknown country. *)
Lemma generate_phone_fills_template_witness :
  exists phone w',
    generate_phone fallback "fr" (fresh offline (fun n => Z.of_nat n)) = (Ok phone, w')
    /\ fills (match dict_get (phone_formats fallback) "fr" with
              | Some template => template
              | None => "+1-###-###-####"
              end) phone
    /\ String.length phone
       = String.length (match dict_get (phone_formats fallback) "fr" with
                        | Some template => template
                        | None => "+1-###-###-####"
                        end)
    /\ quiet (fresh offline (fun n => Z.of_nat n)) w'.
Proof.
  apply (generate_phone_fills_template
           fallback "fr" "+1-###-###-####" (fresh offline (fun n => Z.of_nat n))).
  reflexivity.
Defined.

(** ** User names and passwords *)

Lemma hex_digit_is_hex n :
  0 <= n < 16 -> In (hex_digit n) (chars "0123456789abcdef").
Proof.
  intros H. unfold hex_digit. apply nth_In.
  change (List.length (chars "0123456789abcdef")) with 16%nat. lia.
Qed.

Lemma token_hex_form n :
  forall w, exists s w',
      token_hex n w = (Ok s, w')
      /\ String.length s = (2 * n)%nat
      /\ drawn_from "0123456789abcdef" s.
Proof.
  induction n as [| n IH]; intros w; cbn [token_hex].
  - exists "", w. repeat split. constructor.
  - run_randbelow.
    match goal with
    | |- context [bind (token_hex n) _ ?w0] =>
        destruct (IH w0) as [s [w2 [R [Hl Hd]]]]
    end.
    rewrite (bind_ok _ _ _ _ _ R). unfold ret.
    do 2 eexists. split; [ reflexivity | ]. split.
    + cbn [String.length]. rewrite Hl. lia.
    + unfold drawn_from. cbn [chars list_ascii_of_string].
      constructor; [ | constructor; [ | exact Hd ] ].
      * apply hex_digit_is_hex. split.
        -- apply Z.div_pos; lia.
        -- apply Z.div_lt_upper_bound; lia.
      * apply hex_digit_is_hex. apply Z.mod_pos_bound. lia.
Qed.

(** X8.  [generate_username] returns, for every pair of names, the
    lower-cased first name, the lower-cased last name and four
    lower-case hexadecimal digits. *)
Theorem generate_username_form :
  forall (first_name last_name : string) (w : World),
    exists suffix w',
      generate_username first_name last_name w
      = (Ok ((lower first_name ++ lower last_name) ++ suffix), w')
      /\ String.length suffix = 4%nat
      /\ drawn_from "0123456789abcdef" suffix.
Proof.
  intros first_name last_name w. unfold generate_username.
  destruct (token_hex_form 2 w) as [suffix [w' [R [Hl Hd]]]].
  rewrite (bind_ok _ _ _ _ _ R). unfold ret.
  exists suffix, w'. repeat split; auto.
Qed.

Lemma random_chars_form alphabet n :
  chars alphabet <> [] ->
  forall w, exists s w',
      random_chars alphabet n w = (Ok s, w')
      /\ String.length s = n
      /\ drawn_from alphabet s.
Proof.
  intros Hne. induction n as [| n IH]; intros w; cbn [random_chars].
  - exists "", w. repeat split. constructor.
  - run_choice c Hin.
    match goal with
    | |- context [bind (random_chars alphabet n) _ ?w0] =>
        destruct (IH w0) as [s [w2 [R [Hl Hd]]]]
    end.
    rewrite (bind_ok _ _ _ _ _ R). unfold ret.
    do 2 eexists. split; [ reflexivity | ]. split.
    + cbn [String.length]. now rewrite Hl.
    + unfold drawn_from. cbn [chars list_ascii_of_string].
      constructor; [ exact Hin | exact Hd ].
Qed.

(** X9.  [generate_password] returns twelve characters, each an ASCII
    letter, a digit or a punctuation character of [string.punctuation],
    and touches nothing but the random source. *)
Theorem generate_password_form :
  forall w : World,
    exists password w',
      generate_password w = (Ok password, w')
      /\ String.length password = 12%nat
      /\ drawn_from (ascii_letters ++ digits ++ punctuation) password
      /\ quiet w w'
      /\ glanced w' = glanced w.
Proof.
  intros w. unfold generate_password.
  destruct (random_chars_total (ascii_letters ++ digits ++ punctuation) 12 w
              ltac:(discriminate)) as [s0 [k R0]].
  destruct (random_chars_form (ascii_letters ++ digits ++ punctuation) 12
              ltac:(discriminate) w) as [password [w' [R [Hl Hd]]]].
  exists password, w'. split; [ exact R | ].
  split; [ exact Hl | ]. split; [ exact Hd | ].
  rewrite R in R0. injection R0 as _ ->. repeat split.
Qed.

(** ** Runs that only add requests *)

Lemma Later_of_Quiet {A} (c : IO A) : Quiet c -> Later c.
Proof.
  intros H w r w' R. destruct (H w r w' R) as [Hs [Hn _]].
  split; [ exact Hs | lia ].
Qed.

Lemma Later_ret {A} (a : A) : Later (ret a).
Proof. apply Later_of_Quiet, Quiet_ret. Qed.

Lemma Later_bind {A B} (c : IO A) (k : A -> IO B) :
  Later c -> (forall a, Later (k a)) -> Later (bind c k).
Proof.
  intros Hc Hk w r w' H. unfold bind in H.
  destruct (c w) as [[a | e] w1] eqn:E.
  - eapply later_trans; [ eapply Hc; eauto | eapply Hk; eauto ].
  - injection H as _ <-. eapply Hc; eauto.
Qed.

Lemma Later_emit e : Later (emit e).
Proof. intros w r w' H. injection H as _ <-. split; [ reflexivity | cbn; lia ]. Qed.

Lemma Later_sleep seconds : Later (sleep seconds).
Proof.
  unfold sleep. destruct (Qle_bool 0 seconds); [ apply Later_emit | ].
  apply Later_of_Quiet, Quiet_raise.
Qed.

Lemma Later_http {A} verb url (answer : Service -> nat -> reply A) :
  Later (http verb url answer).
Proof.
  intros w r w' H. unfold http in H.
  destruct (answer (service w) (sent w)); injection H as _ <-;
    (split; [ reflexivity | cbn; lia ]).
Qed.

Lemma Later_try_except {A} (c : IO A) handler :
  Later c -> (forall e h, handler e = Some h -> Later h) ->
  Later (try_except c handler).
Proof.
  intros Hc Hh w r w' H. unfold try_except in H.
  destruct (c w) as [[a | e] w1] eqn:E.
  - injection H as _ <-. eapply Hc; eauto.
  - destruct (handler e) as [h |] eqn:Eh.
    + eapply later_trans; [ eapply Hc; eauto | eapply Hh; eauto ].
    + injection H as _ <-. eapply Hc; eauto.
Qed.

Ltac later_steps :=
  repeat lazymatch goal with
    | |- Later (bind _ _) => apply Later_bind; [ | intros ? ]
    | |- Later (ret _) => apply Later_ret
    | |- Later (emit _) => apply Later_emit
    | |- Later (http _ _ _) => apply Later_http
    | |- Later (choice _) => apply Later_of_Quiet, Quiet_choice
    | |- Later (random_chars _ _) => apply Later_of_Quiet, Quiet_random_chars
    end.

Lemma Later_create_mailbox : Later create_mailbox.
Proof.
  unfold create_mailbox. apply Later_bind; [ apply Later_http | ].
  intros [| d ds]; unfold log; later_steps.
Qed.

Lemma Later_provision_attempt attempt : Later (provision_attempt attempt).
Proof.
  unfold provision_attempt. apply Later_try_except.
  - apply Later_create_mailbox.
  - intros e h He. destruct e; try discriminate. injection He as <-.
    unfold back_off, log.
    apply Later_bind; [ apply Later_emit | intros ? ].
    apply Later_bind; [ | intros; apply Later_ret ].
    destruct (attempt <? retries - 1); [ apply Later_sleep | apply Later_ret ].
Qed.

(** ** Mailboxes *)

Lemma random_chars_runs alphabet n :
  chars alphabet <> [] ->
  forall w, exists s k,
      random_chars alphabet n w = (Ok s, with_drawn k w)
      /\ String.length s = n
      /\ drawn_from alphabet s.
Proof.
  intros Hne w.
  destruct (random_chars_total alphabet n w Hne) as [s [k R]].
  destruct (random_chars_form alphabet n Hne w) as [s' [w' [R' [Hl Hd]]]].
  rewrite R in R'. injection R' as <- _. now exists s, k.
Qed.

Lemma create_mailbox_returns w r w' :
  create_mailbox w = (Ok (Return r), w') ->
  mailbox_of (service w) (sent w) r.
Proof.
  unfold create_mailbox. unfold bind at 1. unfold http at 1.
  destruct (list_domains (service w) (sent w)) as [why | offered] eqn:L;
    [ discriminate | ].
  destruct offered as [| d ds]; [ discriminate | ].
  set (w1 := with_sent (S (sent w))
               (with_trace (Sent "GET" (api "/domains") :: trace w) w)).
  destruct (choice_ok (d :: ds) w1 ltac:(discriminate)) as [domain [Hc Hin]].
  rewrite (bind_ok _ _ _ _ _ Hc).
  destruct (random_chars_runs (ascii_lowercase ++ digits) 10
              ltac:(discriminate) (with_drawn (S (drawn w1)) w1))
    as [username [k1 [Hu [Hul Hud]]]].
  rewrite (bind_ok _ _ _ _ _ Hu). rewrite with_drawn_twice.
  destruct (random_chars_runs (ascii_letters ++ digits ++ punctuation) 12
              ltac:(discriminate) (with_drawn k1 w1))
    as [password [k2 [Hp [Hpl _]]]].
  rewrite (bind_ok _ _ _ _ _ Hp). rewrite with_drawn_twice.
  unfold bind at 1. unfold http at 1. subst w1.
  cbn [service sent with_drawn with_sent with_trace].
  destruct (create_account (service w) (S (sent w))
                           (username ++ "@" ++ domain) password)
    as [why | []] eqn:Ca; [ discriminate | ].
  unfold bind at 1. unfold http at 1.
  cbn [service sent with_drawn with_sent with_trace].
  destruct (issue_token (service w) (S (S (sent w)))
                        (username ++ "@" ++ domain) password)
    as [why | token] eqn:It; [ discriminate | ].
  intros H. unfold bind, log, emit, modify, ret in H. injection H as <- _.
  exists username, domain, password, (d :: ds). cbn [snd].
  repeat split; auto.
Qed.

Lemma provision_attempt_returns attempt w r w' :
  provision_attempt attempt w = (Ok (Return r), w') ->
  mailbox_of (service w) (sent w) r.
Proof.
  unfold provision_attempt, try_except. intros H.
  destruct (create_mailbox w) as [[f | e] w1] eqn:C.
  - injection H as -> ->. eapply create_mailbox_returns; eauto.
  - destruct e; cbn [on_provision_error] in H; try discriminate.
    destruct (back_off_runs attempt why w1) as [w2 [new [R _]]].
    rewrite R in H. discriminate.
Qed.

Lemma provision_loop_returns n :
  forall start w r w',
    for_range provision_attempt start n w = (Ok (Some r), w') ->
    exists wi, later w wi /\ mailbox_of (service wi) (sent wi) r.
Proof.
  induction n as [| n IH]; intros start w r w' H; [ discriminate | ].
  cbn [for_range] in H. unfold bind at 1 in H.
  destruct (provision_attempt start w) as [[f | e] w1] eqn:P; [ | discriminate ].
  destruct f as [found | |].
  - injection H as -> _. exists w. split; [ apply later_refl | ].
    eapply provision_attempt_returns; eauto.
  - discriminate.
  - apply IH in H as [wi [L Hm]]. exists wi. split; [ | exact Hm ].
    eapply later_trans; [ eapply Later_provision_attempt; eauto | exact L ].
Qed.

Lemma generate_temp_email_mailbox w r w' :
  generate_temp_email w = (Ok r, w') ->
  r = (None, None)
  \/ exists n, (sent w <= n)%nat /\ mailbox_of (service w) n r.
Proof.
  unfold generate_temp_email. intros H.
  apply bind_inv_ok in H as [o [w1 [R H]]].
  destruct o as [found |].
  - injection H as -> _. right.
    apply provision_loop_returns in R as [wi [[Hs Hn] Hm]].
    exists (sent wi). split; [ exact Hn | ]. now rewrite <- Hs.
  - unfold bind, print, emit, modify, ret in H. injection H as <- _. now left.
Qed.

(** X10.  [generate_temp_email] returns either [(None, None)] or an
    address with the token issued for it: the address is ten
    characters drawn from the lower-case letters and the digits, [@],
    and a domain the service listed; the service accepted an account
    for that address and a twelve-character password, and the token is
    the one it issued next for the same address and password. *)
Theorem generate_temp_email_returns_the_issued_mailbox :
  forall w : World,
    exists r w',
      generate_temp_email w = (Ok r, w')
      /\ (r = (None, None)
          \/ exists n, (sent w <= n)%nat /\ mailbox_of (service w) n r).
Proof.
  intros w.
  destruct (provision_loop_runs w) as [o [w1 [new [fails [R _]]]]].
  assert (H : exists r w', generate_temp_email w = (Ok r, w')).
  { unfold generate_temp_email. rewrite (bind_ok _ _ _ _ _ R).
    destruct o as [found |]; do 2 eexists; reflexivity. }
  destruct H as [r [w' H]]. exists r, w'. split; [ exact H | ].
  eapply generate_temp_email_mailbox; eauto.
Qed.

(** X11.  When the service lists no domain, [generate_temp_email]
    gives up at once: one request, the warning, no pause and no second
    attempt, the failure line, and [(None, None)]. *)
Theorem generate_temp_email_gives_up_without_domains :
  forall w : World,
    list_domains (service w) (sent w) = Served [] ->
    exists w',
      generate_temp_email w = (Ok (None, None), w')
      /\ sent w' = S (sent w)
      /\ trace w'
         = Printed "Failed to create Mail.tm account after 3 attempts."
           :: Logged WARNING "No domains available from Mail.tm"
           :: Sent "GET" (api "/domains") :: trace w.
Proof.
  intros w L.
  assert (C : create_mailbox w
              = (Ok Break,
                 with_trace (Logged WARNING "No domains available from Mail.tm"
                               :: Sent "GET" (api "/domains") :: trace w)
                            (with_sent (S (sent w)) w))).
  { unfold create_mailbox. unfold bind at 1. unfold http. rewrite L.
    reflexivity. }
  assert (P : provision_attempt 0 w
              = (Ok Break,
                 with_trace (Logged WARNING "No domains available from Mail.tm"
                               :: Sent "GET" (api "/domains") :: trace w)
                            (with_sent (S (sent w)) w))).
  { unfold provision_attempt, try_except. now rewrite C. }
  eexists. unfold generate_temp_email.
  change (Z.to_nat retries) with 3%nat. cbn [for_range].
  rewrite bind_assoc, (bind_ok _ _ _ _ _ P).
  split; [ reflexivity | ]. split; reflexivity.
Qed.

Lemma generate_temp_email_gives_up_without_domains_witness :
  exists w',
    generate_temp_email (fresh no_domains (fun _ => 0)) = (Ok (None, None), w')
    /\ sent w' = 1%nat
    /\ trace w'
       = [Printed "Failed to create Mail.tm account after 3 attempts.";
          Logged WARNING "No domains available from Mail.tm";
          Sent "GET" (api "/domains")].
Proof.
  apply (generate_temp_email_gives_up_without_domains
           (fresh no_domains (fun _ => 0))).
  reflexivity.
Defined.

(** ** Identities *)

Lemma Quiet_generated_email self first_name last_name country :
  Quiet (email <- generate_email self first_name last_name country ;;
         ret (email, @None string)).
Proof.
  apply Quiet_bind; [ apply Quiet_generate_email | intros; apply Quiet_ret ].
Qed.

Lemma Quiet_choose_email self first_name last_name country use_temp_email
      manual_email :
  (use_temp_email && negb (truthy_opt manual_email))%bool = false ->
  Quiet (choose_email self first_name last_name country use_temp_email
                      manual_email).
Proof.
  intros H. unfold choose_email.
  destruct manual_email as [given |]; cbn [truthy_opt] in H.
  - destruct (truthy given); [ apply Quiet_ret | ].
    destruct use_temp_email; [ discriminate | apply Quiet_generated_email ].
  - destruct use_temp_email; [ discriminate | apply Quiet_generated_email ].
Qed.

(** What a returned identity is made of. *)
Lemma generate_identity_inv self country gender use_temp_email manual_email
      min_age max_age w identity w' :
  generate_identity self country gender use_temp_email manual_email
                    min_age max_age w = (Ok identity, w') ->
  exists names w1 mail w2 phone address w3 username w4 birthdate password
         created,
    generate_name self gender country w = (Ok names, w1)
    /\ choose_email self (fst names) (snd names) country use_temp_email
                    manual_email w1 = (Ok mail, w2)
    /\ generate_username (fst names) (snd names) w3 = (Ok username, w4)
    /\ identity
       = (let record :=
            [("first_name", Str (fst names));
             ("last_name", Str (snd names));
             ("full_name", Str (fst names ++ " " ++ snd names));
             ("email", Str (fst mail));
             ("phone", Str phone);
             ("address", Sub address);
             ("username", Str username);
             ("birthdate", Str birthdate);
             ("password", Str password);
             ("created", Str created)] in
          match snd mail with
          | Some token =>
              if truthy token
              then dict_set record "email_token" (Str token)
              else record
          | None => record
          end).
Proof.
  unfold generate_identity. intros H.
  apply bind_inv_ok in H as [names [w1 [Hn H]]]. cbv zeta in H.
  apply bind_inv_ok in H as [mail [w2 [Hm H]]].
  apply bind_inv_ok in H as [phone [w2' [_ H]]].
  apply bind_inv_ok in H as [address [w3 [_ H]]].
  apply bind_inv_ok in H as [username [w4 [Hu H]]].
  apply bind_inv_ok in H as [birthdate [w5 [_ H]]].
  apply bind_inv_ok in H as [password [w6 [_ H]]].
  apply bind_inv_ok in H as [t [w7 [_ H]]].
  exists names, w1, mail, w2, phone, address, w3, username, w4, birthdate,
         password, (created_stamp t).
  repeat (split; [ assumption | ]). cbv zeta.
  destruct (snd mail) as [token |]; [ destruct (truthy token) | ];
    unfold ret in H; now injection H as <- _.
Qed.

(** X12.  In every identity [generate_identity] returns, [full_name] is
    the first name, a space and the last name, and [username] is the
    two names in lower case followed by four more characters. *)
Theorem generate_identity_names_agree :
  forall self country gender use_temp_email manual_email min_age max_age
         w identity w',
    generate_identity self country gender use_temp_email manual_email
                      min_age max_age w = (Ok identity, w') ->
    exists first_name last_name suffix,
      dict_get identity "first_name" = Some (Str first_name)
      /\ dict_get identity "last_name" = Some (Str last_name)
      /\ dict_get identity "full_name"
         = Some (Str (first_name ++ " " ++ last_name))
      /\ dict_get identity "username"
         = Some (Str ((lower first_name ++ lower last_name) ++ suffix))
      /\ String.length suffix = 4%nat.
Proof.
  intros self country gender use_temp_email manual_email min_age max_age
         w identity w' H.
  apply generate_identity_inv in H
    as [names [w1 [mail [w2 [phone [address [w3 [username [w4 [birthdate
       [password [created [_ [_ [Hu ->]]]]]]]]]]]]]]].
  destruct (token_hex_form 2 w3) as [suffix [w4' [Ht [Hl _]]]].
  unfold generate_username in Hu. rewrite (bind_ok _ _ _ _ _ Ht) in Hu.
  unfold ret in Hu. injection Hu as <- _.
  exists (fst names), (snd names), suffix. cbv zeta.
  destruct (snd mail) as [token |]; [ destruct (truthy token) | ];
    repeat split; try reflexivity; exact Hl.
Qed.

Lemma generate_identity_names_agree_witness :
  exists identity w' first_name last_name suffix,
    generate_identity fallback "US" "male" false None 18 65
                      (fresh offline (fun _ => 0)) = (Ok identity, w')
    /\ dict_get identity "first_name" = Some (Str first_name)
    /\ dict_get identity "last_name" = Some (Str last_name)
    /\ dict_get identity "full_name"
       = Some (Str (first_name ++ " " ++ last_name))
    /\ dict_get identity "username"
       = Some (Str ((lower first_name ++ lower last_name) ++ suffix))
    /\ String.length suffix = 4%nat.
Proof.
  destruct (generate_identity fallback "US" "male" false None 18 65
                              (fresh offline (fun _ => 0)))
    as [[identity | e] w'] eqn:R; [ | vm_compute in R; discriminate R ].
  destruct (generate_identity_names_agree _ _ _ _ _ _ _ _ _ _ R)
    as [first_name [last_name [suffix H]]].
  exists identity, w', first_name, last_name, suffix.
  split; [ reflexivity | exact H ].
Defined.

Lemma Quiet_generate_identity self country gender use_temp_email manual_email
      min_age max_age :
  (use_temp_email && negb (truthy_opt manual_email))%bool = false ->
  Quiet (generate_identity self country gender use_temp_email manual_email
                           min_age max_age).
Proof.
  intros Hm. unfold generate_identity.
  apply Quiet_bind; [ apply Quiet_generate_name | intros names ]. cbv zeta.
  apply Quiet_bind; [ now apply Quiet_choose_email | intros mail ].
  apply Quiet_bind; [ apply Quiet_generate_phone | intros phone ].
  apply Quiet_bind; [ apply Quiet_generate_address | intros address ].
  apply Quiet_bind; [ apply Quiet_generate_username | intros username ].
  apply Quiet_bind; [ apply Quiet_generate_birthdate | intros birthdate ].
  apply Quiet_bind; [ apply Quiet_generate_password | intros password ].
  apply Quiet_bind; [ apply Quiet_now | intros t ].
  destruct (snd mail) as [token |]; [ destruct (truthy token) | ];
    apply Quiet_ret.
Qed.

(** X13.  Unless a mailbox is asked for ([use_temp_email] without a
    manual address), [generate_identity] stays local: however it ends,
    it has sent no request, printed and logged nothing and written no
    file; and an identity it returns carries no [email_token]. *)
Theorem generate_identity_without_mailbox_is_local :
  forall self country gender use_temp_email manual_email min_age max_age
         w r w',
    (use_temp_email && negb (truthy_opt manual_email))%bool = false ->
    generate_identity self country gender use_temp_email manual_email
                      min_age max_age w = (r, w') ->
    quiet w w'
    /\ forall identity, r = Ok identity ->
                        dict_has identity "email_token" = false.
Proof.
  intros self country gender use_temp_email manual_email min_age max_age
         w r w' Hm H. split.
  - eapply Quiet_generate_identity; eauto.
  - intros identity ->.
    apply generate_identity_inv in H
      as [names [w1 [mail [w2 [phone [address [w3 [username [w4 [birthdate
         [password [created [_ [Hc [_ ->]]]]]]]]]]]]]]].
    assert (Hnone : snd mail = None).
    { unfold choose_email in Hc.
      assert (Hgen : forall w0,
                 (email <- generate_email self (fst names) (snd names)
                                          country ;;
                  ret (email, @None string)) w0 = (Ok mail, w2) ->
                 snd mail = None).
      { intros w0 Hg. apply bind_inv_ok in Hg as [email [w0' [_ Hg]]].
        unfold ret in Hg. now injection Hg as <- _. }
      destruct manual_email as [given |]; cbn [truthy_opt] in Hm.
      - destruct (truthy given).
        + unfold ret in Hc. now injection Hc as <- _.
        + destruct use_temp_email; [ discriminate | eapply Hgen; eauto ].
      - destruct use_temp_email; [ discriminate | eapply Hgen; eauto ]. }
    cbv zeta. rewrite Hnone. reflexivity.
Qed.

Lemma generate_identity_without_mailbox_is_local_witness :
  exists r w',
    generate_identity fallback "US" "any" true (Some "me@example.org") 18 65
                      (fresh obliging (fun _ => 0)) = (r, w')
    /\ quiet (fresh obliging (fun _ => 0)) w'
    /\ forall identity, r = Ok identity ->
                        dict_has identity "email_token" = false.
Proof.
  destruct (generate_identity fallback "US" "any" true (Some "me@example.org")
                              18 65 (fresh obliging (fun _ => 0)))
    as [r w'] eqn:R.
  exists r, w'. split; [ reflexivity | ].
  apply (generate_identity_without_mailbox_is_local
           fallback "US" "any" true (Some "me@example.org") 18 65
           (fresh obliging (fun _ => 0)) r w');
    [ reflexivity | exact R ].
Defined.

(** X14.  A non-empty manual address is used as it is, whether or not
    a mailbox is asked for. *)
Theorem generate_identity_keeps_manual_email :
  forall self country gender use_temp_email given min_age max_age
         w identity w',
    truthy given = true ->
    generate_identity self country gender use_temp_email (Some given)
                      min_age max_age w = (Ok identity, w') ->
    dict_get identity "email" = Some (Str given).
Proof.
  intros self country gender use_temp_email given min_age max_age
         w identity w' Hg H.
  apply generate_identity_inv in H
    as [names [w1 [mail [w2 [phone [address [w3 [username [w4 [birthdate
       [password [created [_ [Hc [_ ->]]]]]]]]]]]]]]].
  unfold choose_email in Hc. rewrite Hg in Hc. unfold ret in Hc.
  injection Hc as <- _. reflexivity.
Qed.

Lemma generate_identity_keeps_manual_email_witness :
  exists identity w',
    generate_identity fallback "US" "any" true (Some "me@example.org") 18 65
                      (fresh obliging (fun _ => 0)) = (Ok identity, w')
    /\ dict_get identity "email" = Some (Str "me@example.org").
Proof.
  destruct (generate_identity fallback "US" "any" true (Some "me@example.org")
                              18 65 (fresh obliging (fun _ => 0)))
    as [[identity | e] w'] eqn:R; [ | vm_compute in R; discriminate R ].
  exists identity, w'. split; [ reflexivity | ].
  apply (generate_identity_keeps_manual_email
           fallback "US" "any" true "me@example.org" 18 65
           (fresh obliging (fun _ => 0)) identity w');
    [ reflexivity | exact R ].
Defined.

(** X15.  An identity carries an [email_token] only for a mailbox the
    service created: the token is not empty, it is the one the service
    issued for the identity's [email] and one password, after accepting
    the account, and the address is on a domain the service listed. *)
Theorem generate_identity_token_is_issued :
  forall self country gender use_temp_email manual_email min_age max_age
         w identity w' value,
    generate_identity self country gender use_temp_email manual_email
                      min_age max_age w = (Ok identity, w') ->
    dict_get identity "email_token" = Some value ->
    exists email token n,
      value = Str token
      /\ truthy token = true
      /\ use_temp_email = true
      /\ truthy_opt manual_email = false
      /\ dict_get identity "email" = Some (Str email)
      /\ (sent w <= n)%nat
      /\ mailbox_of (service w) n (Some email, Some token).
Proof.
  intros self country gender use_temp_email manual_email min_age max_age
         w identity w' value H Hv.
  apply generate_identity_inv in H
    as [names [w1 [mail [w2 [phone [address [w3 [username [w4 [birthdate
       [password [created [Hn [Hc [_ ->]]]]]]]]]]]]]]].
  cbv zeta in Hv.
  destruct (snd mail) as [token |] eqn:Hs; [ | discriminate Hv ].
  destruct (truthy token) eqn:Ht; [ | discriminate Hv ].
  injection Hv as <-.
  destruct (Quiet_generate_name self gender country w _ _ Hn)
    as [Hsv [Hsn _]].
  assert (Hgen : forall w0,
             (email <- generate_email self (fst names) (snd names) country ;;
              ret (email, @None string)) w0 = (Ok mail, w2) -> False).
  { intros w0 Hg. apply bind_inv_ok in Hg as [email [w0' [_ Hg]]].
    unfold ret in Hg. injection Hg as <- _. discriminate Hs. }
  assert (Hprov : (got <- generate_temp_email ;;
                   if truthy_opt (fst got)
                   then ret (match fst got with
                             | Some email => email
                             | None => ""
                             end, snd got)
                   else (email <- generate_email self (fst names) (snd names)
                                                 country ;;
                         ret (email, @None string))) w1 = (Ok mail, w2) ->
                  exists n, (sent w <= n)%nat
                            /\ mailbox_of (service w) n
                                          (Some (fst mail), Some token)).
  { intros Hp. apply bind_inv_ok in Hp as [got [w1' [Hg Hp]]].
    destruct (truthy_opt (fst got)) eqn:Hgot;
      [ | exfalso; eapply Hgen; eauto ].
    unfold ret in Hp. injection Hp as <- _. cbn [fst snd] in *.
    apply generate_temp_email_mailbox in Hg as [-> | [n [Hle Hbox]]];
      [ discriminate Hgot | ].
    exists n. rewrite <- Hsv, <- Hsn. split; [ exact Hle | ].
    destruct got as [[email |] tok]; [ | discriminate Hgot ].
    cbn [fst snd] in *. now rewrite <- Hs. }
  unfold choose_email in Hc.
  destruct manual_email as [given |]; cbn [truthy_opt].
  - destruct (truthy given) eqn:Hg.
    + unfold ret in Hc. injection Hc as <- _. discriminate Hs.
    + destruct use_temp_email; [ | exfalso; eapply Hgen; eauto ].
      destruct (Hprov Hc) as [n [Hle Hbox]].
      exists (fst mail), token, n. repeat split; auto.
  - destruct use_temp_email; [ | exfalso; eapply Hgen; eauto ].
    destruct (Hprov Hc) as [n [Hle Hbox]].
    exists (fst mail), token, n. repeat split; auto.
Qed.

Lemma generate_identity_token_is_issued_witness :
  exists identity w' email token n,
    generate_identity fallback "US" "any" true None 18 65
                      (fresh obliging (fun _ => 0)) = (Ok identity, w')
    /\ dict_get identity "email_token" = Some (Str token)
    /\ truthy token = true
    /\ dict_get identity "email" = Some (Str email)
    /\ mailbox_of obliging n (Some email, Some token).
Proof.
  destruct (generate_identity fallback "US" "any" true None 18 65
                              (fresh obliging (fun _ => 0)))
    as [[identity | e] w'] eqn:R; [ | vm_compute in R; discriminate R ].
  assert (Hv : dict_get identity "email_token" = Some (Str "tok-1")).
  { vm_compute in R. injection R as <- _. reflexivity. }
  destruct (generate_identity_token_is_issued
              fallback "US" "any" true None 18 65
              (fresh obliging (fun _ => 0)) identity w' (Str "tok-1") R Hv)
    as [email [token [n [Hval [Ht [_ [_ [He [_ Hbox]]]]]]]]].
  exists identity, w', email, token, n.
  split; [ reflexivity | ]. split; [ now rewrite Hv, Hval | ].
  repeat split; assumption.
Defined.

(** X16.  With no email domain configured, [generate_email] raises
    [IndexError] before it draws anything, and so does
    [generate_identity] once the name is drawn, unless a manual address
    or a mailbox is asked for. *)
Theorem generate_email_needs_a_domain :
  forall self : Generator,
    domains self = [] ->
    (forall first_name last_name country w,
        generate_email self first_name last_name country w
        = (Raise IndexError, w))
    /\ (forall country gender manual_email min_age max_age w names w1,
           truthy_opt manual_email = false ->
           generate_name self gender country w = (Ok names, w1) ->
           generate_identity self country gender false manual_email
                             min_age max_age w
           = (Raise IndexError, w1)).
Proof.
  intros self Hd.
  assert (He : forall first_name last_name country w,
             generate_email self first_name last_name country w
             = (Raise IndexError, w)).
  { intros. unfold generate_email. rewrite Hd. reflexivity. }
  split; [ exact He | ].
  intros country gender manual_email min_age max_age w names w1 Hm Hn.
  unfold generate_identity. rewrite (bind_ok _ _ _ _ _ Hn). cbv zeta.
  apply bind_raise. unfold choose_email.
  destruct manual_email as [given |]; cbn [truthy_opt] in Hm;
    [ rewrite Hm | ]; apply bind_raise, He.
Qed.

Lemma generate_email_needs_a_domain_witness :
  generate_email no_email_domains "Ada" "Byron" "US" (fresh offline (fun _ => 0))
  = (Raise IndexError, fresh offline (fun _ => 0))
  /\ exists names w1,
       generate_name no_email_domains "male" "US" (fresh offline (fun _ => 0))
       = (Ok names, w1)
       /\ generate_identity no_email_domains "US" "male" false None 18 65
                            (fresh offline (fun _ => 0))
          = (Raise IndexError, w1).
Proof.
  destruct (generate_email_needs_a_domain no_email_domains eq_refl)
    as [He Hi].
  split; [ apply He | ].
  destruct (generate_name no_email_domains "male" "US"
                          (fresh offline (fun _ => 0)))
    as [[names | e] w1] eqn:R; [ | vm_compute in R; discriminate R ].
  exists names, w1. split; [ reflexivity | ].
  exact (Hi "US" "male" None 18 65 _ names w1 eq_refl R).
Defined.

(** ** Reading the inbox *)

(** X17.  [check_inbox] does not catch pattern errors: when the first
    message is fetched and its text is searched with a pattern that
    does not compile, [re.error] escapes after the two requests, with
    nothing logged and no pause. *)
Theorem check_inbox_lets_pattern_errors_escape :
  forall (re_search : string -> string -> searched)
         (token code_pattern link_pattern : string)
         (poll_attempts : Z) (poll_interval : Q)
         (w : World) (m : string) (rest : list string) (content : string),
    1 <= poll_attempts ->
    list_messages (service w) (sent w) token = Served (m :: rest) ->
    fetch_message (service w) (S (sent w)) token m = Served content ->
    re_search code_pattern content = BadPattern
    \/ (re_search code_pattern content = NoMatch
        /\ re_search link_pattern content = BadPattern) ->
    exists w',
      check_inbox re_search token code_pattern link_pattern poll_attempts
                  poll_interval w = (Raise ReError, w')
      /\ trace w'
         = Sent "GET" (api ("/messages/" ++ m))
           :: Sent "GET" (api "/messages") :: trace w.
Proof.
  intros re_search token code_pattern link_pattern poll_attempts poll_interval
         w m rest content Hn Hl Hf Hbad.
  destruct (Z.to_nat poll_attempts) as [| n] eqn:En; [ lia | ].
  set (w2 := with_sent (S (S (sent w)))
               (with_trace (Sent "GET" (api ("/messages/" ++ m))
                              :: Sent "GET" (api "/messages") :: trace w) w)).
  assert (Hscan : (messages <- http "GET" (api "/messages")
                                    (fun s n => list_messages s n token) ;;
                   scan_messages re_search token code_pattern link_pattern
                                 messages) w
                  = (Raise ReError, w2)).
  { unfold bind at 1. unfold http at 1. rewrite Hl.
    cbn [scan_messages]. unfold bind at 1. unfold http at 1.
    cbn [service sent with_sent with_trace]. rewrite Hf.
    unfold search.
    destruct Hbad as [Hc | [Hc Hk]].
    - rewrite Hc. reflexivity.
    - rewrite Hc. unfold bind at 1. unfold ret at 1. rewrite Hk. reflexivity. }
  exists w2. split; [ | reflexivity ].
  unfold check_inbox. rewrite En. cbn [for_range].
  rewrite bind_assoc. unfold poll. rewrite bind_assoc.
  apply bind_raise. unfold try_except. rewrite Hscan. reflexivity.
Qed.

Lemma check_inbox_lets_pattern_errors_escape_witness :
  exists w',
    check_inbox rejecting_engine "tok" "(" "x" 5 (2 # 1)
                (fresh one_message (fun _ => 0)) = (Raise ReError, w')
    /\ trace w'
       = [Sent "GET" (api "/messages/m1"); Sent "GET" (api "/messages")].
Proof.
  apply (check_inbox_lets_pattern_errors_escape
           rejecting_engine "tok" "(" "x" 5 (2 # 1)
           (fresh one_message (fun _ => 0)) "m1" []
           "Your code is 483920, or open https://example.com/confirm?t=1 now");
    [ lia | reflexivity | reflexivity | left; reflexivity ].
Defined.

(** ** Loading the tables *)

Lemma all_in_container ks v :
  container v = true -> exists b, Config.all_in ks v = Ok b.
Proof.
  intros Hc. induction ks as [| k rest IH]; [ now exists true | ].
  cbn [Config.all_in].
  destruct v as [| | | s | items | members]; try discriminate Hc;
    cbn [Config.py_in].
  - destruct (contains k s); [ exact IH | now exists false ].
  - destruct (existsb (Config.eq_str k) items); [ exact IH | now exists false ].
  - destruct (dict_has members k); [ exact IH | now exists false ].
Qed.

Lemma check_runs t v :
  (t = Config.FirstNames -> container v = true) ->
  exists b, Config.check t v = Ok b.
Proof.
  intros H. destruct t; cbn [Config.check]; eauto.
  apply all_in_container. now apply H.
Qed.

Lemma load_not_utf8 dir t s :
  dir t = Config.NotUtf8 ->
  Config.load dir t s = (Raise UnicodeDecodeError, s).
Proof.
  intros Hd. unfold Config.load, Config.read_json, bind, raise. now rewrite Hd.
Qed.

(** X1.  When the six files decode and [first_names.json] holds a
    dict, a list or a string, the constructor succeeds and every table
    is what its file holds, whether or not it passed its shape check: a
    failed check only adds its warning, in file order. *)
Theorem init_keeps_what_the_files_hold :
  forall dir : Config.ConfigDir,
    (forall t, exists v, dir t = Config.Holds v) ->
    (forall v, dir Config.FirstNames = Config.Holds v -> container v = true) ->
    exists l : Config.Loaded,
      Config.init dir = (Ok l, flat_map (failed_check dir) all_tables)
      /\ forall t, dir t = Config.Holds (Config.table l t).
Proof.
  intros dir Hall Hfirst.
  assert (Hrun : forall t, exists v b,
               dir t = Config.Holds v /\ Config.check t v = Ok b).
  { intros t. destruct (Hall t) as [v Hv].
    destruct (check_runs t v) as [b Hb].
    - intros ->. now apply Hfirst.
    - now exists v, b. }
  destruct (Hrun Config.FirstNames) as [v1 [b1 [D1 C1]]].
  destruct (Hrun Config.LastNames) as [v2 [b2 [D2 C2]]].
  destruct (Hrun Config.Domains) as [v3 [b3 [D3 C3]]].
  destruct (Hrun Config.Streets) as [v4 [b4 [D4 C4]]].
  destruct (Hrun Config.Addresses) as [v5 [b5 [D5 C5]]].
  destruct (Hrun Config.PhoneFormats) as [v6 [b6 [D6 C6]]].
  unfold Config.init, try_except, Config.load_all.
  rewrite (bind_ok _ _ _ _ _ (load_holds dir _ _ _ _ D1 C1)).
  rewrite (bind_ok _ _ _ _ _ (load_holds dir _ _ _ _ D2 C2)).
  rewrite (bind_ok _ _ _ _ _ (load_holds dir _ _ _ _ D3 C3)).
  rewrite (bind_ok _ _ _ _ _ (load_holds dir _ _ _ _ D4 C4)).
  rewrite (bind_ok _ _ _ _ _ (load_holds dir _ _ _ _ D5 C5)).
  rewrite (load_holds dir _ _ _ _ D6 C6).
  eexists. split.
  - unfold all_tables, failed_check. cbn [flat_map].
    rewrite D1, D2, D3, D4, D5, D6, C1, C2, C3, C4, C5, C6.
    destruct b1, b2, b3, b4, b5, b6; reflexivity.
  - intros t. destruct t; cbn; assumption.
Qed.

Lemma init_keeps_what_the_files_hold_witness :
  exists l : Config.Loaded,
    Config.init two_bad_shapes
    = (Ok l, [Config.ValidationFailed Config.FirstNames;
              Config.ValidationFailed Config.Domains])
    /\ forall t, two_bad_shapes t = Config.Holds (Config.table l t).
Proof.
  apply (init_keeps_what_the_files_hold two_bad_shapes).
  - intros t. destruct t; eexists; reflexivity.
  - intros v H. injection H as <-. reflexivity.
Defined.

(** X2.  When [first_names.json] decodes to [null], a boolean or a
    number, the constructor raises [TypeError], whatever the other
    files hold, and no warning is emitted. *)
Theorem init_raises_on_first_names_without_membership :
  forall (dir : Config.ConfigDir) (v : Config.json),
    dir Config.FirstNames = Config.Holds v ->
    container v = false ->
    Config.init dir = (Raise TypeError, []).
Proof.
  intros dir v Hd Hc.
  assert (Hl : forall s, Config.load dir Config.FirstNames s
                         = (Raise TypeError,
                            {| Config.tables :=
                                 Config.set_table Config.FirstNames v
                                                  (Config.tables s);
                               Config.warnings := Config.warnings s |})).
  { intros s. unfold Config.load, Config.read_json. rewrite Hd.
    destruct v; try discriminate Hc; reflexivity. }
  unfold Config.init, try_except, Config.load_all.
  rewrite (bind_raise _ _ _ _ _ (Hl _)). reflexivity.
Qed.

Lemma init_raises_on_first_names_without_membership_witness :
  Config.init number_first_names = (Raise TypeError, []).
Proof.
  apply (init_raises_on_first_names_without_membership
           number_first_names (Config.JNumber "5"));
    reflexivity.
Defined.

(** X3.  A file that is not UTF-8 text makes the constructor raise
    [UnicodeDecodeError]: when the files before it hold tables that
    pass their checks, nothing is caught and no warning is emitted. *)
Theorem init_raises_on_undecodable_text :
  forall (dir : Config.ConfigDir) (t : Config.TableId),
    dir t = Config.NotUtf8 ->
    (forall t', (Config.rank t' < Config.rank t)%nat ->
                exists v, dir t' = Config.Holds v
                          /\ Config.check t' v = Ok true) ->
    Config.init dir = (Raise UnicodeDecodeError, []).
Proof.
  intros dir t Hbad Hprev.
  unfold Config.init, try_except, Config.load_all.
  destruct t; unfold bind;
    repeat load_next dir Hprev;
    rewrite (load_not_utf8 dir _ _ Hbad); reflexivity.
Qed.

Lemma init_raises_on_undecodable_text_witness :
  Config.init garbled_streets = (Raise UnicodeDecodeError, []).
Proof.
  apply (init_raises_on_undecodable_text garbled_streets Config.Streets).
  - reflexivity.
  - intros t' Hlt. destruct t'; cbn in Hlt; try lia;
      eexists; split; reflexivity.
Defined.

(** ** Writing CSV files *)

Lemma dict_set_twice {V} (d : dict V) k a b :
  dict_set (dict_set d k a) k b = dict_set d k b.
Proof.
  induction d as [| [k' v'] rest IH]; simpl.
  - now rewrite String.eqb_refl.
  - destruct (String.eqb k k') eqn:E; simpl; rewrite E; [ reflexivity | ].
    now rewrite IH.
Qed.

Lemma dict_set_held {V} (d : dict V) k v :
  dict_get d k = Some v -> dict_set d k v = d.
Proof.
  induction d as [| [k' v'] rest IH]; [ discriminate | ].
  cbn. destruct (String.eqb k k') eqn:E.
  - intros H. now injection H as ->.
  - intros H. now rewrite IH.
Qed.

Lemma filter_nil {A} (p : A -> bool) (l : list A) :
  filter p l = [] <-> forall x, In x l -> p x = false.
Proof.
  induction l as [| a l IH]; cbn [filter].
  - split; [ intros _ x [] | reflexivity ].
  - destruct (p a) eqn:E.
    + split; [ discriminate | ].
      intros H. specialize (H a (or_introl eq_refl)). congruence.
    + rewrite IH. split.
      * intros H x [<- | Hx]; auto.
      * intros H x Hx. apply H. now right.
Qed.

Lemma wrong_fields_fits fieldnames row :
  fits fieldnames row <-> wrong_fields fieldnames row = [].
Proof.
  unfold fits, wrong_fields. rewrite filter_nil.
  split; intros H k Hk; specialize (H k Hk).
  - apply Bool.negb_false_iff, existsb_exists. exists k.
    split; [ exact H | apply String.eqb_refl ].
  - apply Bool.negb_false_iff, existsb_exists in H as [x [Hx Ex]].
    apply String.eqb_eq in Ex. now subst x.
Qed.

Lemma dict_to_list_fits fieldnames row :
  fits fieldnames row ->
  dict_to_list fieldnames row = Ok (cells_of fieldnames row).
Proof.
  intros H. apply wrong_fields_fits in H. unfold dict_to_list.
  now rewrite H.
Qed.

Lemma dict_to_list_misfit fieldnames row k :
  In k (keys row) -> ~ In k fieldnames ->
  dict_to_list fieldnames row = Raise ValueError.
Proof.
  intros Hk Hn. unfold dict_to_list.
  destruct (wrong_fields fieldnames row) eqn:E; [ | reflexivity ].
  apply wrong_fields_fits in E. exfalso. apply Hn. now apply E.
Qed.

Lemma fits_own_keys (row : dict string) : fits (keys row) row.
Proof. intros k Hk. exact Hk. Qed.

(** Rows that fit are appended in order; the first that does not fit
    stops the writing. *)
Lemma writerows_fits filename fieldnames rows :
  forall w written,
    dict_get (disk w) filename = Some (Csv written) ->
    Forall (fits fieldnames) rows ->
    writerows filename fieldnames rows w
    = (Ok tt,
       with_disk (dict_set (disk w) filename
                           (Csv (written ++ map (cells_of fieldnames) rows)))
                 w).
Proof.
  induction rows as [| row rest IH]; intros w written Hd Hall.
  - cbn [writerows map]. rewrite app_nil_r. unfold ret. f_equal.
    rewrite (dict_set_held _ _ _ Hd). now destruct w.
  - inversion Hall as [| ? ? Hrow Hrest]; subst.
    cbn [writerows]. unfold bind at 1. unfold lift at 1.
    rewrite (dict_to_list_fits _ _ Hrow).
    unfold bind at 1. unfold append_row at 1. unfold modify at 1.
    rewrite Hd.
    rewrite (IH _ (written ++ [cells_of fieldnames row])%list);
      [ | cbn [disk with_disk]; apply dict_get_set_same | exact Hrest ].
    cbn [disk with_disk map]. rewrite dict_set_twice, <- app_assoc.
    reflexivity.
Qed.

Lemma writerows_stops filename fieldnames before bad after k :
  forall w written,
    dict_get (disk w) filename = Some (Csv written) ->
    Forall (fits fieldnames) before ->
    In k (keys bad) -> ~ In k fieldnames ->
    writerows filename fieldnames (before ++ bad :: after) w
    = (Raise ValueError,
       with_disk (dict_set (disk w) filename
                           (Csv (written ++ map (cells_of fieldnames) before)))
                 w).
Proof.
  induction before as [| row rest IH]; intros w written Hd Hall Hk Hn.
  - cbn [app writerows map]. unfold bind at 1. unfold lift at 1.
    rewrite (dict_to_list_misfit _ _ _ Hk Hn). rewrite app_nil_r. f_equal.
    rewrite (dict_set_held _ _ _ Hd). now destruct w.
  - inversion Hall as [| ? ? Hrow Hrest]; subst.
    cbn [app writerows]. unfold bind at 1. unfold lift at 1.
    rewrite (dict_to_list_fits _ _ Hrow).
    unfold bind at 1. unfold append_row at 1. unfold modify at 1.
    rewrite Hd.
    rewrite (IH _ (written ++ [cells_of fieldnames row])%list);
      [ | cbn [disk with_disk]; apply dict_get_set_same | exact Hrest
        | exact Hk | exact Hn ].
    cbn [disk with_disk map]. rewrite dict_set_twice, <- app_assoc.
    reflexivity.
Qed.

(** [save_identity] in the CSV branch, up to the rows. *)
Lemma save_csv_run first rest encrypt_password w :
  save_identity (first :: rest) "csv" encrypt_password w
  = (let opened :=
       with_disk (dict_set (disk w) (csv_name w) (Csv [keys (flatten first)]))
         (with_trace (Opened (csv_name w) :: trace w)
            (with_glanced (S (glanced w)) w)) in
     match writerows (csv_name w) (keys (flatten first))
                     (map flatten (first :: rest)) opened with
     | (Ok _, w2) =>
         (Ok tt,
          with_trace (Logged INFO ("Identities saved to " ++ csv_name w)
                        :: Printed ("Identities saved to " ++ csv_name w)
                        :: trace w2) w2)
     | (Raise e, w2) => (Raise e, w2)
     end).
Proof.
  unfold save_identity, csv_name.
  unfold bind at 1. unfold now at 1.
  set (filename := "data/identities_" ++ file_stamp (wallclock w (glanced w))
                     ++ ".csv").
  cbn [String.eqb Ascii.eqb Bool.eqb].
  unfold bind at 1. unfold bind at 1. unfold open_w at 1.
  unfold bind at 1. unfold emit at 1. unfold modify at 1.
  unfold put_file at 1. unfold modify at 1.
  cbn [map first_of]. unfold bind at 1. unfold lift at 1.
  unfold bind at 1. unfold append_row at 1. unfold modify at 1.
  cbn [disk with_disk with_trace with_glanced]. rewrite dict_get_set_same.
  unfold bind at 1. cbn [app]. rewrite dict_set_twice.
  cbv zeta. cbn [map].
  set (opened := with_disk (dict_set (disk w) filename
                                     (Csv [keys (flatten first)]))
                   (with_trace (Opened filename :: trace w)
                      (with_glanced (S (glanced w)) w))).
  match goal with
  | |- context [with_disk ?d (with_disk ?d0 ?w0)] =>
      change (with_disk d (with_disk d0 w0)) with opened
  end.
  destruct (writerows filename (keys (flatten first))
                      (flatten first :: map flatten rest) opened)
    as [[[] | e] w2]; reflexivity.
Qed.

(** X18.  When every record has only fields the first record has,
    the CSV export succeeds whatever password is given: the file holds
    the header of the first record, then one row per record in order,
    with an empty cell where a record lacks a field. *)
Theorem save_csv_writes_a_row_per_record :
  forall (first : Identity) (rest : list Identity)
         (encrypt_password : option string) (w : World),
    Forall (fun identity => fits (keys (flatten first)) (flatten identity))
           rest ->
    exists w',
      save_identity (first :: rest) "csv" encrypt_password w = (Ok tt, w')
      /\ disk w'
         = dict_set (disk w) (csv_name w)
                    (Csv (keys (flatten first) :: csv_rows first (first :: rest)))
      /\ trace w'
         = Logged INFO ("Identities saved to " ++ csv_name w)
           :: Printed ("Identities saved to " ++ csv_name w)
           :: Opened (csv_name w) :: trace w.
Proof.
  intros first rest encrypt_password w Hall.
  rewrite save_csv_run. cbv zeta.
  rewrite (writerows_fits _ _ _ _ [keys (flatten first)]).
  - eexists. split; [ reflexivity | ].
    cbn [disk trace with_disk with_trace with_glanced].
    rewrite dict_set_twice. unfold csv_rows. rewrite map_map.
    split; reflexivity.
  - cbn [disk with_disk]. apply dict_get_set_same.
  - cbn [map]. constructor; [ apply fits_own_keys | ].
    apply Forall_map. exact Hall.
Qed.

Lemma save_csv_writes_a_row_per_record_witness :
  exists w',
    save_identity
      [[("email", Str "a@example.com"); ("email_token", Str "t0k3n")];
       [("email", Str "b@example.com")]]
      "csv" (Some "hunter2") (fresh offline (fun _ => 0)) = (Ok tt, w')
    /\ disk w'
       = [("data/identities_20250615_120000.csv",
           Csv [["email"; "email_token"];
                ["a@example.com"; "t0k3n"];
                ["b@example.com"; ""]])].
Proof.
  destruct (save_csv_writes_a_row_per_record
              [("email", Str "a@example.com"); ("email_token", Str "t0k3n")]
              [[("email", Str "b@example.com")]]
              (Some "hunter2") (fresh offline (fun _ => 0)))
    as [w' [R [Hd _]]].
  - constructor; [ | constructor ].
    intros k [<- | []]. now left.
  - exists w'. split; [ exact R | ]. rewrite Hd. reflexivity.
Defined.

(** X19.  The CSV export stops at the first record that has a field
    the first record lacks: [ValueError] is raised, the file keeps the
    header and the rows of the records before it, and the export is
    not announced. *)
Theorem save_csv_stops_at_an_unknown_field :
  forall (first : Identity) (before : list Identity) (bad : Identity)
         (after : list Identity) (k : string)
         (encrypt_password : option string) (w : World),
    Forall (fun identity => fits (keys (flatten first)) (flatten identity))
           before ->
    In k (keys (flatten bad)) ->
    ~ In k (keys (flatten first)) ->
    exists w',
      save_identity (first :: before ++ bad :: after) "csv" encrypt_password w
      = (Raise ValueError, w')
      /\ disk w'
         = dict_set (disk w) (csv_name w)
                    (Csv (keys (flatten first)
                            :: csv_rows first (first :: before)))
      /\ trace w' = Opened (csv_name w) :: trace w.
Proof.
  intros first before bad after k encrypt_password w Hall Hk Hn.
  rewrite save_csv_run. cbv zeta.
  change (map flatten (first :: before ++ bad :: after))
    with (map flatten ((first :: before) ++ bad :: after)).
  rewrite map_app. cbn [map].
  change (flatten first :: map flatten before)
    with (map flatten (first :: before)).
  rewrite (writerows_stops _ _ _ _ _ k _ [keys (flatten first)]).
  - eexists. split; [ reflexivity | ].
    cbn [disk trace with_disk with_trace with_glanced].
    rewrite dict_set_twice. unfold csv_rows. rewrite map_map.
    split; reflexivity.
  - cbn [disk with_disk]. apply dict_get_set_same.
  - cbn [map]. constructor; [ apply fits_own_keys | ].
    apply Forall_map. exact Hall.
  - exact Hk.
  - exact Hn.
Qed.

Lemma save_csv_stops_at_an_unknown_field_witness :
  exists w',
    save_identity
      ([("email", Str "a@example.com")]
         :: [[("email", Str "b@example.com")]]
         ++ [("email", Str "c@example.com"); ("email_token", Str "t0k3n")]
         :: [[("email", Str "d@example.com")]])
      "csv" None (fresh offline (fun _ => 0)) = (Raise ValueError, w')
    /\ disk w'
       = [("data/identities_20250615_120000.csv",
           Csv [["email"]; ["a@example.com"]; ["b@example.com"]])]
    /\ trace w' = [Opened "data/identities_20250615_120000.csv"].
Proof.
  destruct (save_csv_stops_at_an_unknown_field
              [("email", Str "a@example.com")]
              [[("email", Str "b@example.com")]]
              [("email", Str "c@example.com"); ("email_token", Str "t0k3n")]
              [[("email", Str "d@example.com")]]
              "email_token" None (fresh offline (fun _ => 0)))
    as [w' [R [Hd Ht]]].
  - constructor; [ | constructor ]. intros k [<- | []]. now left.
  - right. now left.
  - intros [H | []]. discriminate H.
  - exists w'. split; [ exact R | ]. rewrite Hd, Ht. split; reflexivity.
Defined.

(** ** Writing the other formats *)

Lemma save_dump_run identities output_format encrypt_password w :
  String.eqb output_format "csv" = false ->
  save_identity identities output_format encrypt_password w
  = (Ok tt,
     with_trace
       (Logged INFO ("Identities saved to " ++ dump_name output_format w)
          :: Printed ("Identities saved to " ++ dump_name output_format w)
          :: Opened (dump_name output_format w) :: trace w)
       (with_disk
          (dict_set (disk w) (dump_name output_format w)
             (let dumper := if String.eqb output_format "json"
                            then JsonDumps else YamlDump in
              match encrypt_password with
              | Some password =>
                  if truthy password
                  then Sealed kdf password dumper identities
                  else Dump dumper identities
              | None => Dump dumper identities
              end))
          (with_glanced (S (glanced w)) w))).
Proof.
  intros Hf. unfold save_identity, dump_name.
  unfold bind at 1. unfold now at 1. rewrite Hf. reflexivity.
Qed.

(** X20.  The file name has the clock's second in it and nothing
    else that varies: a second export in the same format within the
    same second replaces the first, and leaves the files as if the
    first had never been made. *)
Theorem save_identity_overwrites_within_a_second :
  forall (first second : list Identity) (output_format : string)
         (password1 password2 : option string) (w w1 : World),
    String.eqb output_format "csv" = false ->
    file_stamp (wallclock w (S (glanced w)))
    = file_stamp (wallclock w (glanced w)) ->
    save_identity first output_format password1 w = (Ok tt, w1) ->
    exists w2 w2',
      save_identity second output_format password2 w1 = (Ok tt, w2)
      /\ save_identity second output_format password2 w = (Ok tt, w2')
      /\ disk w2 = disk w2'.
Proof.
  intros first second output_format password1 password2 w w1 Hf Hclock H1.
  rewrite (save_dump_run _ _ _ _ Hf) in H1. injection H1 as <-.
  rewrite !(save_dump_run _ _ _ _ Hf).
  do 2 eexists. split; [ reflexivity | ]. split; [ reflexivity | ].
  unfold dump_name.
  cbn [disk wallclock glanced with_trace with_disk with_glanced].
  rewrite Hclock. apply dict_set_twice.
Qed.

Lemma save_identity_overwrites_within_a_second_witness :
  exists w1 w2 w2',
    save_identity [[("email", Str "a@example.com")]] "json" None
                  (fresh offline (fun _ => 0)) = (Ok tt, w1)
    /\ save_identity [] "json" (Some "hunter2") w1 = (Ok tt, w2)
    /\ save_identity [] "json" (Some "hunter2") (fresh offline (fun _ => 0))
       = (Ok tt, w2')
    /\ disk w2 = disk w2'.
Proof.
  destruct (save_identity [[("email", Str "a@example.com")]] "json" None
                          (fresh offline (fun _ => 0)))
    as [[[] | e] w1] eqn:R; [ | vm_compute in R; discriminate R ].
  destruct (save_identity_overwrites_within_a_second
              [[("email", Str "a@example.com")]] [] "json" None
              (Some "hunter2") (fresh offline (fun _ => 0)) w1
              eq_refl eq_refl R)
    as [w2 [w2' H]].
  exists w1, w2, w2'. split; [ reflexivity | exact H ].
Defined.

(** ** Requested fields *)

Lemma dict_get_set_other {V} (d : dict V) k k' v :
  String.eqb k k' = false ->
  dict_get (dict_set d k' v) k = dict_get d k.
Proof.
  intros Hne. induction d as [| [k0 v0] rest IH]; simpl.
  - now rewrite Hne.
  - destruct (String.eqb k' k0) eqn:E; simpl.
    + apply String.eqb_eq in E. subst k0. now rewrite Hne.
    + destruct (String.eqb k k0); [ reflexivity | exact IH ].
Qed.

Lemma project_field_requested identity filtered field :
  project_field identity filtered field
  = match requested identity field with
    | Some v => dict_set filtered field v
    | None => filtered
    end.
Proof.
  unfold project_field, requested.
  destruct (dict_get identity field); [ reflexivity | ].
  destruct (existsb (String.eqb field) address_fields); [ | reflexivity ].
  destruct (dict_get identity "address") as [[value | address] |];
    try reflexivity.
  cbv zeta.
  destruct (dict_get address (nth 1 (split_underscore field "") ""));
    reflexivity.
Qed.

(** What the record kept holds under [k], from the record built so
    far. *)
Lemma projection_from identity fields :
  forall filtered k,
    dict_get (fold_left (project_field identity) fields filtered) k
    = if existsb (String.eqb k) fields
      then match requested identity k with
           | Some v => Some v
           | None => dict_get filtered k
           end
      else dict_get filtered k.
Proof.
  induction fields as [| field rest IH]; intros filtered k; [ reflexivity | ].
  cbn [fold_left existsb]. rewrite IH, project_field_requested.
  destruct (String.eqb k field) eqn:E.
  - apply String.eqb_eq in E. subst field. cbn [orb].
    destruct (requested identity k) as [v |] eqn:R.
    + rewrite dict_get_set_same. now destruct (existsb (String.eqb k) rest).
    + now destruct (existsb (String.eqb k) rest).
  - cbn [orb].
    destruct (requested identity field) as [v |]; [ | reflexivity ].
    now rewrite (dict_get_set_other _ _ _ _ E).
Qed.

Lemma existsb_eqb_In k (l : list string) :
  existsb (String.eqb k) l = true <-> In k l.
Proof.
  rewrite existsb_exists. split.
  - intros [x [Hx E]]. apply String.eqb_eq in E. now subst x.
  - intros H. exists k. split; [ exact H | apply String.eqb_refl ].
Qed.

(** X21.  The record kept when fields are asked for has no field
    that was not asked for; a requested field the identity has keeps
    its value; and a requested [address_street], [address_city],
    [address_state] or [address_country] that the identity does not
    have as a field holds the matching member of its address. *)
Theorem projection_keeps_the_requested_fields :
  forall (identity : Identity) (fields : list string),
    (forall k, dict_has (projection identity fields) k = true -> In k fields)
    /\ (forall k v,
           In k fields -> dict_get identity k = Some v ->
           dict_get (projection identity fields) k = Some v)
    /\ (forall k member address v,
           In k fields -> In (k, member) address_members ->
           dict_get identity k = None ->
           dict_get identity "address" = Some (Sub address) ->
           dict_get address member = Some v ->
           dict_get (projection identity fields) k = Some (Str v)).
Proof.
  intros identity fields. unfold projection. repeat split.
  - intros k Hk. apply dict_has_get in Hk as [v Hv].
    rewrite projection_from in Hv.
    destruct (existsb (String.eqb k) fields) eqn:E;
      [ now apply existsb_eqb_In | discriminate Hv ].
  - intros k v Hin Hv. rewrite projection_from.
    rewrite (proj2 (existsb_eqb_In k fields) Hin).
    unfold requested. now rewrite Hv.
  - intros k member address v Hin Hm Hnone Ha Hv. rewrite projection_from.
    rewrite (proj2 (existsb_eqb_In k fields) Hin).
    unfold requested. rewrite Hnone, Ha.
    destruct Hm as [Hm | [Hm | [Hm | [Hm | []]]]]; injection Hm as <- <-;
      cbn [existsb address_fields String.eqb Ascii.eqb Bool.eqb orb
           split_underscore nth app String.append];
      cbn; now rewrite Hv.
Qed.

(** ** Batches *)

Lemma batch_turn_local self country gender fields preview min_age max_age
      manual_email identities w :
  stocked self = true -> min_age <= max_age ->
  exists identity w',
    batch_turn self country gender fields preview min_age max_age false
               manual_email identities w
    = (Ok (identities ++ [identity])%list, w')
    /\ service w' = service w /\ sent w' = sent w /\ disk w' = disk w
    /\ trace w'
       = ((if preview then [Shown identity] else []) ++ trace w)%list.
Proof.
  intros Hs Hle. unfold batch_turn.
  destruct (generate_identity_shape self country gender false manual_email
              min_age max_age w Hs Hle) as [identity [w1 [R _]]].
  destruct (Quiet_generate_identity self country gender false manual_email
              min_age max_age eq_refl w _ _ R) as [Hsv [Hsn [Ht Hd]]].
  rewrite (bind_ok _ _ _ _ _ R). cbv zeta. cbn [andb].
  destruct preview;
    unfold bind, display_identity, emit, modify, ret;
    do 2 eexists; (split; [ reflexivity | ]);
    cbn [service sent disk trace with_trace app]; rewrite ?Ht; auto.
Qed.

Lemma batch_loop_local self country gender fields preview min_age max_age
      manual_email n :
  stocked self = true -> min_age <= max_age ->
  forall identities w,
    exists new w',
      batch_loop (batch_turn self country gender fields preview min_age
                             max_age false manual_email) n identities w
      = (Ok (identities ++ new)%list, w')
      /\ List.length new = n
      /\ service w' = service w /\ sent w' = sent w /\ disk w' = disk w
      /\ trace w'
         = ((if preview then rev (map Shown new) else []) ++ trace w)%list.
Proof.
  intros Hs Hle. induction n as [| n IH]; intros identities w.
  - exists [], w. rewrite app_nil_r. cbn [batch_loop]. unfold ret.
    repeat split; now destruct preview.
  - cbn [batch_loop].
    destruct (batch_turn_local self country gender fields preview min_age
                max_age manual_email identities w Hs Hle)
      as [identity [w1 [R [Hsv [Hsn [Hd Ht]]]]]].
    rewrite (bind_ok _ _ _ _ _ R).
    destruct (IH (identities ++ [identity])%list w1)
      as [new [w2 [R2 [Hl [Hsv2 [Hsn2 [Hd2 Ht2]]]]]]].
    exists (identity :: new), w2. rewrite R2, <- app_assoc.
    split; [ reflexivity | ]. split; [ cbn; now rewrite Hl | ].
    repeat split; try congruence.
    rewrite Ht2, Ht. destruct preview; [ | reflexivity ].
    cbn [map rev]. now rewrite <- app_assoc.
Qed.

(** X22.  With stocked tables, a valid age range, no mailbox and no
    export, [generate_batch_identities] returns [count] identities
    (none when [count] is not positive); it sends no request and
    writes no file, and all it prints is the identities it returns,
    each shown once in order when a preview is asked for. *)
Theorem generate_batch_without_mailbox_is_local :
  forall (self : Generator) (count : Z) (country gender : string)
         (fields : option (list string)) (output_format : string)
         (preview : bool) (min_age max_age : Z)
         (manual_email encrypt_password : option string) (w : World),
    stocked self = true -> min_age <= max_age ->
    exists identities w',
      generate_batch_identities self count country gender false fields
        output_format preview min_age max_age false manual_email
        encrypt_password w = (Ok identities, w')
      /\ List.length identities = Z.to_nat count
      /\ sent w' = sent w /\ disk w' = disk w
      /\ trace w'
         = ((if preview then rev (map Shown identities) else [])
              ++ trace w)%list.
Proof.
  intros self count country gender fields output_format preview min_age
         max_age manual_email encrypt_password w Hs Hle.
  unfold generate_batch_identities.
  destruct (batch_loop_local self country gender fields preview min_age
              max_age manual_email (Z.to_nat count) Hs Hle [] w)
    as [new [w' [R [Hl [_ [Hsn [Hd Ht]]]]]]].
  cbn [app] in R. rewrite (bind_ok _ _ _ _ _ R).
  exists new, w'. split; [ reflexivity | ]. auto.
Qed.

Lemma generate_batch_without_mailbox_is_local_witness :
  exists identities w',
    generate_batch_identities fallback 2 "US" "any" false
      (Some ["email"; "address_city"]) "json" true 18 65 false None None
      (fresh offline (fun _ => 0)) = (Ok identities, w')
    /\ List.length identities = 2%nat
    /\ sent w' = 0%nat /\ disk w' = []
    /\ trace w' = (rev (map Shown identities) ++ [])%list.
Proof.
  apply (generate_batch_without_mailbox_is_local
           fallback 2 "US" "any" (Some ["email"; "address_city"]) "json" true
           18 65 None None (fresh offline (fun _ => 0)));
    [ reflexivity | lia ].
Defined.

(** ** The shell *)

Lemma print_menu_runs w :
  exists w', for_each print menu w = (Ok tt, w').
Proof. eexists. reflexivity. Qed.

Lemma try_any_runs (c : IO unit) w :
  exists w', try_except c on_any_error w = (Ok tt, w').
Proof.
  unfold try_except. destruct (c w) as [[[] | e] w1].
  - now exists w1.
  - cbn [on_any_error]. unfold emit, modify. eexists. reflexivity.
Qed.

Lemma generate_verb_runs self parsed w :
  exists w', generate_verb self parsed w = (Ok tt, w').
Proof.
  destruct parsed as [args |]; cbn [generate_verb].
  - apply try_any_runs.
  - eexists. reflexivity.
Qed.

Lemma check_inbox_verb_runs re_search parsed w :
  exists w', check_inbox_verb re_search parsed w = (Ok tt, w').
Proof.
  destruct parsed as [args |]; cbn [check_inbox_verb].
  - apply try_any_runs.
  - eexists. reflexivity.
Qed.

Lemma turn_runs re_search self command w :
  exists signal w',
    turn re_search self command w = (Ok signal, w')
    /\ signal = (if is_stop command then Exit else Again).
Proof.
  unfold turn. destruct (print_menu_runs w) as [w1 R].
  rewrite (bind_ok _ _ _ _ _ R).
  destruct command as [| | | parsed | parsed | word]; cbn [is_stop];
    try (do 2 eexists; split; reflexivity).
  - destruct (generate_verb_runs self parsed w1) as [w2 R2].
    rewrite (bind_ok _ _ _ _ _ R2). do 2 eexists. split; reflexivity.
  - destruct (check_inbox_verb_runs re_search parsed w1) as [w2 R2].
    rewrite (bind_ok _ _ _ _ _ R2). do 2 eexists. split; reflexivity.
Qed.

(** What a turn on a verb comes to: the menu, then the verb's [try]
    body; an exception it raises is reported in place. *)
Lemma turn_generate re_search self args w :
  turn re_search self (Generate (Some args)) w
  = match run_generate self args
            (with_trace (rev (map Printed menu) ++ trace w)%list w) with
    | (Ok _, w2) => (Ok Again, w2)
    | (Raise e, w2) => (Ok Again, with_trace (Reported e :: trace w2) w2)
    end.
Proof.
  unfold turn. unfold bind at 1.
  change (for_each print menu w)
    with (@Ok unit tt, with_trace (rev (map Printed menu) ++ trace w)%list w).
  cbn iota. unfold bind at 1. cbn [generate_verb]. unfold try_except.
  destruct (run_generate self args _) as [[[] | e] w2]; reflexivity.
Qed.

Lemma turn_check_inbox re_search self args w :
  turn re_search self (CheckInbox (Some args)) w
  = match run_check_inbox re_search args
            (with_trace (rev (map Printed menu) ++ trace w)%list w) with
    | (Ok _, w2) => (Ok Again, w2)
    | (Raise e, w2) => (Ok Again, with_trace (Reported e :: trace w2) w2)
    end.
Proof.
  unfold turn. unfold bind at 1.
  change (for_each print menu w)
    with (@Ok unit tt, with_trace (rev (map Printed menu) ++ trace w)%list w).
  cbn iota. unfold bind at 1. cbn [check_inbox_verb]. unfold try_except.
  destruct (run_check_inbox re_search args _) as [[[] | e] w2]; reflexivity.
Qed.

(** X23.  One turn of the shell never raises, whatever the command
    does, and it ends the loop on [stop] and on nothing else.  An
    exception raised by the [generate] or the [check-inbox] verb is
    caught and reported: the turn ends in the world the verb left,
    with the report of that exception printed last; when the verb
    ends normally the turn ends in the world it left, with no
    report. *)
Theorem turn_never_raises :
  forall (re_search : string -> string -> searched) (self : Generator)
         (command : Command) (w : World),
    exists signal w',
      turn re_search self command w = (Ok signal, w')
      /\ (signal = Exit <-> command = StopCmd)
      /\ (forall args outcome w2,
             command = Generate (Some args) ->
             run_generate self args
               (with_trace (rev (map Printed menu) ++ trace w)%list w)
             = (outcome, w2) ->
             w' = match outcome with
                  | Ok _ => w2
                  | Raise e => with_trace (Reported e :: trace w2) w2
                  end)
      /\ (forall args outcome w2,
             command = CheckInbox (Some args) ->
             run_check_inbox re_search args
               (with_trace (rev (map Printed menu) ++ trace w)%list w)
             = (outcome, w2) ->
             w' = match outcome with
                  | Ok _ => w2
                  | Raise e => with_trace (Reported e :: trace w2) w2
                  end).
Proof.
  intros re_search self command w.
  destruct (turn_runs re_search self command w) as [signal [w' [R ->]]].
  do 2 eexists. split; [ exact R | ]. split; [ | split ].
  - destruct command; cbn [is_stop]; split; intros H;
      try reflexivity; discriminate H.
  - intros args outcome w2 -> Hrun.
    rewrite turn_generate, Hrun in R.
    destruct outcome; now injection R as <-.
  - intros args outcome w2 -> Hrun.
    rewrite turn_check_inbox, Hrun in R.
    destruct outcome; now injection R as <-.
Qed.

(** Witness for X23: with no email domain configured, [generate]
    raises [IndexError]; the turn reports it and goes on. *)
Lemma turn_never_raises_witness :
  exists w2 w',
    run_generate no_email_domains
      {| save := false; save_log := false; country := "US"; gender := "male";
         format := "json"; count := 1; fields := None; no_preview := false;
         min_age := 18; max_age := 65; use_temp_email := false;
         manual_email := None; encrypt := None |}
      (with_trace (rev (map Printed menu)) (fresh offline (fun _ => 0)))
    = (Raise IndexError, w2)
    /\ turn default_engine no_email_domains
         (Generate
            (Some {| save := false; save_log := false; country := "US";
                     gender := "male"; format := "json"; count := 1;
                     fields := None; no_preview := false; min_age := 18;
                     max_age := 65; use_temp_email := false;
                     manual_email := None; encrypt := None |}))
         (fresh offline (fun _ => 0))
       = (Ok Again, w')
    /\ w' = with_trace (Reported IndexError :: trace w2) w2.
Proof.
  destruct (turn_never_raises
              default_engine no_email_domains
              (Generate
                 (Some {| save := false; save_log := false; country := "US";
                          gender := "male"; format := "json"; count := 1;
                          fields := None; no_preview := false; min_age := 18;
                          max_age := 65; use_temp_email := false;
                          manual_email := None; encrypt := None |}))
              (fresh offline (fun _ => 0)))
    as [signal [w' [T [_ [Hg _]]]]].
  destruct (run_generate no_email_domains
              {| save := false; save_log := false; country := "US";
                 gender := "male"; format := "json"; count := 1;
                 fields := None; no_preview := false; min_age := 18;
                 max_age := 65; use_temp_email := false;
                 manual_email := None; encrypt := None |}
              (with_trace (rev (map Printed menu))
                          (fresh offline (fun _ => 0))))
    as [outcome w2] eqn:R.
  assert (Ho : outcome = Raise IndexError).
  { vm_compute in R. now injection R as <- _. }
  subst outcome.
  exists w2, w'. split; [ reflexivity | ].
  split.
  - assert (Hs : signal = Again).
    { vm_compute in T. now injection T as <- _. }
    now rewrite <- Hs.
  - exact (Hg _ _ _ eq_refl R).
Defined.

(** X24.  The shell ends normally exactly when a [stop] is among the
    commands typed, and then nothing typed after the first [stop] is
    looked at; when the input ends without one, the [EOFError] of
    [input] escapes. *)
Theorem main_loop_ends_at_stop_or_end_of_input :
  forall (re_search : string -> string -> searched) (self : Generator),
    (forall commands w,
        exists w',
          main_loop re_search self commands w
          = (if existsb is_stop commands then Ok tt else Raise EOFError, w'))
    /\ (forall before after w,
           main_loop re_search self (before ++ StopCmd :: after) w
           = main_loop re_search self (before ++ [StopCmd]) w).
Proof.
  intros re_search self. split.
  - induction commands as [| command rest IH]; intros w.
    + cbn [main_loop existsb]. destruct (print_menu_runs w) as [w1 R].
      rewrite (bind_ok _ _ _ _ _ R). eexists. reflexivity.
    + cbn [main_loop existsb].
      destruct (turn_runs re_search self command w) as [signal [w1 [R ->]]].
      rewrite (bind_ok _ _ _ _ _ R).
      destruct (is_stop command); cbn [orb]; [ now exists w1 | apply IH ].
  - induction before as [| command rest IH]; intros after w.
    + cbn [app main_loop].
      destruct (turn_runs re_search self StopCmd w) as [signal [w1 [R ->]]].
      now rewrite !(bind_ok _ _ _ _ _ R).
    + cbn [app main_loop].
      destruct (turn_runs re_search self command w) as [signal [w1 [R ->]]].
      rewrite !(bind_ok _ _ _ _ _ R).
      destruct (is_stop command); [ reflexivity | apply IH ].
Qed.

(** X25.  When the arguments pass the four checks and [--fields]
    names a field that is not valid, [generate] prints the warning and
    goes on exactly as if no field had been asked for. *)
Theorem run_generate_drops_invalid_fields :
  forall (self : Generator) (args : GenerateArgs) (names : list string)
         (w : World),
    1 <= count args ->
    0 <= min_age args <= max_age args -> max_age args <= 120 ->
    (use_temp_email args && truthy_opt (manual_email args))%bool = false ->
    (truthy_opt (encrypt args) && String.eqb (format args) "csv")%bool = false ->
    fields args = Some names ->
    (exists name, In name names /\ ~ In name all_valid) ->
    run_generate self args w
    = run_generate self (without_fields args)
                   (with_trace (Printed invalid_fields_warning :: trace w) w).
Proof.
  intros self args names w Hc [Hmin Hle] Hmax Hboth Henc Hf [name [Hin Hbad]].
  unfold run_generate. cbn [without_fields count min_age max_age
    use_temp_email manual_email encrypt format fields save country gender
    no_preview save_log is_nonempty andb].
  rewrite Hboth, Henc.
  rewrite (proj2 (Z.ltb_ge (count args) 1) Hc).
  rewrite (proj2 (Z.ltb_ge (min_age args) 0) Hmin).
  rewrite (proj2 (Z.ltb_ge (max_age args) (min_age args)) Hle).
  rewrite (proj2 (Z.ltb_ge 120 (max_age args)) Hmax).
  cbn [orb]. rewrite Hf.
  assert (Hall : forallb (fun field => existsb (String.eqb field) all_valid)
                         names = false).
  { apply Bool.not_true_is_false. intros H.
    rewrite forallb_forall in H. apply Hbad.
    apply existsb_eqb_In. now apply H. }
  rewrite Hall.
  destruct names as [| n0 rest]; [ destruct Hin | ].
  cbn [is_nonempty negb andb].
  rewrite (bind_ok (print invalid_fields_warning ;;; ret None) _ w None
                   (with_trace (Printed invalid_fields_warning :: trace w) w)
                   eq_refl).
  reflexivity.
Qed.

Lemma run_generate_drops_invalid_fields_witness :
  run_generate fallback
    {| save := false; save_log := false; country := "US"; gender := "any";
       format := "json"; count := 1; fields := Some ["email"; "nickname"];
       no_preview := false; min_age := 18; max_age := 65;
       use_temp_email := false; manual_email := None; encrypt := None |}
    (fresh offline (fun _ => 0))
  = run_generate fallback
      {| save := false; save_log := false; country := "US"; gender := "any";
         format := "json"; count := 1; fields := None;
         no_preview := false; min_age := 18; max_age := 65;
         use_temp_email := false; manual_email := None; encrypt := None |}
      (with_trace [Printed invalid_fields_warning]
                  (fresh offline (fun _ => 0))).
Proof.
  apply (run_generate_drops_invalid_fields
           fallback
           {| save := false; save_log := false; country := "US";
              gender := "any"; format := "json"; count := 1;
              fields := Some ["email"; "nickname"];
              no_preview := false; min_age := 18; max_age := 65;
              use_temp_email := false; manual_email := None;
              encrypt := None |}
           ["email"; "nickname"] (fresh offline (fun _ => 0)));
    cbn; try lia; try reflexivity.
  exists "nickname". split; [ right; now left | ].
  intros H. repeat (destruct H as [H | H]; [ discriminate H | ]). exact H.
Defined.

(** ** Birthdates *)

(** X26.  With [max_age] below [min_age] the range of years is empty:
    [generate_birthdate] raises [ValueError] after reading the clock,
    before it draws anything. *)
Theorem generate_birthdate_rejects_an_empty_range :
  forall (min_age max_age : Z) (w : World),
    max_age < min_age ->
    generate_birthdate min_age max_age w
    = (Raise ValueError, with_glanced (S (glanced w)) w).
Proof.
  intros min_age max_age w H. unfold generate_birthdate.
  unfold bind at 1. unfold now at 1. cbv zeta.
  unfold bind at 1. unfold randbelow at 1.
  match goal with
  | |- context [?n <=? 0] => destruct (Z.leb_spec n 0) as [_ | Hpos]
  end; [ reflexivity | lia ].
Qed.

Lemma generate_birthdate_rejects_an_empty_range_witness :
  generate_birthdate 65 18 (fresh offline (fun _ => 0))
  = (Raise ValueError,
     with_glanced 1 (fresh offline (fun _ => 0))).
Proof.
  apply (generate_birthdate_rejects_an_empty_range
           65 18 (fresh offline (fun _ => 0))).
  lia.
Defined.

(** ** Pauses *)


